(** * web-search-mcp: the search engine driver, embedded and verified

    The repository carries two implementations of the search service:

    - [src/services/googleSearch.ts], which goes with the browser
      utilities of [unnamed/part_003] (three-argument
      [resolveContextOptions], [setupContext] taking the context options);
      it is embedded in [Module GoogleSearch], its utilities in
      [Module Part003];
    - [unnamed/part_002], which goes with [src/utils/browser.ts]
      ([setupContext] loads the saved state itself); it is embedded in
      [Module Part002], its utilities in [Module BrowserTs].

    [loadSavedState], [saveBrowserState], [launchBrowser] and [setupPage]
    are textually the same in both utility files and are embedded once.

    The browser engine (Playwright), the file system, the clock and the
    random generator are outside the program.  The engine is an oracle
    ([Engine]): one record per call of [performSearch] that fixes what
    every engine call of that attempt answers.  The code is sequential
    inside one attempt and reaches every call site at most once, so every
    run of the real program is the run of the model under some oracle.
    Effects are threaded through a state-and-exception monad whose state
    holds the file system, the [savedState] object and a trace of the
    calls made.

    Durations are exact rationals and the result limit is an integer;
    strings are strings of bytes.  The queries of a batch run
    concurrently in the program; in the model each of them is driven by
    engine answers of its own and they are run one after the other on
    the shared state. *)

From Stdlib Require Import ZArith QArith List String Ascii Bool Lia Arith.
From Stdlib Require Import DecimalString DecimalNat.
Import ListNotations.

Local Close Scope Q_scope.
Local Open Scope string_scope.
Local Open Scope list_scope.

(** ** JavaScript values used by the program *)

Module JS.

(** [s.includes(p)] *)
Fixpoint includes (s p : string) : bool :=
  String.prefix p s ||
  match s with
  | EmptyString => false
  | String _ s' => includes s' p
  end.

(** [s.startsWith(p)] *)
Definition startsWith (s p : string) : bool := String.prefix p s.

Fixpoint drop (n : nat) (s : string) : string :=
  match n, s with
  | O, _ => s
  | S n', String _ s' => drop n' s'
  | S _, EmptyString => EmptyString
  end.

(** [s.replace(pat, rep)] with a string pattern: the first occurrence
    only. *)
Fixpoint replace (s pat rep : string) : string :=
  if String.prefix pat s then rep ++ drop (String.length pat) s
  else match s with
       | EmptyString => EmptyString
       | String c s' => String c (replace s' pat rep)
       end.

(** Truthiness of a string: every string but the empty one. *)
Definition truthy (s : string) : bool :=
  match s with
  | EmptyString => false
  | String _ _ => true
  end.

(** [x || d] where [x] is a string, [undefined] or [null]. *)
Definition or_else (x : option string) (d : string) : string :=
  match x with
  | Some s => if truthy s then s else d
  | None => d
  end.

(** [arr.slice(0, e)] for an integral [e]: a negative end counts from
    the end of the array. *)
Definition slice0 {A : Type} (e : Z) (arr : list A) : list A :=
  let len := Z.of_nat (List.length arr) in
  let final := if (e <? 0)%Z then Z.max (len + e) 0 else Z.min e len in
  firstn (Z.to_nat final) arr.

(** [s.slice(0, n)] on a string, [n] a non-negative literal. *)
Definition str_slice0 (n : nat) (s : string) : string := String.substring 0 n s.

(** [String(n)] for a natural number: its decimal digits. *)
Definition String_of_nat (n : nat) : string :=
  NilEmpty.string_of_uint (Nat.to_uint n).

Definition String_of_bool (b : bool) : string :=
  if b then "true" else "false".

(** Error objects: [name] and [message]. *)
Record Error := mkError { name : string; message : string }.

(** [new Error(msg)] *)
Definition new_Error (msg : string) : Error := mkError "Error" msg.

(** [String(e)], that is [Error.prototype.toString]. *)
Definition String_of_Error (e : Error) : string :=
  if negb (truthy (name e)) then message e
  else if negb (truthy (message e)) then name e
  else name e ++ ": " ++ message e.

End JS.

(** ** Data model *)

Inductive ColorScheme := dark | light.
Inductive ReducedMotion := reduce | no_preference.
Inductive ForcedColors := active | none.

(** [FingerprintConfig] of the browser utilities. *)
Record FingerprintConfig := mkFingerprint {
  deviceName : string;
  fp_locale : string;
  timezoneId : string;
  colorScheme : ColorScheme;
  reducedMotion : ReducedMotion;
  forcedColors : ForcedColors
}.

(** [SavedState] of the browser utilities: both fields optional. *)
Record SavedState := mkSavedState {
  fingerprint : option FingerprintConfig;
  googleDomain : option string
}.

Definition emptySavedState : SavedState := mkSavedState None None.

(** Modelled from the spec: [types/index.ts] is not among the sources.
    The fields of [SearchOptions] are those the two [googleSearch]
    functions destructure or read ([limit], [timeout], [stateFile],
    [noSaveState], [locale], [debug]); the spec calls them resultLimit,
    timeoutMs, stateIdentifier, persistState (negated), locale and
    visibleMode.  Every field is optional.  Numbers are exact rationals
    for durations (the code halves and doubles them) and integers for the
    result limit. *)
Record SearchOptions := mkOptions {
  limit : option Z;
  timeout : option Q;
  stateFile : option string;
  noSaveState : option bool;
  locale : option string;
  debug : option bool
}.

Definition noOptions : SearchOptions :=
  mkOptions None None None None None None.

(** Modelled from the spec: [SearchResult] and [SearchResponse] of
    [types/index.ts], as the object literals of [performSearch] build
    them. *)
Record SearchResult := mkResult {
  title : string;
  link : string;
  snippet : string
}.

Record SearchResponse := mkResponse {
  query : string;
  results : list SearchResult
}.

(** A DOM element as the in-page callbacks see it. *)
Local Unset Elimination Schemes.
Inductive Element := mkElement {
  textContent : option string;
  href : option string;                     (* the [href] property *)
  getAttribute : string -> option string;
  querySelector : string -> option Element;
  parentElement : option Element
}.
Local Set Elimination Schemes.

(** ** Promises, the world and the monad *)

(** How an awaited call ends.  [Pending] is a promise that never
    settles.  [OutOfFuel] is not a behaviour of the program: it marks a
    run of the model that was cut by the recursion bound of
    [performSearch]. *)
Inductive outcome (A : Type) : Type :=
| Returns (a : A)
| Throws (e : JS.Error)
| Pending
| OutOfFuel.

Arguments Returns {A} a.
Arguments Throws {A} e.
Arguments Pending {A}.
Arguments OutOfFuel {A}.

(** What the engine answers to a call that settles.  Calls that take no
    [timeout] option are taken to settle: the engine bounds them by
    timeouts of its own. *)
Inductive settled (A : Type) : Type :=
| Fulfilled (a : A)
| Rejected (e : JS.Error).

Arguments Fulfilled {A} a.
Arguments Rejected {A} e.

(** What the engine answers to a call that takes a [timeout] option:
    the call would settle after [ms] milliseconds, or never. *)
Inductive completion (A : Type) : Type :=
| After (ms : Q) (r : settled A)
| Never.

Arguments After {A} ms r.
Arguments Never {A}.

Definition Handle := nat.

Inductive LogLevel := info | warn | error | debug_level.

(** The trace: the logger calls, the file system calls and those engine
    calls that open, drive or release a session, in the order the program
    makes them.  [CallPerformSearch] is the entry of [performSearch]. *)
Inductive Event :=
| Log (level : LogLevel) (msg : string)
| CallPerformSearch (headless forceNewBrowser : bool)
| Launch (headless : bool) (timeout : Q) (browser : Handle)
| NewContext (browser : Handle) (storageState : option string) (context : Handle)
| NewPage (context page : Handle)
| Goto (page : Handle) (url : string)
| Click (page : Handle)
| TypeText (page : Handle) (text : string) (delay : nat)
| WaitForTimeout (page : Handle) (ms : nat)
| Press (page : Handle) (key : string)
| WaitForNavigation (page : Handle) (timeout : Q)
| WaitForURL (page : Handle) (timeout : Q)
| ClosePage (page : Handle)
| CloseContext (context : Handle)
| CloseBrowser (browser : Handle)
| StorageState (context : Handle) (path : string)
| ExistsSync (path : string)
| ReadFileSync (path : string)
| MkdirSync (path : string)
| WriteFileSync (path : string).

(** The file system: regular files with their contents, directories, and
    the paths at which a write succeeds. *)
Record FileSystem := mkFS {
  file : string -> option string;
  dir : string -> bool;
  writable : string -> bool
}.

Definition write (fs : FileSystem) (path contents : string) : FileSystem :=
  mkFS (fun p => if String.eqb p path then Some contents else file fs p)
       (dir fs) (writable fs).

Definition mkdir (fs : FileSystem) (path : string) : FileSystem :=
  mkFS (file fs)
       (fun p => if String.eqb p path then true else dir fs p)
       (writable fs).

(** The state the program runs in.  [savedState] is the one [SavedState]
    object a query holds and mutates in place. *)
Record State := mkState {
  fs : FileSystem;
  savedState : SavedState;
  trace : list Event;
  next : Handle
}.

Definition M (A : Type) : Type := State -> outcome A * State.

Definition ret {A : Type} (a : A) : M A := fun st => (Returns a, st).

Definition bind {A B : Type} (m : M A) (k : A -> M B) : M B :=
  fun st =>
    match m st with
    | (Returns a, st') => k a st'
    | (Throws e, st') => (Throws e, st')
    | (Pending, st') => (Pending, st')
    | (OutOfFuel, st') => (OutOfFuel, st')
    end.

Declare Scope js_scope.
Delimit Scope js_scope with js.
Notation "x <- m ;; k" := (bind m (fun x => k))
  (at level 100, m at next level, right associativity) : js_scope.
Notation "m ;; k" := (bind m (fun _ => k))
  (at level 100, right associativity) : js_scope.
Local Open Scope js_scope.

(** [throw e] *)
Definition throw {A : Type} (e : JS.Error) : M A := fun st => (Throws e, st).

Definition out_of_fuel {A : Type} : M A := fun st => (OutOfFuel, st).

(** [try { m } catch (e) { h e }] *)
Definition try_catch {A : Type} (m : M A) (h : JS.Error -> M A) : M A :=
  fun st =>
    match m st with
    | (Throws e, st') => h e st'
    | r => r
    end.

(** [try { m } finally { f }]: [f] runs when [m] returns or throws, and
    an exception of [f] replaces the result of [m]. *)
Definition try_finally {A : Type} (m : M A) (f : M unit) : M A :=
  fun st =>
    match m st with
    | (Returns a, st') => bind f (fun _ => ret a) st'
    | (Throws e, st') => bind f (fun _ => throw e) st'
    | r => r
    end.

Definition emit (ev : Event) : M unit :=
  fun st => (Returns tt, mkState (fs st) (savedState st) (trace st ++ [ev]) (next st)).

Definition fresh : M Handle :=
  fun st => (Returns (next st), mkState (fs st) (savedState st) (trace st) (S (next st))).

Definition get_savedState : M SavedState := fun st => (Returns (savedState st), st).

Definition set_savedState (s : SavedState) : M unit :=
  fun st => (Returns tt, mkState (fs st) s (trace st) (next st)).

Definition get_fs : M FileSystem := fun st => (Returns (fs st), st).

Definition set_fs (f : FileSystem) : M unit :=
  fun st => (Returns tt, mkState f (savedState st) (trace st) (next st)).

Definition when (b : bool) (m : M unit) : M unit := if b then m else ret tt.

(** An engine call that settles. *)
Definition settle {A : Type} (r : settled A) : M A :=
  match r with
  | Fulfilled a => ret a
  | Rejected e => throw e
  end.

(** The error of a call that timed out.  Its message stands for the
    text of the engine, which names the call and the timeout. *)
Definition TimeoutError : JS.Error := JS.mkError "TimeoutError" "Timeout exceeded.".

(** An engine call with the option [timeout: T]: Playwright disables the
    timeout when [T] is 0. *)
Definition timed {A : Type} (T : Q) (c : completion A) : M A :=
  match c with
  | After ms r =>
      if Qeq_bool T 0 || Qle_bool ms T then settle r else throw TimeoutError
  | Never => if Qeq_bool T 0 then (fun st => (Pending, st)) else throw TimeoutError
  end.

(** A wait for a navigation to a URL that satisfies [pred], with the
    option [timeout: T].  [navs] lists the navigations that follow the
    call, each with the time it happens at. *)
Definition awaitNavigation (pred : string -> bool) (T : Q) (navs : list (Q * string))
  : M string :=
  match find (fun n => pred (snd n)) navs with
  | Some (ms, url) => timed T (After ms (Fulfilled url))
  | None => timed T Never
  end.

(** Modelled from the spec: [utils/logger.ts] is not among the sources.
    A call of [logger.info], [logger.warn] or [logger.error] is recorded
    in the trace with its level and its message. *)
Definition logger (level : LogLevel) (msg : string) : M unit := emit (Log level msg).

(** ** The host and the engine *)

(** What the program reads from its host: the JSON codec at the type
    [SavedState] ([JSON.parse] throws a [SyntaxError] on text that is not
    JSON), [path.dirname], the environment variable [LANG], the clock and
    the time zone. *)
Record Host := mkHost {
  JSON_parse : string -> option SavedState;
  JSON_stringify : SavedState -> string;
  path_dirname : string -> string;
  env_LANG : option string;
  getTimezoneOffset : Z;
  getHours : Z;
  resolvedTimeZone : string
}.

(** What the engine answers during one call of [performSearch].  Call
    sites that exclude each other inside one attempt (the two escalation
    blocks) read the same field.  [loadState_results], [url_results] and
    [loadState_solved] are read by [GoogleSearch] only; [results_navs]
    and [storageState_early] by [Part002] only. *)
Record Engine := mkEngine {
  launch : completion unit;                   (* chromium.launch *)
  newContext : settled unit;                  (* browser.newContext *)
  context_addInitScript : settled unit;
  newPage : settled unit;                     (* context.newPage *)
  page_addInitScript : settled unit;
  random_domain : nat;                        (* the draw that picks the domain *)
  random_type : nat;                          (* the draw of the typing delay *)
  random_pause : nat;                         (* the draw of the pause *)
  goto : completion (option string);          (* page.goto: URL of the response, if any *)
  url_home : string;                          (* page.url() after goto *)
  page_close : settled unit;
  context_close : settled unit;
  browser_close_escalate : settled unit;      (* browser.close() before the restart *)
  home_navs : list (Q * string);              (* navigations while the first challenge shows *)
  dollar : string -> settled bool;            (* page.$(selector) found an element *)
  click : settled unit;
  keyboard_type : settled unit;
  waitForTimeout : settled unit;
  keyboard_press : settled unit;
  loadState_results : completion unit;        (* waitForLoadState after Enter *)
  url_results : string;                       (* page.url() after it *)
  results_navs : list (Q * string);           (* navigations after Enter *)
  solve_navs : list (Q * string);             (* navigations while the second challenge shows *)
  loadState_solved : completion unit;         (* waitForLoadState after the challenge *)
  waitForSelector : string -> completion unit;
  eval : string -> settled (list Element);    (* page.$$eval(selector, ...): the elements matched *)
  storageState_early : settled string;        (* context.storageState before the search *)
  storageState : settled string;              (* context.storageState after the search *)
  browser_close : settled unit;               (* browser.close() in the try block *)
  browser_close_catch : settled unit          (* browser.close() in the catch block *)
}.

(** ** File system calls *)

Definition existsSync (path : string) : M bool :=
  emit (ExistsSync path) ;;
  f <- get_fs ;;
  ret (match file f path with Some _ => true | None => dir f path end).

Definition ENOENT : JS.Error := JS.mkError "Error" "ENOENT: no such file or directory".
Definition EACCES : JS.Error := JS.mkError "Error" "EACCES: permission denied".
Definition SyntaxError : JS.Error := JS.mkError "SyntaxError" "Unexpected token in JSON".

Definition readFileSync (path : string) : M string :=
  emit (ReadFileSync path) ;;
  f <- get_fs ;;
  match file f path with
  | Some contents => ret contents
  | None => throw ENOENT
  end.

Definition writeFileSync (path contents : string) : M unit :=
  emit (WriteFileSync path) ;;
  f <- get_fs ;;
  if writable f path then set_fs (write f path contents) else throw EACCES.

Definition mkdirSync (path : string) : M unit :=
  emit (MkdirSync path) ;;
  f <- get_fs ;;
  if writable f path then set_fs (mkdir f path) else throw EACCES.

(** [context.storageState({ path })]: the engine serialises the session
    and writes it to [path]. *)
Definition context_storageState (r : settled string) (context : Handle) (path : string)
  : M unit :=
  emit (StorageState context path) ;;
  blob <- settle r ;;
  f <- get_fs ;;
  if writable f path then set_fs (write f path blob) else throw EACCES.

(** ** Browser utilities common to [src/utils/browser.ts] and
    [unnamed/part_003] *)

Definition fingerprintFileOf (stateFile : string) : string :=
  JS.replace stateFile ".json" "-fingerprint.json".

(** [loadSavedState(stateFile)]: returns the pair [storageState],
    [savedState]. *)
Definition loadSavedState (host : Host) (stateFile : string)
  : M (option string * SavedState) :=
  let fingerprintFile := fingerprintFileOf stateFile in
  ex <- existsSync stateFile ;;
  let storageState := if ex then Some stateFile else None in
  let savedState := emptySavedState in
  match storageState with
  | Some path =>
      if JS.truthy path then
        ex2 <- existsSync fingerprintFile ;;
        if ex2 then
          try_catch
            (text <- readFileSync fingerprintFile ;;
             match JSON_parse host text with
             | Some parsed => ret (storageState, parsed)
             | None => throw SyntaxError
             end)
            (fun e =>
               logger warn "[Browser] Cannot load fingerprint file" ;;
               ret (storageState, savedState))
        else ret (storageState, savedState)
      else ret (storageState, savedState)
  | None => ret (storageState, savedState)
  end.

(** [saveBrowserState(context, stateFile, savedState)]; the [savedState]
    argument is the object held in the state. *)
Definition saveBrowserState (host : Host) (E_storageState : settled string)
    (context : Handle) (stateFile : string) : M unit :=
  let fingerprintFile := fingerprintFileOf stateFile in
  let stateDir := path_dirname host stateFile in
  ex <- existsSync stateDir ;;
  when (negb ex) (mkdirSync stateDir) ;;
  context_storageState E_storageState context stateFile ;;
  s <- get_savedState ;;
  writeFileSync fingerprintFile (JSON_stringify host s).

(** [launchBrowser(headless, timeout)] *)
Definition launchBrowser (E_launch : completion unit) (headless : bool) (timeout : Q)
  : M Handle :=
  timed (timeout * 2) E_launch ;;
  browser <- fresh ;;
  emit (Launch headless (timeout * 2) browser) ;;
  ret browser.

(** [setupPage(context)] *)
Definition setupPage (E : Engine) (context : Handle) : M Handle :=
  settle (newPage E) ;;
  page <- fresh ;;
  emit (NewPage context page) ;;
  settle (page_addInitScript E) ;;
  ret page.

(** The context options are opaque to the model: the engine's answer to
    [browser.newContext] is the oracle's, whatever the options. *)
Definition browser_newContext (E : Engine) (browser : Handle) (storageState : option string)
  : M Handle :=
  settle (newContext E) ;;
  context <- fresh ;;
  emit (NewContext browser storageState context) ;;
  settle (context_addInitScript E) ;;
  ret context.

Definition truthy_path (storageState : option string) : option string :=
  match storageState with
  | Some p => if JS.truthy p then Some p else None
  | None => None
  end.

(** ** [unnamed/part_003]: the utilities [GoogleSearch] imports *)

Module Part003.

(** [getHostMachineConfig(userLocale)] *)
Definition getHostMachineConfig (host : Host) (userLocale : option string)
  : FingerprintConfig :=
  let systemLocale := JS.or_else userLocale (JS.or_else (env_LANG host) "en-US") in
  let timezoneOffset := getTimezoneOffset host in
  let timezoneId :=
    (if (timezoneOffset <=? -480) && (timezoneOffset >? -600) then "Asia/Shanghai"
     else if timezoneOffset <=? -540 then "Asia/Tokyo"
     else if (timezoneOffset <=? -420) && (timezoneOffset >? -480) then "Asia/Bangkok"
     else if (timezoneOffset <=? 0) && (timezoneOffset >? -60) then "Europe/London"
     else if (timezoneOffset <=? 60) && (timezoneOffset >? 0) then "Europe/Berlin"
     else if (timezoneOffset <=? 300) && (timezoneOffset >? 240) then "America/New_York"
     else "America/New_York")%Z in
  let hour := getHours host in
  let colorScheme := if ((hour >=? 19) || (hour <? 7))%Z then dark else light in
  mkFingerprint "Desktop Chrome" systemLocale timezoneId colorScheme no_preference none.

(** [resolveContextOptions(savedState, locale, deviceName)]: its effect
    on the [savedState] object. *)
Definition resolveContextOptions (host : Host) (locale : string) : M unit :=
  s <- get_savedState ;;
  match fingerprint s with
  | Some _ => ret tt
  | None =>
      let hostConfig := getHostMachineConfig host (Some locale) in
      set_savedState (mkSavedState (Some hostConfig) (googleDomain s))
  end.

(** [setupContext(browser, options, storageState)] *)
Definition setupContext (E : Engine) (browser : Handle) (storageState : option string)
  : M Handle :=
  browser_newContext E browser (truthy_path storageState).

End Part003.

(** ** [src/utils/browser.ts]: the utilities [Part002] imports *)

Module BrowserTs.

(** [getHostMachineConfig(userLocale)] *)
Definition getHostMachineConfig (host : Host) (userLocale : option string)
  : FingerprintConfig :=
  mkFingerprint "Desktop Chrome"
    (JS.or_else userLocale (JS.or_else (env_LANG host) "en-US"))
    (resolvedTimeZone host)
    (if ((getHours host >=? 19) || (getHours host <? 7))%Z then dark else light)
    no_preference none.

(** [resolveContextOptions(savedState)]: its effect on the [savedState]
    object.  The fingerprint it fills in takes its device from
    [selectedDevice] and the other fields from the merged options, where
    the machine configuration overrides the device defaults. *)
Definition resolveContextOptions (host : Host) : M unit :=
  s <- get_savedState ;;
  let machineConfig := getHostMachineConfig host None in
  let selectedDevice :=
    JS.or_else (option_map deviceName (fingerprint s)) (deviceName machineConfig) in
  match fingerprint s with
  | Some _ => ret tt
  | None =>
      set_savedState
        (mkSavedState
           (Some (mkFingerprint selectedDevice (fp_locale machineConfig)
                    (timezoneId machineConfig) (colorScheme machineConfig)
                    (reducedMotion machineConfig) (forcedColors machineConfig)))
           (googleDomain s))
  end.

(** [setupContext(browser, stateFile)]: loads the saved state into the
    state's [savedState] object and returns the context. *)
Definition setupContext (host : Host) (E : Engine) (browser : Handle) (stateFile : string)
  : M Handle :=
  loaded <- loadSavedState host stateFile ;;
  set_savedState (snd loaded) ;;
  resolveContextOptions host ;;
  browser_newContext E browser (truthy_path (fst loaded)).

End BrowserTs.

(** ** The in-page callbacks of [performSearch]

    The two callbacks handed to [page.$$eval] are the same text in both
    implementations. *)

Definition valid (item : SearchResult) : bool :=
  JS.truthy (title item) && JS.truthy (link item).

Definition bind_opt {A B : Type} (x : option A) (f : A -> option B) : option B :=
  match x with
  | Some a => f a
  | None => None
  end.

(** The callback of the structural strategies:
    [elements.slice(0, maxResults).map(...).filter(item => item.title && item.link)]. *)
Definition structuralItem (titleSelector snippetSelector : string) (el : Element)
  : SearchResult :=
  let titleEl := querySelector el titleSelector in
  let linkEl := querySelector el "a" in
  let snippetEl := querySelector el snippetSelector in
  mkResult (JS.or_else (bind_opt titleEl textContent) "")
           (JS.or_else (bind_opt linkEl href) "")
           (JS.or_else (bind_opt snippetEl textContent) "").

Definition extractStructural (maxResults : Z) (titleSelector snippetSelector : string)
    (elements : list Element) : list SearchResult :=
  filter valid
    (map (structuralItem titleSelector snippetSelector) (JS.slice0 maxResults elements)).

(** The callback of the fallback:
    [elements.filter(...).slice(0, maxResults).map(...).filter(...)].
    An [href] property that is undefined is falsy and the item is dropped
    by the last filter, as with the empty string that stands for it. *)
Definition outbound (el : Element) : bool :=
  let href := JS.or_else (getAttribute el "href") "" in
  JS.startsWith href "http" && negb (JS.includes href "google.com/").

Definition fallbackItem (el : Element) : SearchResult :=
  mkResult (JS.or_else (textContent el) "")
           (match href el with Some h => h | None => "" end)
           (JS.or_else
              (option_map (JS.str_slice0 200) (bind_opt (parentElement el) textContent))
              "").

Definition extractFallback (maxResults : Z) (elements : list Element) : list SearchResult :=
  filter valid (map fallbackItem (JS.slice0 maxResults (filter outbound elements))).

Record ResultSelector := mkSelector {
  container : string;
  title_selector : string;
  snippet_selector : string
}.

Definition searchInputSelectors : list string :=
  ["textarea[name='q']"; "input[name='q']"; "textarea[title='Search']"; "textarea"].

Definition searchResultSelectors : list string :=
  ["#search"; "#rso"; ".g"; "div[role='main']"].

Definition resultSelectors : list ResultSelector :=
  [mkSelector "#search .g" "h3" ".VwiC3b"; mkSelector ".g" "h3" ".VwiC3b"].

(** [Math.floor(Math.random() * (max - min + 1)) + min], the draw given
    as a natural number. *)
Definition getRandomDelay (draw min max : nat) : nat :=
  (draw mod (max - min + 1) + min)%nat.

(** The loop over [searchInputSelectors]: the first selector for which
    [page.$] finds an element. *)
Fixpoint findSearchInput (E : Engine) (selectors : list string) : M bool :=
  match selectors with
  | [] => ret false
  | selector :: rest =>
      found <- settle (dollar E selector) ;;
      if found then ret true else findSearchInput E rest
  end.

(** The loop over [searchResultSelectors]: a failed wait is swallowed and
    the next selector is tried. *)
Fixpoint waitForResults (E : Engine) (T : Q) (selectors : list string) : M bool :=
  match selectors with
  | [] => ret false
  | selector :: rest =>
      try_catch (timed T (waitForSelector E selector) ;; ret true)
                (fun _ => waitForResults E T rest)
  end.

(** The loop over [resultSelectors]: [results] is overwritten by each
    strategy and the loop stops at the first non-empty one. *)
Fixpoint structuralStrategies (E : Engine) (maxResults : Z) (selectors : list ResultSelector)
  : M (list SearchResult) :=
  match selectors with
  | [] => ret []
  | selector :: rest =>
      elements <- settle (eval E (container selector)) ;;
      let results :=
        extractStructural maxResults (title_selector selector) (snippet_selector selector)
          elements in
      if (0 <? List.length results)%nat then ret results
      else structuralStrategies E maxResults rest
  end.

Definition failure (q : string) (e : JS.Error) : SearchResponse :=
  mkResponse q [mkResult "Search failed" "" (JS.String_of_Error e)].

Definition page_close_ (E : Engine) (page : Handle) : M unit :=
  emit (ClosePage page) ;; settle (page_close E).

Definition context_close_ (E : Engine) (context : Handle) : M unit :=
  emit (CloseContext context) ;; settle (context_close E).

Definition browser_close_ (r : settled unit) (browser : Handle) : M unit :=
  emit (CloseBrowser browser) ;; settle r.

(** The typing of the query: click, type, pause, Enter. *)
Definition submitQuery (E : Engine) (page : Handle) (q : string) : M unit :=
  emit (Click page) ;;
  settle (click E) ;;
  emit (TypeText page q (getRandomDelay (random_type E) 10 30)) ;;
  settle (keyboard_type E) ;;
  emit (WaitForTimeout page (getRandomDelay (random_pause E) 100 300)) ;;
  settle (waitForTimeout E) ;;
  emit (Press page "Enter") ;;
  settle (keyboard_press E).

(** [options.debug] as a condition. *)
Definition debugOf (options : SearchOptions) : bool :=
  match debug options with
  | Some b => b
  | None => false
  end.

(** ** Batches *)

(** What the engine answers during one call of [multiGoogleSearch]: the
    launch and the close of the shared browser, and the answers to each
    query, by index in the batch and then by call of [performSearch]. *)
Record BatchWorld := mkBatch {
  batch_launch : completion unit;
  batch_close : settled unit;
  query_world : nat -> nat -> Engine
}.

(** [arr.map((x, index) => f(x, index))], from index [i] on. *)
Fixpoint mapi_from {A B : Type} (i : nat) (f : A -> nat -> B) (arr : list A) : list B :=
  match arr with
  | [] => []
  | x :: rest => f x i :: mapi_from (S i) f rest
  end.

Definition mapi {A B : Type} (f : A -> nat -> B) (arr : list A) : list B :=
  mapi_from 0 f arr.

(** How [Promise.all] settles from the way its promises end: rejected as
    soon as one is rejected, fulfilled with all the values in order when
    all are fulfilled, pending otherwise.  Which rejection wins when
    several promises are rejected depends on timing; the model takes the
    one of least index. *)
Definition all_step {A : Type} (r : outcome A) (rs : outcome (list A)) : outcome (list A) :=
  match r, rs with
  | OutOfFuel, _ => OutOfFuel
  | _, OutOfFuel => OutOfFuel
  | Throws e, _ => Throws e
  | _, Throws e => Throws e
  | Pending, _ => Pending
  | _, Pending => Pending
  | Returns a, Returns l => Returns (a :: l)
  end.

(** [Promise.all(promises)].  The promises run concurrently; each of them
    is driven by its own engine answers, and the model runs them to their
    end one after the other on the shared state. *)
Fixpoint Promise_all {A : Type} (promises : list (M A)) : M (list A) :=
  fun st =>
    match promises with
    | [] => (Returns [], st)
    | p :: rest =>
        let (r, st1) := p st in
        let (rs, st2) := Promise_all rest st1 in
        (all_step r rs, st2)
    end.

(** [!queries?.length] *)
Definition noQueries (queries : option (list string)) : bool :=
  match queries with
  | Some l => (List.length l =? 0)%nat
  | None => true
  end.

Definition queriesOf (queries : option (list string)) : list string :=
  match queries with
  | Some l => l
  | None => []
  end.

(** [options.timeout || 60000] *)
Definition timeoutOr (options : SearchOptions) : Q :=
  match timeout options with
  | Some t => if Qeq_bool t 0 then 60000 else t
  | None => 60000
  end.

Definition noQueryError : JS.Error :=
  JS.new_Error "At least one search query is required".

(** ** [src/services/googleSearch.ts] *)

Module GoogleSearch.

Definition googleDomains : list string :=
  ["https://www.google.com"; "https://www.google.co.uk";
   "https://www.google.ca"; "https://www.google.com.au"].

Definition captchaPatterns : list string :=
  ["google.com/sorry/index"; "google.com/sorry"; "recaptcha"; "captcha";
   "unusual traffic"].

(** [isBlocked()]: [pageUrl] is [page.url()] at the time of the call,
    [response] the URL of the response of [page.goto], if any. *)
Definition isBlocked (pageUrl : string) (response : option string) : bool :=
  existsb
    (fun p =>
       JS.includes pageUrl p ||
       match response with
       | Some r => JS.includes r p
       | None => false
       end)
    captchaPatterns.

(** The [url] predicate of the two [waitForNavigation] calls. *)
Definition challengeFree (url : string) : bool :=
  forallb (fun p => negb (JS.includes url p)) captchaPatterns.

Section googleSearch.

Variable host : Host.
Variable W : nat -> Engine.           (* the engine, per call of performSearch *)
Variable q : string.                  (* the parameter [query] *)
Variable options : SearchOptions.
Variable existingBrowser : option Handle.

(** The constants [limit], [timeout], [stateFile], [noSaveState] and
    [locale] that [googleSearch] destructures from [options], with their
    defaults; they are primed here, the plain names being those of the
    fields. *)
Definition limit' : Z := match limit options with Some l => l | None => 10%Z end.
Definition timeout' : Q := match timeout options with Some t => t | None => 60000 end.
Definition stateFile' : string :=
  match stateFile options with Some s => s | None => "./browser-state.json" end.
Definition noSaveState' : bool :=
  match noSaveState options with Some b => b | None => false end.
Definition locale' : string :=
  match locale options with Some l => l | None => "en-US" end.

(** The [try] block of [performSearch] (lines 74 to 179), in two
    parts: the search up to the extraction of the results (lines 75
    to 171) and the end of the block (lines 173 to 179).  The block
    ends with the response, or with [inr f] where the source has
    [return performSearch(false, f)]: the call is made by
    [performSearch] once the block is left, since the promise it
    returns is not awaited inside the block. *)
Definition tryBlock_search (E : Engine) (headless browserWasProvided : bool)
    (browser context page : Handle) : M (list SearchResult + bool) :=
  s <- get_savedState ;;
  let selectedDomain :=
    JS.or_else (googleDomain s)
      (nth (random_domain E mod List.length googleDomains) googleDomains "") in
  set_savedState (mkSavedState (fingerprint s) (Some selectedDomain)) ;;
  logger info ("[GoogleSearch] Visiting " ++ selectedDomain) ;;
  emit (Goto page selectedDomain) ;;
  response <- timed timeout' (goto E) ;;
  restart <-
    (if isBlocked (url_home E) response then
       if headless then
         logger warn "[GoogleSearch] CAPTCHA detected, restarting in non-headless mode..." ;;
         page_close_ E page ;;
         context_close_ E context ;;
         when (negb browserWasProvided)
           (browser_close_ (browser_close_escalate E) browser) ;;
         ret true
       else
         logger warn "[GoogleSearch] CAPTCHA detected, please solve it in the browser..." ;;
         emit (WaitForNavigation page (timeout' * 2)) ;;
         awaitNavigation challengeFree (timeout' * 2) (home_navs E) ;;
         ret false
     else ret false) ;;
  if restart : bool then ret (inr browserWasProvided) else
  logger info ("[GoogleSearch] Searching for: " ++ q) ;;
  searchInput <- findSearchInput E searchInputSelectors ;;
  if negb searchInput then throw (JS.new_Error "Could not find search box") else
  submitQuery E page q ;;
  timed timeout' (loadState_results E) ;;
  restart <-
    (if isBlocked (url_results E) response then
       if headless then
         page_close_ E page ;;
         context_close_ E context ;;
         when (negb browserWasProvided)
           (browser_close_ (browser_close_escalate E) browser) ;;
         ret true
       else
         emit (WaitForNavigation page (timeout' * 2)) ;;
         awaitNavigation challengeFree (timeout' * 2) (solve_navs E) ;;
         timed timeout' (loadState_solved E) ;;
         ret false
     else ret false) ;;
  if restart : bool then ret (inr browserWasProvided) else
  waitForResults E (timeout' / 2) searchResultSelectors ;;
  results <- structuralStrategies E limit' resultSelectors ;;
  results <-
    (if (List.length results =? 0)%nat then
       elements <- settle (eval E "a[href^='http']") ;;
       ret (extractFallback limit' elements)
     else ret results) ;;
  ret (inl results).

Definition tryBlock_finish (E : Engine) (browserWasProvided : bool)
    (browser context : Handle) (results : list SearchResult)
  : M (SearchResponse + bool) :=
  when (negb noSaveState')
    (saveBrowserState host (storageState E) context stateFile') ;;
  when (negb browserWasProvided && negb (debugOf options))
    (browser_close_ (browser_close E) browser) ;;
  ret (inl (mkResponse q results)).

Definition tryBlock (E : Engine) (headless browserWasProvided : bool)
    (browser context page : Handle) : M (SearchResponse + bool) :=
  r <- tryBlock_search E headless browserWasProvided browser context page ;;
  match r with
  | inl results => tryBlock_finish E browserWasProvided browser context results
  | inr force => ret (inr force)
  end.

(** The [catch] block of [performSearch] (lines 180 to 184). *)
Definition catchBlock (E : Engine) (browserWasProvided : bool) (browser : Handle)
    (e : JS.Error) : M (SearchResponse + bool) :=
  logger error ("[GoogleSearch] Error: " ++ JS.String_of_Error e) ;;
  when (negb browserWasProvided && negb (debugOf options))
    (browser_close_ (browser_close_catch E) browser) ;;
  ret (inl (failure q e)).

(** The [try ... catch] statement of [performSearch]. *)
Definition tryStatement (E : Engine) (headless browserWasProvided : bool)
    (browser context page : Handle) : M (SearchResponse + bool) :=
  try_catch (tryBlock E headless browserWasProvided browser context page)
            (catchBlock E browserWasProvided browser).

(** [storageState] is the constant of [googleSearch] that
    [performSearch] closes over; [savedState] is the object in the
    state.  [attempt] counts the calls and selects the engine's
    answers.  The device name ([getDeviceName]) only feeds the context
    options, which the model keeps opaque. *)
Fixpoint performSearch (storageState : option string) (fuel attempt : nat)
    (headless forceNewBrowser : bool) : M SearchResponse :=
  match fuel with
  | O => out_of_fuel
  | S fuel' =>
      let E := W attempt in
      emit (CallPerformSearch headless forceNewBrowser) ;;
      let browserWasProvided :=
        match existingBrowser with Some _ => true | None => false end
        && negb forceNewBrowser in
      browser <-
        match (if browserWasProvided then existingBrowser else None) with
        | Some b =>
            logger info "[GoogleSearch] Using existing browser instance" ;;
            ret b
        | None =>
            logger info ("[GoogleSearch] Launching browser (headless="
                           ++ JS.String_of_bool headless ++ ")") ;;
            launchBrowser (launch E) headless timeout'
        end ;;
      Part003.resolveContextOptions host locale' ;;
      context <- Part003.setupContext E browser storageState ;;
      page <- setupPage E context ;;
      r <- tryStatement E headless browserWasProvided browser context page ;;
      match r with
      | inl response => ret response
      | inr force => performSearch storageState fuel' (S attempt) false force
      end
  end.

(** [googleSearch(query, options, existingBrowser)] *)
Definition googleSearch (fuel : nat) : M SearchResponse :=
  let useHeadless := negb (debugOf options) in
  loaded <- loadSavedState host stateFile' ;;
  set_savedState (snd loaded) ;;
  performSearch (fst loaded) fuel 0 useHeadless false.

End googleSearch.

(** The [stateFile] each query of a batch is given:
    [options.stateFile ? `${options.stateFile}-${index}` : `./browser-state-${index}.json`]. *)
Definition stateFileAt (options : SearchOptions) (index : nat) : string :=
  match truthy_path (stateFile options) with
  | Some base => base ++ "-" ++ JS.String_of_nat index
  | None => "./browser-state-" ++ JS.String_of_nat index ++ ".json"
  end.

Definition searchOptionsAt (options : SearchOptions) (index : nat) : SearchOptions :=
  mkOptions (limit options) (timeout options) (Some (stateFileAt options index))
            (noSaveState options) (locale options) (debug options).

(** [multiGoogleSearch(queries, options)] of
    [src/services/googleSearch.ts]. *)
Definition multiGoogleSearch (host : Host) (BW : BatchWorld) (fuel : nat)
    (queries : option (list string)) (options : SearchOptions)
  : M (list SearchResponse) :=
  if noQueries queries then throw noQueryError else
  logger info ("[MultiSearch] Starting "
                 ++ JS.String_of_nat (List.length (queriesOf queries)) ++ " searches...") ;;
  browser <- launchBrowser (batch_launch BW) (negb (debugOf options)) (timeoutOr options) ;;
  try_finally
    (Promise_all
       (mapi
          (fun query index =>
             googleSearch host (query_world BW index) query
               (searchOptionsAt options index) (Some browser) fuel)
          (queriesOf queries)))
    (when (negb (debugOf options)) (browser_close_ (batch_close BW) browser)).


End GoogleSearch.


(** ** [unnamed/part_002] *)

Module Part002.

Definition googleDomains : list string := ["https://www.google.com"].

Definition captchaPatterns : list string := ["google.com/sorry"].

(** [isBlocked(pg)], [pageUrl] being [pg.url()]. *)
Definition isBlocked (pageUrl : string) : bool :=
  existsb (fun pattern => JS.includes pageUrl pattern) captchaPatterns.

(** The predicate of the [waitForURL] call of [handleBlocked]. *)
Definition challengeFree (url : string) : bool :=
  forallb (fun p => negb (JS.includes url p)) captchaPatterns.

Definition validPatterns : list string := ["/search?q="].

Definition nextPatterns : list string := validPatterns ++ captchaPatterns.

(** The predicate of the [waitForURL] call that follows Enter. *)
Definition reachedNext (url : string) : bool :=
  existsb (fun p => JS.includes url p) nextPatterns.

(** The two shapes of the pair [handleBlocked] returns:
    [[false, response]] and [[true, undefined]]. *)
Inductive Blocked :=
| Restarted (response : SearchResponse)
| Continue.

Section googleSearch.

Variable host : Host.
Variable W : nat -> Engine.
Variable q : string.
Variable options : SearchOptions.
Variable existingBrowser : option Handle.

(** The constants [googleSearch] destructures from [options], with
    their defaults. *)
Definition limit' : Z := match limit options with Some l => l | None => 10%Z end.
Definition timeout' : Q := match timeout options with Some t => t | None => 60000 end.
Definition stateFile' : string :=
  match stateFile options with Some s => s | None => "./browser-state.json" end.
Definition noSaveState' : bool :=
  match noSaveState options with Some b => b | None => false end.

(** [handleBlocked()].  [self] is [performSearch] at [headless =
    false]; [pageUrl] is [page.url()] when the function is called and
    [navs] the navigations that follow. *)
Definition handleBlocked (self : bool -> M SearchResponse) (E : Engine)
    (headless browserWasProvided : bool) (browser context page : Handle)
    (pageUrl : string) (navs : list (Q * string)) : M Blocked :=
  if isBlocked pageUrl then
    if headless then
      logger warn "[GoogleSearch] CAPTCHA detected, restarting in non-headless mode..." ;;
      page_close_ E page ;;
      context_close_ E context ;;
      when (negb browserWasProvided)
        (browser_close_ (browser_close_escalate E) browser) ;;
      response <- self browserWasProvided ;;
      ret (Restarted response)
    else
      logger warn "[GoogleSearch] CAPTCHA detected, please solve it in the browser..." ;;
      emit (WaitForURL page 0) ;;
      awaitNavigation challengeFree 0 navs ;;
      ret Continue
  else ret Continue.

(** The [try] block of [performSearch] (lines 85 to 168), in two
    parts: the search up to the extraction of the results (lines 86
    to 161), which ends with the results or with the response of the
    restarted search, and the end of the block (lines 163 to 168).
    The page is at the URL the wait after Enter matched when
    [handleBlocked] is called the second time. *)
Definition tryBlock_search (self : bool -> M SearchResponse) (E : Engine)
    (headless browserWasProvided : bool) (browser context page : Handle)
    (selectedDomain : string) : M (list SearchResult + SearchResponse) :=
  logger info ("[GoogleSearch] Visiting " ++ selectedDomain) ;;
  emit (Goto page selectedDomain) ;;
  timed timeout' (goto E) ;;
  blocked1 <- handleBlocked self E headless browserWasProvided browser context page
                (url_home E) (home_navs E) ;;
  match blocked1 with
  | Restarted response1 => ret (inr response1)
  | Continue =>
  logger info ("[GoogleSearch] Searching for: " ++ q) ;;
  searchInput <- findSearchInput E searchInputSelectors ;;
  if negb searchInput then throw (JS.new_Error "Could not find search box") else
  submitQuery E page q ;;
  logger info "[GoogleSearch] Waiting for search result" ;;
  emit (WaitForURL page timeout') ;;
  url <- awaitNavigation reachedNext timeout' (results_navs E) ;;
  logger info ("[GoogleSearch] Loaded: " ++ url) ;;
  blocked2 <- handleBlocked self E headless browserWasProvided browser context page
                url (solve_navs E) ;;
  match blocked2 with
  | Restarted response2 => ret (inr response2)
  | Continue =>
  waitForResults E timeout' searchResultSelectors ;;
  results <- structuralStrategies E limit' resultSelectors ;;
  results <-
    (if (List.length results =? 0)%nat then
       elements <- settle (eval E "a[href^='http']") ;;
       ret (extractFallback limit' elements)
     else ret results) ;;
  ret (inl results)
  end
  end.

Definition tryBlock_finish (E : Engine) (browserWasProvided : bool)
    (browser context : Handle) (results : list SearchResult) : M SearchResponse :=
  when (negb noSaveState')
    (saveBrowserState host (storageState E) context stateFile') ;;
  when (negb browserWasProvided && negb (debugOf options))
    (browser_close_ (browser_close E) browser) ;;
  ret (mkResponse q results).

Definition tryBlock (self : bool -> M SearchResponse) (E : Engine)
    (headless browserWasProvided : bool) (browser context page : Handle)
    (selectedDomain : string) : M SearchResponse :=
  r <- tryBlock_search self E headless browserWasProvided browser context page
         selectedDomain ;;
  match r with
  | inl results => tryBlock_finish E browserWasProvided browser context results
  | inr response => ret response
  end.

(** The [catch] block of [performSearch] (lines 169 to 173). *)
Definition catchBlock (E : Engine) (browserWasProvided : bool) (browser : Handle)
    (e : JS.Error) : M SearchResponse :=
  logger error ("[GoogleSearch] Error: " ++ JS.String_of_Error e) ;;
  when (negb browserWasProvided && negb (debugOf options))
    (browser_close_ (browser_close_catch E) browser) ;;
  ret (failure q e).

(** The [try ... catch] statement of [performSearch]. *)
Definition tryStatement (self : bool -> M SearchResponse) (E : Engine)
    (headless browserWasProvided : bool) (browser context page : Handle)
    (selectedDomain : string) : M SearchResponse :=
  try_catch
    (tryBlock self E headless browserWasProvided browser context page selectedDomain)
    (catchBlock E browserWasProvided browser).

Fixpoint performSearch (fuel attempt : nat) (headless forceNewBrowser : bool)
  : M SearchResponse :=
  match fuel with
  | O => out_of_fuel
  | S fuel' =>
      let E := W attempt in
      emit (CallPerformSearch headless forceNewBrowser) ;;
      let browserWasProvided :=
        match existingBrowser with Some _ => true | None => false end
        && negb forceNewBrowser in
      browser <-
        match (if browserWasProvided then existingBrowser else None) with
        | Some b =>
            logger info "[GoogleSearch] Using existing browser instance" ;;
            ret b
        | None =>
            logger info ("[GoogleSearch] Launching browser (headless="
                           ++ JS.String_of_bool headless ++ ")") ;;
            launchBrowser (launch E) headless timeout'
        end ;;
      context <- BrowserTs.setupContext host E browser stateFile' ;;
      page <- setupPage E context ;;
      s <- get_savedState ;;
      let selectedDomain :=
        JS.or_else (googleDomain s)
          (nth (random_domain E mod List.length googleDomains) googleDomains "") in
      set_savedState (mkSavedState (fingerprint s) (Some selectedDomain)) ;;
      when (negb noSaveState')
        (saveBrowserState host (storageState_early E) context stateFile') ;;
      tryStatement (performSearch fuel' (S attempt) false) E headless
        browserWasProvided browser context page selectedDomain
  end.

(** [googleSearch(query, options, existingBrowser)] *)
Definition googleSearch (fuel : nat) : M SearchResponse :=
  let useHeadless := negb (debugOf options) in
  performSearch fuel 0 useHeadless false.

End googleSearch.

(** The options each query of a batch is given: [{ ...options }]. *)
Definition searchOptionsAt (options : SearchOptions) (index : nat) : SearchOptions :=
  mkOptions (limit options) (timeout options) (stateFile options)
            (noSaveState options) (locale options) (debug options).

(** [multiGoogleSearch(queries, options)] of [unnamed/part_002]. *)
Definition multiGoogleSearch (host : Host) (BW : BatchWorld) (fuel : nat)
    (queries : option (list string)) (options : SearchOptions)
  : M (list SearchResponse) :=
  if noQueries queries then throw noQueryError else
  logger info ("[MultiSearch] Starting "
                 ++ JS.String_of_nat (List.length (queriesOf queries)) ++ " searches...") ;;
  browser <- launchBrowser (batch_launch BW) (negb (debugOf options)) (timeoutOr options) ;;
  try_finally
    (Promise_all
       (mapi
          (fun query index =>
             googleSearch host (query_world BW index) query
               (searchOptionsAt options index) (Some browser) fuel)
          (queriesOf queries)))
    (when (negb (debugOf options)) (browser_close_ (batch_close BW) browser)).

End Part002.

(** ** Predicates on runs *)

(** The new part of a trace. *)
Definition extends (st st' : State) (evs : list Event) : Prop :=
  trace st' = trace st ++ evs.

(** The ways a run may be required to end: [Settled], it returns or
    throws; [NotCut], it may also stay pending, and only the recursion
    bound of the model is excluded. *)
Inductive ending := Settled | NotCut.

Definition allowed (k : ending) {A : Type} (o : outcome A) : Prop :=
  match o, k with
  | Returns _, _ | Throws _, _ => True
  | Pending, NotCut => True
  | Pending, Settled => False
  | OutOfFuel, _ => False
  end.

(** [m] ends in the way [k] says, whatever the state. *)
Definition ends (k : ending) {A : Type} (m : M A) : Prop :=
  forall st, allowed k (fst (m st)).

(** A call with a timeout settles when the timeout is not disabled; it
    is never cut. *)
Definition bounded_wait (k : ending) (T : Q) : Prop :=
  match k with
  | Settled => Qeq_bool T 0 = false
  | NotCut => True
  end.

(** What [m] returns, when it returns, satisfies [P]. *)
Definition ensures {A : Type} (m : M A) (P : A -> Prop) : Prop :=
  forall st a st', m st = (Returns a, st') -> P a.

(** Every event [m] adds to the trace satisfies [P], however [m] ends. *)
Definition emits {A : Type} (P : Event -> bool) (m : M A) : Prop :=
  forall st, exists evs, extends st (snd (m st)) evs /\ forallb P evs = true.

(** [m] returns in every state, with a value that satisfies [P]. *)
Definition returns {A : Type} (m : M A) (P : A -> Prop) : Prop :=
  forall st, exists a st', m st = (Returns a, st') /\ P a.

(** [existsSync] as a function of the file system. *)
Definition present (f : FileSystem) (path : string) : bool :=
  match file f path with
  | Some _ => true
  | None => dir f path
  end.

Definition is_call (ev : Event) : bool :=
  match ev with
  | CallPerformSearch _ _ => true
  | _ => false
  end.

(** The calls of [performSearch] recorded in a trace, in order. *)
Definition calls (evs : list Event) : list Event := filter is_call evs.

Definition is_failure (r : SearchResponse) : Prop :=
  exists e, r = failure (query r) e.

(** The file a file system event reads or writes. *)
Definition file_of (ev : Event) : option string :=
  match ev with
  | StorageState _ path => Some path
  | ReadFileSync path => Some path
  | WriteFileSync path => Some path
  | _ => None
  end.


Definition is_digit (c : ascii) : bool :=
  match c with
  | "0" | "1" | "2" | "3" | "4" | "5" | "6" | "7" | "8" | "9" => true
  | _ => false
  end%char.

Fixpoint all_digits (s : string) : bool :=
  match s with
  | EmptyString => true
  | String c s' => is_digit c && all_digits s'
  end.

Fixpoint mem (c : ascii) (s : string) : bool :=
  match s with
  | EmptyString => false
  | String c' s' => Ascii.eqb c c' || mem c s'
  end.

(** The sidecar as [loadSavedState] reads it: its text parsed, when the
    file can be read and holds JSON. *)
Definition sidecar (host : Host) (f : FileSystem) (stateFile : string)
  : option SavedState :=
  bind_opt (file f (fingerprintFileOf stateFile)) (JSON_parse host).

(** The condition under which [loadSavedState] opens the sidecar. *)
Definition loads_sidecar (f : FileSystem) (stateFile : string) : bool :=
  present f stateFile && JS.truthy stateFile && present f (fingerprintFileOf stateFile).

Definition warned : Event := Log warn "[Browser] Cannot load fingerprint file".

Definition is_warning (ev : Event) : bool :=
  match ev with
  | Log warn _ => true
  | _ => false
  end.

Definition isSome {A : Type} (x : option A) : bool :=
  match x with
  | Some _ => true
  | None => false
  end.

(** ** Conditions on the engine's answers

    Conditions under which a step of the search goes through, as
    functions of the engine's answers, so that they can be evaluated on a
    concrete engine. *)

Definition is_fulfilled {A : Type} (r : settled A) : bool :=
  match r with
  | Fulfilled _ => true
  | Rejected _ => false
  end.

(** The call settles in time, with [Some] value or with an exception. *)
Definition in_time {A : Type} (T : Q) (c : completion A) : option A :=
  match c with
  | After ms (Fulfilled a) => if Qeq_bool T 0 || Qle_bool ms T then Some a else None
  | _ => None
  end.

(** The session of an attempt opens: the browser is there or is
    launched in time, and the context and the page are set up. *)
Definition session_opens (T : Q) (wasProvided : bool) (E : Engine) : bool :=
  (wasProvided || isSome (in_time (T * 2) (launch E))) &&
  is_fulfilled (newContext E) && is_fulfilled (context_addInitScript E) &&
  is_fulfilled (newPage E) && is_fulfilled (page_addInitScript E).

(** The session of an attempt is released before a restart: page,
    context and, unless it was provided, browser. *)
Definition releases (wasProvided : bool) (E : Engine) : bool :=
  is_fulfilled (page_close E) && is_fulfilled (context_close E) &&
  (wasProvided || is_fulfilled (browser_close_escalate E)).

(** The loop over the search box selectors finds an element. *)
Fixpoint finds_input (E : Engine) (selectors : list string) : bool :=
  match selectors with
  | [] => false
  | selector :: rest =>
      match dollar E selector with
      | Fulfilled true => true
      | Fulfilled false => finds_input E rest
      | Rejected _ => false
      end
  end.

(** The query is typed and submitted. *)
Definition submits (E : Engine) : bool :=
  is_fulfilled (click E) && is_fulfilled (keyboard_type E) &&
  is_fulfilled (waitForTimeout E) && is_fulfilled (keyboard_press E).

(** ** Sample worlds

    Concrete hosts, file systems, pages and engines, on which the
    program is run in the examples below. *)

Module Sample.

Definition fulfilled : settled unit := Fulfilled tt.

(** A host whose JSON parser accepts the text [{}] only. *)
Definition host : Host :=
  mkHost (fun text => if String.eqb text "{}" then Some emptySavedState else None)
         (fun _ => "{}")
         (fun _ => ".")
         None 0%Z 12%Z "UTC".

(** An empty, writable file system with the current directory. *)
Definition emptyFS : FileSystem :=
  mkFS (fun _ => None) (fun p => String.eqb p ".") (fun _ => true).

(** The same with a storage snapshot and no sidecar. *)
Definition snapshotOnlyFS : FileSystem :=
  write emptyFS "./browser-state.json" "{}".

Definition start (f : FileSystem) : State := mkState f emptySavedState [] 0%nat.

Definition leaf (text link : option string) : Element :=
  mkElement text link (fun _ => None) (fun _ => None) None.

(** A result container: a title, a link and a snippet. *)
Definition hit (t l s : string) : Element :=
  mkElement None None (fun _ => None)
    (fun selector =>
       if String.eqb selector "h3" then Some (leaf (Some t) None)
       else if String.eqb selector "a" then Some (leaf None (Some l))
       else if String.eqb selector ".VwiC3b" then Some (leaf (Some s) None)
       else None)
    None.

Definition threeHits : list Element :=
  [hit "First" "https://a.example/" "one";
   hit "Second" "https://b.example/" "two";
   hit "Third" "https://c.example/" "three"].

Definition home : string := "https://www.google.com/".
Definition resultsPage : string := "https://www.google.com/search?q=rocq".
Definition sorryPage : string := "https://www.google.com/sorry/index?continue=x".

(** An engine on which everything succeeds at once and no challenge
    shows: every container selector matches [threeHits]. *)
Definition smooth : Engine :=
  mkEngine (After 100 fulfilled) fulfilled fulfilled fulfilled fulfilled
    0%nat 0%nat 0%nat
    (After 100 (Fulfilled (Some home))) home
    fulfilled fulfilled fulfilled
    []
    (fun _ => Fulfilled true) fulfilled fulfilled fulfilled fulfilled
    (After 100 fulfilled) resultsPage [(100%Q, resultsPage)]
    []
    (After 100 fulfilled)
    (fun _ => After 100 fulfilled)
    (fun _ => Fulfilled threeHits)
    (Fulfilled "{}") (Fulfilled "{}")
    fulfilled fulfilled.

Definition smoothBatch : BatchWorld :=
  mkBatch (After 100 fulfilled) fulfilled (fun _ _ => smooth).

(** Engines that differ from [smooth] in one answer. *)
Definition with_dollar v (E : Engine) : Engine :=
  mkEngine (launch E) (newContext E) (context_addInitScript E) (newPage E)
    (page_addInitScript E) (random_domain E) (random_type E) (random_pause E) (goto E)
    (url_home E) (page_close E) (context_close E) (browser_close_escalate E)
    (home_navs E) v (click E) (keyboard_type E) (waitForTimeout E) (keyboard_press E)
    (loadState_results E) (url_results E) (results_navs E) (solve_navs E)
    (loadState_solved E) (waitForSelector E) (eval E) (storageState_early E)
    (storageState E) (browser_close E) (browser_close_catch E).


Definition with_storageState v (E : Engine) : Engine :=
  mkEngine (launch E) (newContext E) (context_addInitScript E) (newPage E)
    (page_addInitScript E) (random_domain E) (random_type E) (random_pause E) (goto E)
    (url_home E) (page_close E) (context_close E) (browser_close_escalate E)
    (home_navs E) (dollar E) (click E) (keyboard_type E) (waitForTimeout E)
    (keyboard_press E) (loadState_results E) (url_results E) (results_navs E)
    (solve_navs E) (loadState_solved E) (waitForSelector E) (eval E)
    (storageState_early E) v (browser_close E) (browser_close_catch E).

Definition with_url_home v (E : Engine) : Engine :=
  mkEngine (launch E) (newContext E) (context_addInitScript E) (newPage E)
    (page_addInitScript E) (random_domain E) (random_type E) (random_pause E) (goto E)
    v (page_close E) (context_close E) (browser_close_escalate E) (home_navs E)
    (dollar E) (click E) (keyboard_type E) (waitForTimeout E) (keyboard_press E)
    (loadState_results E) (url_results E) (results_navs E) (solve_navs E)
    (loadState_solved E) (waitForSelector E) (eval E) (storageState_early E)
    (storageState E) (browser_close E) (browser_close_catch E).



(** No selector of the search box matches. *)
Definition noSearchBox : Engine := with_dollar (fun _ => Fulfilled false) smooth.

Definition limitOf (n : Z) : SearchOptions :=
  mkOptions (Some n) None None None None None.

Definition visible : SearchOptions :=
  mkOptions None None None None None (Some true).

(** The home page is a challenge. *)
Definition challengedAtHome : Engine := with_url_home sorryPage smooth.

(** A world in which the first call of [performSearch] meets a
    challenge at the home page and the second does not. *)
Definition challengedOnce (attempt : nat) : Engine :=
  match attempt with
  | O => challengedAtHome
  | S _ => smooth
  end.



(** The snapshot cannot be written. *)
Definition diskFull : JS.Error := JS.new_Error "ENOSPC: no space left on device".

Definition snapshotFails : Engine := with_storageState (Rejected diskFull) smooth.

(** A file system on which the sidecar of the default state file cannot
    be written. *)
Definition sidecarReadOnlyFS : FileSystem :=
  mkFS (fun _ => None) (fun p => String.eqb p ".")
       (fun p => negb (String.eqb p "./browser-state-fingerprint.json")).




(** A batch in which the first query finds no search box. *)
Definition firstFails : BatchWorld :=
  mkBatch (After 100 fulfilled) fulfilled
          (fun index _ => match index with O => noSearchBox | S _ => smooth end).

End Sample.

(** What the extraction promises of a list of results: every result has
    a title and a link, and the list is no longer than a limit that is
    not negative. *)
Definition well_formed (r : SearchResult) : Prop := title r <> "" /\ link r <> "".

Definition bounded (maxResults : Z) (results : list SearchResult) : Prop :=
  (Z.of_nat (List.length results) <= maxResults)%Z.

Definition extracted (maxResults : Z) (results : list SearchResult) : Prop :=
  Forall well_formed results /\ ((0 <= maxResults)%Z -> bounded maxResults results).

(** What a response is like, whichever way the search ended: it is the
    synthetic failure response, or its results were extracted from the
    page. *)
Definition response_of (q : string) (maxResults : Z) (r : SearchResponse) : Prop :=
  query r = q /\
  ((exists e, r = failure q e) \/ extracted maxResults (results r)).

(** Events other than the entry of [performSearch]. *)
Definition silent (ev : Event) : bool := negb (is_call ev).

(** The calls of [performSearch] that [m] records are one of the lists
    of [L], however [m] ends. *)
Definition calls_in (L : list (list Event)) {A : Type} (m : M A) : Prop :=
  forall st, exists evs, extends st (snd (m st)) evs /\ In (calls evs) L.

(** The calls of [performSearch] one query may make: in headless mode
    the first call and at most one restart in visible mode, in visible
    mode the first call alone. *)
Definition escalations (headless wasProvided : bool) : list (list Event) :=
  if headless then
    [[CallPerformSearch true false];
     [CallPerformSearch true false; CallPerformSearch false wasProvided]]
  else [[CallPerformSearch false false]].


(** A headless attempt of [src/services/googleSearch.ts] detects a
    challenge: the home page loads in time and is a challenge, or it is
    not, the query is submitted, the results load in time and the page is
    a challenge then. *)
Definition GoogleSearch_detects (T : Q) (E : Engine) : bool :=
  match in_time T (goto E) with
  | Some response =>
      GoogleSearch.isBlocked (url_home E) response ||
      (finds_input E searchInputSelectors && submits E &&
       isSome (in_time T (loadState_results E)) &&
       GoogleSearch.isBlocked (url_results E) response)
  | None => false
  end.

(** The same for [unnamed/part_002], where the page after Enter is the
    first navigation to a results page or to a challenge. *)
Definition Part002_detects (T : Q) (E : Engine) : bool :=
  isSome (in_time T (goto E)) &&
  (Part002.isBlocked (url_home E) ||
   (finds_input E searchInputSelectors && submits E &&
    match find (fun n => Part002.reachedNext (snd n)) (results_navs E) with
    | Some (ms, url) => (Qeq_bool T 0 || Qle_bool ms T) && Part002.isBlocked url
    | None => false
    end)).

(** [m] goes on as [target]: from every state, [m] does what [target]
    does from some state. *)
Definition hands_over {A : Type} (m target : M A) : Prop :=
  forall st, exists st1, m st = target st1.

(** [m] throws [e] in every state. *)
Definition throws {A : Type} (m : M A) (e : JS.Error) : Prop :=
  forall st, exists st', m st = (Throws e, st').

(** [m] stays pending in every state. *)
Definition hangs {A : Type} (m : M A) : Prop :=
  forall st, exists st', m st = (Pending, st').

(** No navigation that satisfies [pred] happens within [T] milliseconds
    of the call. *)
Definition unsolved_within (pred : string -> bool) (T : Q) (navs : list (Q * string))
  : bool :=
  match find (fun n => pred (snd n)) navs with
  | Some (ms, _) => negb (Qle_bool ms T)
  | None => true
  end.



(** Events other than [browser.close()] on [browser]. *)
Definition leaves_open (browser : Handle) (ev : Event) : bool :=
  match ev with
  | CloseBrowser b => negb (Nat.eqb b browser)
  | _ => true
  end.

(** Events other than a call of [fs.writeFileSync]. *)
Definition not_writeFile (ev : Event) : bool :=
  match ev with
  | WriteFileSync _ => false
  | _ => true
  end.


(** The errors of an attempt stay inside it: its session opens, on a
    browser of its own if need be, and the [browser.close()] of the
    [catch] block succeeds. *)
Definition attempt_contained (T : Q) (E : Engine) : bool :=
  session_opens T false E && is_fulfilled (browser_close_catch E).


(** ** Further predicates on events *)

(** Events other than a call that writes to the file system:
    [context.storageState({ path })], [fs.mkdirSync] and
    [fs.writeFileSync]. *)
Definition writes_nothing (ev : Event) : bool :=
  match ev with
  | StorageState _ _ | MkdirSync _ | WriteFileSync _ => false
  | _ => true
  end.

(** Events other than [page.close()] and [context.close()]. *)
Definition keeps_session (ev : Event) : bool :=
  match ev with
  | ClosePage _ | CloseContext _ => false
  | _ => true
  end.

(** [m] throws in every state, an error that satisfies [P]. *)
Definition fails_with {A : Type} (m : M A) (P : JS.Error -> Prop) : Prop :=
  forall st, exists e st', m st = (Throws e, st') /\ P e.

(** ** The context options

    [resolveContextOptions] returns the options [setupContext] hands to
    [browser.newContext].  They are objects built by spreading device
    descriptors of the engine, fingerprints and a literal; here an
    object is the map from its property names to their values, and the
    table [devices] of the engine maps a device name to its descriptor,
    or to nothing for a name it does not know. *)

Inductive Value :=
| VString (s : string)
| VBool (b : bool)
| VStrings (l : list string)
| VEngine (n : nat).          (* a value of the engine's own: a viewport, a user agent *)

Definition Object : Type := string -> option Value.

Definition emptyObject : Object := fun _ => None.

(** [{ ...a, ...b }] *)
Definition spread (a b : Object) : Object :=
  fun key =>
    match b key with
    | Some v => Some v
    | None => a key
    end.

(** [{ ...x }] where [x] may be undefined. *)
Definition spread_opt (x : option Object) : Object :=
  match x with
  | Some o => o
  | None => emptyObject
  end.

Definition colorSchemeText (c : ColorScheme) : string :=
  match c with dark => "dark" | light => "light" end.

Definition reducedMotionText (r : ReducedMotion) : string :=
  match r with reduce => "reduce" | no_preference => "no-preference" end.

Definition forcedColorsText (f : ForcedColors) : string :=
  match f with active => "active" | none => "none" end.

(** A [FingerprintConfig] as the object it is. *)
Definition fingerprintObject (f : FingerprintConfig) : Object :=
  fun key =>
    if String.eqb key "deviceName" then Some (VString (deviceName f))
    else if String.eqb key "locale" then Some (VString (fp_locale f))
    else if String.eqb key "timezoneId" then Some (VString (timezoneId f))
    else if String.eqb key "colorScheme" then Some (VString (colorSchemeText (colorScheme f)))
    else if String.eqb key "reducedMotion"
         then Some (VString (reducedMotionText (reducedMotion f)))
    else if String.eqb key "forcedColors"
         then Some (VString (forcedColorsText (forcedColors f)))
    else None.

(** The literal both [resolveContextOptions] functions end with:
    [permissions: ["geolocation", "notifications"], acceptDownloads: true,
    isMobile: false, hasTouch: false, javaScriptEnabled: true]. *)
Definition fixedOptions : Object :=
  fun key =>
    if String.eqb key "permissions" then Some (VStrings ["geolocation"; "notifications"])
    else if String.eqb key "acceptDownloads" then Some (VBool true)
    else if String.eqb key "isMobile" then Some (VBool false)
    else if String.eqb key "hasTouch" then Some (VBool false)
    else if String.eqb key "javaScriptEnabled" then Some (VBool true)
    else None.

(** The properties [resolveContextOptions] of [src/utils/browser.ts]
    reads back from the options it has built. *)
Definition stringOf (v : option Value) : string :=
  match v with
  | Some (VString s) => s
  | _ => ""
  end.

Definition colorSchemeOf (v : option Value) : ColorScheme :=
  if String.eqb (stringOf v) "dark" then dark else light.

Definition reducedMotionOf (v : option Value) : ReducedMotion :=
  if String.eqb (stringOf v) "reduce" then reduce else no_preference.

Definition forcedColorsOf (v : option Value) : ForcedColors :=
  if String.eqb (stringOf v) "active" then active else none.

(** [resolveContextOptions(savedState, locale, deviceName)] of
    [unnamed/part_003], with the options it returns; the parameter
    [deviceName] is primed, the plain name being that of the field. *)
Module Part003Options.

Definition resolveContextOptions (devices : string -> option Object) (host : Host)
    (locale deviceName' : string) : M Object :=
  s <- get_savedState ;;
  let contextOptions := spread_opt (devices deviceName') in
  match fingerprint s with
  | Some fp =>
      let contextOptions := spread contextOptions (fingerprintObject fp) in
      ret (spread contextOptions fixedOptions)
  | None =>
      let hostConfig := Part003.getHostMachineConfig host (Some locale) in
      let contextOptions :=
        if negb (String.eqb (deviceName hostConfig) deviceName')
        then spread_opt (devices (deviceName hostConfig))
        else contextOptions in
      let contextOptions := spread contextOptions (fingerprintObject hostConfig) in
      set_savedState (mkSavedState (Some hostConfig) (googleDomain s)) ;;
      ret (spread contextOptions fixedOptions)
  end.

End Part003Options.

(** [resolveContextOptions(savedState)] of [src/utils/browser.ts], with
    the options it returns. *)
Module BrowserTsOptions.

Definition resolveContextOptions (devices : string -> option Object) (host : Host)
  : M Object :=
  s <- get_savedState ;;
  let machineConfig := BrowserTs.getHostMachineConfig host None in
  let selectedDevice :=
    JS.or_else (option_map deviceName (fingerprint s)) (deviceName machineConfig) in
  let contextOptions :=
    spread
      (spread
         (spread (spread_opt (devices selectedDevice)) (fingerprintObject machineConfig))
         (spread_opt (option_map fingerprintObject (fingerprint s))))
      fixedOptions in
  match fingerprint s with
  | Some _ => ret contextOptions
  | None =>
      set_savedState
        (mkSavedState
           (Some (mkFingerprint selectedDevice
                    (stringOf (contextOptions "locale"))
                    (stringOf (contextOptions "timezoneId"))
                    (colorSchemeOf (contextOptions "colorScheme"))
                    (reducedMotionOf (contextOptions "reducedMotion"))
                    (forcedColorsOf (contextOptions "forcedColors"))))
           (googleDomain s)) ;;
      ret contextOptions
  end.

End BrowserTsOptions.

(** [deviceList] and [getDeviceName()] of [googleSearch]
    ([src/services/googleSearch.ts]); [draw] is
    [Math.floor(Math.random() * deviceList.length)]. *)
Definition deviceList : list string :=
  ["Desktop Chrome"; "Desktop Edge"; "Desktop Firefox"; "Desktop Safari"].

Definition getDeviceName (devices : string -> option Object) (s : SavedState) (draw : nat)
  : string :=
  match fingerprint s with
  | Some fp =>
      if JS.truthy (deviceName fp) && isSome (devices (deviceName fp))
      then deviceName fp
      else nth (draw mod List.length deviceList) deviceList ""
  | None => nth (draw mod List.length deviceList) deviceList ""
  end.

(** The context options of an attempt: lines 69 and 70 of
    [performSearch] in [src/services/googleSearch.ts]. *)
Definition contextOptionsOf (devices : string -> option Object) (host : Host)
    (locale : string) (draw : nat) : M Object :=
  s <- get_savedState ;;
  let deviceName' := getDeviceName devices s draw in
  Part003Options.resolveContextOptions devices host locale deviceName'.

(** ** Further sample worlds *)

Module MoreSamples.

(** The snapshot cannot be written when the state is saved before the
    search. *)
Definition earlySnapshotFails : Engine :=
  let E := Sample.smooth in
  mkEngine (launch E) (newContext E) (context_addInitScript E) (newPage E)
    (page_addInitScript E) (random_domain E) (random_type E) (random_pause E) (goto E)
    (url_home E) (page_close E) (context_close E) (browser_close_escalate E)
    (home_navs E) (dollar E) (click E) (keyboard_type E) (waitForTimeout E)
    (keyboard_press E) (loadState_results E) (url_results E) (results_navs E)
    (solve_navs E) (loadState_solved E) (waitForSelector E) (eval E)
    (Rejected Sample.diskFull) (storageState E) (browser_close E) (browser_close_catch E).

(** A visible session whose first navigation is answered by a
    challenge, which is solved after five seconds; the results page then
    loads and no other navigation follows. *)
Definition solvedAtHome : Engine :=
  let E := Sample.smooth in
  mkEngine (launch E) (newContext E) (context_addInitScript E) (newPage E)
    (page_addInitScript E) (random_domain E) (random_type E) (random_pause E)
    (After 100 (Fulfilled (Some Sample.sorryPage)))
    Sample.sorryPage (page_close E) (context_close E) (browser_close_escalate E)
    [(5000%Q, Sample.home)] (dollar E) (click E) (keyboard_type E) (waitForTimeout E)
    (keyboard_press E) (loadState_results E) Sample.resultsPage (results_navs E)
    [] (loadState_solved E) (waitForSelector E) (eval E)
    (storageState_early E) (storageState E) (browser_close E) (browser_close_catch E).

(** A table of devices that knows two of them, each by the user agent
    of its descriptor. *)
Definition devices (name : string) : option Object :=
  if String.eqb name "Desktop Chrome"
  then Some (fun key => if String.eqb key "userAgent" then Some (VEngine 1) else None)
  else if String.eqb name "Desktop Safari"
  then Some (fun key => if String.eqb key "userAgent" then Some (VEngine 2) else None)
  else None.

(** The browser never comes up. *)
Definition neverLaunches : Engine :=
  let E := Sample.smooth in
  mkEngine Never (newContext E) (context_addInitScript E) (newPage E)
    (page_addInitScript E) (random_domain E) (random_type E) (random_pause E) (goto E)
    (url_home E) (page_close E) (context_close E) (browser_close_escalate E)
    (home_navs E) (dollar E) (click E) (keyboard_type E) (waitForTimeout E)
    (keyboard_press E) (loadState_results E) (url_results E) (results_navs E)
    (solve_navs E) (loadState_solved E) (waitForSelector E) (eval E)
    (storageState_early E) (storageState E) (browser_close E) (browser_close_catch E).

Definition neverLaunchesBatch : BatchWorld :=
  mkBatch Never Sample.fulfilled (fun _ _ => neverLaunches).

Definition noTimeout : SearchOptions :=
  mkOptions None (Some 0%Q) None None None None.

(** The browser of a batch cannot be launched. *)
Definition noChromium : JS.Error :=
  JS.new_Error "browserType.launch: Executable does not exist".

Definition noBrowser : BatchWorld :=
  mkBatch (After 100 (Rejected noChromium)) Sample.fulfilled (fun _ _ => Sample.smooth).

End MoreSamples.

(** Options in three layers: the descriptor of a device, a fingerprint
    over it, the fixed literal over both. *)
Definition layered (devices : string -> option Object) (device : string)
    (fp : FingerprintConfig) : Object :=
  spread (spread (spread_opt (devices device)) (fingerprintObject fp)) fixedOptions.

(** ** The command line ([unnamed/part_000])

    The script reads [process.argv], runs one batch for the arguments
    that are not flags and prints the responses.  What it writes to the
    console and the code it hands to [process.exit] are the result of
    the run. *)

Module Cli.

Inductive Console :=
| ConsoleLog (text : string)                       (* console.log(text) *)
| ConsoleError (text : string) (e : JS.Error).     (* console.error(text, e) *)

(** What a run of [main] leaves: the calls of the console, in order, and
    the code of [process.exit] when it was called. *)
Record Run := mkRun {
  console : list Console;
  exitCode : option nat
}.

Definition newline : string := String (ascii_of_nat 10) "".

Definition usage : string :=
  "Usage: g-search-cli <query1> [query2] ... [--debug] [--log]".

(** [arr.join(sep)] *)
Fixpoint join (sep : string) (arr : list string) : string :=
  match arr with
  | [] => ""
  | [x] => x
  | x :: rest => x ++ sep ++ join sep rest
  end.

(** [arr.includes(x)] on an array of strings. *)
Definition array_includes (arr : list string) (x : string) : bool :=
  existsb (String.eqb x) arr.

Section main.

(** [multiGoogleSearch], as imported from the search service. *)
Variable multiGoogleSearch : option (list string) -> SearchOptions -> M (list SearchResponse).

Variable argv : list string.          (* process.argv *)

Definition isDebugMode : bool := array_includes argv "--debug".
Definition isLogMode : bool := array_includes argv "--log".

(** [process.argv.slice(2).filter(arg => !arg.startsWith("--"))] *)
Definition args : list string :=
  filter (fun arg => negb (JS.startsWith arg "--")) (skipn 2 argv).

(** The three lines of one result. *)
Definition print_result (result : SearchResult) (i : nat) : list Console :=
  [ConsoleLog (JS.String_of_nat (i + 1) ++ ". " ++ title result);
   ConsoleLog ("   " ++ link result);
   ConsoleLog ("   " ++ snippet result ++ newline)].

(** The body of [results.forEach]. *)
Definition print_response (searchResponse : SearchResponse) : list Console :=
  (if (1 <? List.length args)%nat
   then [ConsoleLog (newline ++ "=== Results for: " ++ query searchResponse ++ " ===")]
   else []) ++
  (if (List.length (results searchResponse) =? 0)%nat
   then [ConsoleLog "No results found."]
   else List.concat (mapi print_result (results searchResponse))).

(** [main()] *)
Definition main : M Run :=
  if (List.length args =? 0)%nat then ret (mkRun [ConsoleLog usage] (Some 1%nat))
  else
    when isLogMode
      (logger info ("[CLI] Starting search for: " ++ join ", " args)) ;;
    try_catch
      (results <-
         multiGoogleSearch (Some args)
           (mkOptions None None None None None (Some isDebugMode)) ;;
       ret (mkRun (List.concat (map print_response results)) None))
      (fun error => ret (mkRun [ConsoleError "Error during search:" error] (Some 1%nat))).

End main.

End Cli.

(** Events other than the launch of a headless browser. *)
Definition launches_visible (ev : Event) : bool :=
  match ev with
  | Launch headless _ _ => negb headless
  | _ => true
  end.

(** The pace of the typing: a key every 10 to 30 milliseconds, and a
    pause of 100 to 300 milliseconds before Enter. *)
Definition paced (ev : Event) : bool :=
  match ev with
  | TypeText _ _ delay => (10 <=? delay)%nat && (delay <=? 30)%nat
  | WaitForTimeout _ ms => (100 <=? ms)%nat && (ms <=? 300)%nat
  | _ => true
  end.

(** From a state whose handles to come lie above [b], [m] does not call
    [browser.close()] on [b], however it ends; the handles to come
    still lie above [b] when it has ended, and what it returns satisfies
    [Q]. *)
Definition spares (b : Handle) {A : Type} (m : M A) (Q : A -> Prop) : Prop :=
  forall st,
    b < next st ->
    exists evs,
      extends st (snd (m st)) evs /\
      forallb (leaves_open b) evs = true /\
      b < next (snd (m st)) /\
      forall a, fst (m st) = Returns a -> Q a.



(** The domain an attempt selects:
    [savedState.googleDomain || googleDomains[Math.floor(Math.random() * googleDomains.length)]]
    in [src/services/googleSearch.ts]. *)
Definition selectedDomain (s : SavedState) (E : Engine) : string :=
  JS.or_else (googleDomain s)
    (nth (random_domain E mod List.length GoogleSearch.googleDomains)
         GoogleSearch.googleDomains "").


(** ** The command line of the server ([src/index.ts])

    The constants the script computes from [process.argv] before it
    starts the server. *)

(** A JavaScript number as [parseInt] returns it: not a number, an
    integer, or a number beyond 2^53, where doubles are no longer the
    integers themselves and the value is not modelled. *)
Inductive Number :=
| NaN
| Num (z : Z)
| Beyond.

(** The white space [parseInt] skips, among the characters of one
    byte: tab, line feed, vertical tab, form feed, carriage return and
    space. *)
Definition is_space (c : ascii) : bool :=
  match nat_of_ascii c with
  | 9 | 10 | 11 | 12 | 13 | 32 => true
  | _ => false
  end.

Fixpoint trim_start (s : string) : string :=
  match s with
  | String c s' => if is_space c then trim_start s' else s
  | EmptyString => EmptyString
  end.

(** The longest prefix of decimal digits. *)
Fixpoint take_digits (s : string) : string :=
  match s with
  | String c s' => if is_digit c then String c (take_digits s') else EmptyString
  | EmptyString => EmptyString
  end.

Definition exactly (z : Z) : Number :=
  if (Z.abs z <=? 2 ^ 53)%Z then Num z else Beyond.

(** [parseInt(s, 10)]: white space, a sign, then the longest prefix of
    digits; not a number when there is no digit. *)
Definition parseInt10 (s : string) : Number :=
  let s := trim_start s in
  let negative := String.prefix "-" s in
  let s := if String.prefix "-" s || String.prefix "+" s then JS.drop 1 s else s in
  match NilEmpty.uint_of_string (take_digits s) with
  | Some u =>
      match take_digits s with
      | EmptyString => NaN
      | String _ _ =>
          exactly (if negative then - Z.of_N (N.of_uint u) else Z.of_N (N.of_uint u))
      end
  | None => NaN
  end.

(** [s.split(sep)] for a separator of one character. *)
Fixpoint split_on (sep : ascii) (s : string) : list string :=
  match s with
  | EmptyString => [EmptyString]
  | String c s' =>
      if Ascii.eqb c sep then EmptyString :: split_on sep s'
      else match split_on sep s' with
           | head :: tail => String c head :: tail
           | [] => [String c EmptyString]
           end
  end.

Module Index.

Section argv.

Variable argv : list string.          (* process.argv *)

Definition isDebugMode : bool := Cli.array_includes argv "--debug".
Definition isHttpMode : bool := Cli.array_includes argv "--http".

Definition portArg : option string :=
  find (fun arg => JS.startsWith arg "--port=") argv.

(** [portArg ? parseInt(portArg.split("=")[1], 10) : 3333]; an element
    that is missing is undefined, which [parseInt] reads as the text
    undefined. *)
Definition port : Number :=
  match portArg with
  | Some arg =>
      if JS.truthy arg then
        match nth_error (split_on "=" arg) 1 with
        | Some text => parseInt10 text
        | None => parseInt10 "undefined"
        end
      else Num 3333
  | None => Num 3333
  end.

Definition hostArg : option string :=
  find (fun arg => JS.startsWith arg "--host=") argv.

(** [hostArg ? hostArg.split("=")[1] : "localhost"]; nothing stands for
    undefined. *)
Definition host : option string :=
  match hostArg with
  | Some arg =>
      if JS.truthy arg then nth_error (split_on "=" arg) 1 else Some "localhost"
  | None => Some "localhost"
  end.

End argv.

End Index.

(** * Proofs *)

(** ** Runs of the monad *)

Lemma bind_run {A B : Type} (m : M A) (k : A -> M B) (st : State) :
  bind m k st =
  match m st with
  | (Returns a, st') => k a st'
  | (Throws e, st') => (Throws e, st')
  | (Pending, st') => (Pending, st')
  | (OutOfFuel, st') => (OutOfFuel, st')
  end.
Proof. reflexivity. Qed.

Lemma bind_Returns {A B : Type} (m : M A) (k : A -> M B) st b st' :
  bind m k st = (Returns b, st') ->
  exists a st1, m st = (Returns a, st1) /\ k a st1 = (Returns b, st').
Proof.
  unfold bind. destruct (m st) as [[a | e | | ] st1]; intro H; try discriminate.
  exists a, st1. split; [reflexivity | exact H].
Qed.

Lemma bind_of_Returns {A B : Type} (m : M A) (k : A -> M B) st a st1 :
  m st = (Returns a, st1) -> bind m k st = k a st1.
Proof. intro H. unfold bind. rewrite H. reflexivity. Qed.

Lemma bind_of_Throws {A B : Type} (m : M A) (k : A -> M B) st e st1 :
  m st = (Throws e, st1) -> bind m k st = (Throws e, st1).
Proof. intro H. unfold bind. rewrite H. reflexivity. Qed.

Lemma extends_same st st' : trace st' = trace st -> extends st st' [].
Proof. unfold extends. intro H. now rewrite app_nil_r. Qed.

Lemma extends_trans st1 st2 st3 evs1 evs2 :
  extends st1 st2 evs1 -> extends st2 st3 evs2 -> extends st1 st3 (evs1 ++ evs2).
Proof. unfold extends. intros H1 H2. rewrite H2, H1. now rewrite app_assoc. Qed.

(** *** [ends] *)

Lemma ends_ret k {A : Type} (a : A) : ends k (ret a).
Proof. intro st. exact I. Qed.

Lemma ends_throw k {A : Type} e : ends k (@throw A e).
Proof. intro st. exact I. Qed.

Lemma ends_bind k {A B : Type} (m : M A) (f : A -> M B) :
  ends k m -> (forall a, ends k (f a)) -> ends k (bind m f).
Proof.
  intros Hm Hf st. specialize (Hm st). rewrite bind_run.
  destruct (m st) as [[a | e | | ] st1]; simpl in *; auto.
  apply Hf.
Qed.

Lemma ends_bind_with k {A B : Type} (m : M A) (f : A -> M B) (Q : A -> Prop) :
  ends k m -> ensures m Q -> (forall a, Q a -> ends k (f a)) -> ends k (bind m f).
Proof.
  intros Hm HQ Hf st. specialize (Hm st). rewrite bind_run.
  destruct (m st) as [[a | e | | ] st1] eqn:Hrun; simpl in *; auto.
  apply Hf. exact (HQ st a st1 Hrun).
Qed.

Lemma ends_emit k ev : ends k (emit ev).
Proof. intro st. exact I. Qed.

Lemma ends_fresh k : ends k fresh.
Proof. intro st. exact I. Qed.

Lemma ends_get_savedState k : ends k get_savedState.
Proof. intro st. exact I. Qed.

Lemma ends_set_savedState k s : ends k (set_savedState s).
Proof. intro st. exact I. Qed.

Lemma ends_get_fs k : ends k get_fs.
Proof. intro st. exact I. Qed.

Lemma ends_set_fs k f : ends k (set_fs f).
Proof. intro st. exact I. Qed.

Lemma ends_settle k {A : Type} (r : settled A) : ends k (settle r).
Proof. destruct r; intro st; exact I. Qed.

Lemma ends_timed k {A : Type} (T : Q) (c : completion A) :
  bounded_wait k T -> ends k (timed T c).
Proof.
  intros HT st. unfold timed.
  destruct c as [ms r | ].
  - destruct (Qeq_bool T 0 || Qle_bool ms T); [apply ends_settle | exact I].
  - destruct (Qeq_bool T 0) eqn:H0; [ | exact I].
    destruct k; simpl in *; [congruence | exact I].
Qed.

Lemma ends_try_catch k {A : Type} (m : M A) (h : JS.Error -> M A) :
  ends k m -> (forall e, ends k (h e)) -> ends k (try_catch m h).
Proof.
  intros Hm Hh st. specialize (Hm st). unfold try_catch.
  destruct (m st) as [[a | e | | ] st1]; simpl in *; auto.
  apply Hh.
Qed.

Lemma ends_try_finally k {A : Type} (m : M A) (f : M unit) :
  ends k m -> ends k f -> ends k (try_finally m f).
Proof.
  intros Hm Hf st. specialize (Hm st). unfold try_finally.
  destruct (m st) as [[a | e | | ] st1]; simpl in *; auto.
  - apply (ends_bind k f (fun _ => ret a)); [exact Hf | intro; apply ends_ret].
  - apply (ends_bind k f (fun _ => throw e)); [exact Hf | intro; apply ends_throw].
Qed.

Lemma ends_when k b (m : M unit) : ends k m -> ends k (when b m).
Proof. destruct b; simpl; [auto | intros _; apply ends_ret]. Qed.

(** *** [ensures] *)

Lemma ensures_ret {A : Type} (a : A) (P : A -> Prop) : P a -> ensures (ret a) P.
Proof. intros HP st a' st' H. inversion H. subst. exact HP. Qed.

Lemma ensures_throw {A : Type} e (P : A -> Prop) : ensures (throw e) P.
Proof. intros st a st' H. discriminate. Qed.

Lemma ensures_bind {A B : Type} (m : M A) (k : A -> M B) (P : B -> Prop) :
  (forall a, ensures (k a) P) -> ensures (bind m k) P.
Proof.
  intros Hk st b st' H. apply bind_Returns in H. destruct H as (a & st1 & _ & H).
  exact (Hk a st1 b st' H).
Qed.

Lemma ensures_bind_with {A B : Type} (m : M A) (k : A -> M B) (Q : A -> Prop)
    (P : B -> Prop) :
  ensures m Q -> (forall a, Q a -> ensures (k a) P) -> ensures (bind m k) P.
Proof.
  intros Hm Hk st b st' H. apply bind_Returns in H. destruct H as (a & st1 & H1 & H).
  exact (Hk a (Hm st a st1 H1) st1 b st' H).
Qed.

Lemma ensures_try_catch {A : Type} (m : M A) (h : JS.Error -> M A) (P : A -> Prop) :
  ensures m P -> (forall e, ensures (h e) P) -> ensures (try_catch m h) P.
Proof.
  intros Hm Hh st a st' H. unfold try_catch in H.
  destruct (m st) as [[a1 | e | | ] st1] eqn:Hr; try discriminate.
  - inversion H. subst. exact (Hm st a st' Hr).
  - exact (Hh e st1 a st' H).
Qed.

Lemma ensures_weaken {A : Type} (m : M A) (P Q : A -> Prop) :
  ensures m P -> (forall a, P a -> Q a) -> ensures m Q.
Proof. intros Hm HPQ st a st' H. apply HPQ. exact (Hm st a st' H). Qed.

(** *** [emits] *)

Lemma emits_ret {A : Type} P (a : A) : emits P (ret a).
Proof. intro st. exists []. split; [apply extends_same; reflexivity | reflexivity]. Qed.

Lemma emits_throw {A : Type} P e : emits P (@throw A e).
Proof. intro st. exists []. split; [apply extends_same; reflexivity | reflexivity]. Qed.

Lemma emits_out_of_fuel {A : Type} P : emits P (@out_of_fuel A).
Proof. intro st. exists []. split; [apply extends_same; reflexivity | reflexivity]. Qed.

Lemma emits_emit P ev : P ev = true -> emits P (emit ev).
Proof.
  intros HP st. exists [ev]. split; [reflexivity | ]. simpl. now rewrite HP.
Qed.

Lemma emits_fresh P : emits P fresh.
Proof. intro st. exists []. split; [apply extends_same; reflexivity | reflexivity]. Qed.

Lemma emits_get_savedState P : emits P get_savedState.
Proof. intro st. exists []. split; [apply extends_same; reflexivity | reflexivity]. Qed.

Lemma emits_set_savedState P s : emits P (set_savedState s).
Proof. intro st. exists []. split; [apply extends_same; reflexivity | reflexivity]. Qed.

Lemma emits_get_fs P : emits P get_fs.
Proof. intro st. exists []. split; [apply extends_same; reflexivity | reflexivity]. Qed.

Lemma emits_set_fs P f : emits P (set_fs f).
Proof. intro st. exists []. split; [apply extends_same; reflexivity | reflexivity]. Qed.

Lemma emits_settle {A : Type} P (r : settled A) : emits P (settle r).
Proof. destruct r; [apply emits_ret | apply emits_throw]. Qed.

Lemma emits_timed {A : Type} P (T : Q) (c : completion A) : emits P (timed T c).
Proof.
  unfold timed. destruct c as [ms r | ].
  - destruct (Qeq_bool T 0 || Qle_bool ms T); [apply emits_settle | apply emits_throw].
  - destruct (Qeq_bool T 0); [ | apply emits_throw].
    intro st. exists []. split; [apply extends_same; reflexivity | reflexivity].
Qed.

Lemma emits_bind {A B : Type} P (m : M A) (k : A -> M B) :
  emits P m -> (forall a, emits P (k a)) -> emits P (bind m k).
Proof.
  intros Hm Hk st. destruct (Hm st) as (evs1 & H1 & HP1). rewrite bind_run.
  destruct (m st) as [[a | e | | ] st1]; simpl in *;
    try (exists evs1; split; assumption).
  destruct (Hk a st1) as (evs2 & H2 & HP2).
  exists (evs1 ++ evs2). split.
  - eapply extends_trans; eassumption.
  - rewrite forallb_app, HP1, HP2. reflexivity.
Qed.

Lemma emits_try_catch {A : Type} P (m : M A) (h : JS.Error -> M A) :
  emits P m -> (forall e, emits P (h e)) -> emits P (try_catch m h).
Proof.
  intros Hm Hh st. destruct (Hm st) as (evs1 & H1 & HP1). unfold try_catch.
  destruct (m st) as [[a | e | | ] st1]; simpl in *;
    try (exists evs1; split; assumption).
  destruct (Hh e st1) as (evs2 & H2 & HP2).
  exists (evs1 ++ evs2). split.
  - eapply extends_trans; eassumption.
  - rewrite forallb_app, HP1, HP2. reflexivity.
Qed.

Lemma emits_try_finally {A : Type} P (m : M A) (f : M unit) :
  emits P m -> emits P f -> emits P (try_finally m f).
Proof.
  intros Hm Hf st. destruct (Hm st) as (evs1 & H1 & HP1). unfold try_finally.
  destruct (m st) as [[a | e | | ] st1]; simpl in *;
    try (exists evs1; split; assumption).
  - destruct (emits_bind P f (fun _ => ret a) Hf (fun _ => emits_ret P a) st1)
      as (evs2 & H2 & HP2).
    exists (evs1 ++ evs2). split; [eapply extends_trans; eassumption | ].
    rewrite forallb_app, HP1, HP2. reflexivity.
  - destruct (emits_bind P f (fun _ => @throw A e) Hf (fun _ => emits_throw P e) st1)
      as (evs2 & H2 & HP2).
    exists (evs1 ++ evs2). split; [eapply extends_trans; eassumption | ].
    rewrite forallb_app, HP1, HP2. reflexivity.
Qed.

Lemma emits_when P b (m : M unit) : (b = true -> emits P m) -> emits P (when b m).
Proof. destruct b; simpl; [auto | intros _; apply emits_ret]. Qed.

Lemma emits_bind_with {A B : Type} P (m : M A) (k : A -> M B) (Q : A -> Prop) :
  emits P m -> ensures m Q -> (forall a, Q a -> emits P (k a)) -> emits P (bind m k).
Proof.
  intros Hm HQ Hk st. destruct (Hm st) as (evs1 & H1 & HP1). rewrite bind_run.
  destruct (m st) as [[a | e | | ] st1] eqn:Hrun; simpl in *;
    try (exists evs1; split; assumption).
  destruct (Hk a (HQ st a st1 Hrun) st1) as (evs2 & H2 & HP2).
  exists (evs1 ++ evs2). split.
  - eapply extends_trans; eassumption.
  - rewrite forallb_app, HP1, HP2. reflexivity.
Qed.

Lemma emits_weaken {A : Type} (P Q : Event -> bool) (m : M A) :
  (forall ev, P ev = true -> Q ev = true) -> emits P m -> emits Q m.
Proof.
  intros HPQ Hm st. destruct (Hm st) as (evs & H & HP). exists evs. split; [exact H | ].
  rewrite forallb_forall in *. auto.
Qed.

(** *** [returns] *)

Lemma returns_ret {A : Type} (a : A) (P : A -> Prop) : P a -> returns (ret a) P.
Proof. intros HP st. exists a, st. auto. Qed.

Lemma returns_bind {A B : Type} (m : M A) (k : A -> M B) (Q : A -> Prop) (P : B -> Prop) :
  returns m Q -> (forall a, Q a -> returns (k a) P) -> returns (bind m k) P.
Proof.
  intros Hm Hk st. destruct (Hm st) as (a & st1 & Hrun & HQ).
  rewrite (bind_of_Returns m k st a st1 Hrun). apply Hk, HQ.
Qed.

Lemma returns_always {A : Type} (m : M A) :
  (forall st, exists a st', m st = (Returns a, st')) -> returns m (fun _ => True).
Proof. intros H st. destruct (H st) as (a & st' & Hrun). eauto. Qed.

Lemma returns_emit ev : returns (emit ev) (fun _ => True).
Proof. apply returns_always. intro st. eexists _, _. reflexivity. Qed.

Lemma returns_fresh : returns fresh (fun _ => True).
Proof. apply returns_always. intro st. eexists _, _. reflexivity. Qed.

Lemma returns_get_savedState : returns get_savedState (fun _ => True).
Proof. apply returns_always. intro st. eexists _, _. reflexivity. Qed.

Lemma returns_set_savedState s : returns (set_savedState s) (fun _ => True).
Proof. apply returns_always. intro st. eexists _, _. reflexivity. Qed.

Lemma returns_settle {A : Type} (a : A) : returns (settle (Fulfilled a)) (fun x => x = a).
Proof. intro st. exists a, st. split; reflexivity. Qed.

Lemma returns_weaken {A : Type} (m : M A) (P Q : A -> Prop) :
  returns m P -> (forall a, P a -> Q a) -> returns m Q.
Proof.
  intros Hm HPQ st. destruct (Hm st) as (a & st' & Hrun & HP). eauto.
Qed.

(** A program that settles and whose handler returns, returns. *)
Lemma returns_try_catch {A : Type} (m : M A) (h : JS.Error -> M A) (P : A -> Prop) :
  ends Settled m -> ensures m P -> (forall e, returns (h e) P) ->
  returns (try_catch m h) P.
Proof.
  intros Hm HP Hh st. specialize (Hm st). unfold try_catch.
  destruct (m st) as [[a | e | | ] st1] eqn:Hrun; simpl in Hm; try contradiction.
  - exists a, st1. split; [reflexivity | exact (HP st a st1 Hrun)].
  - apply Hh.
Qed.

(** *** [calls_in] *)

Lemma calls_app evs1 evs2 : calls (evs1 ++ evs2) = calls evs1 ++ calls evs2.
Proof. apply filter_app. Qed.

Lemma calls_silent evs : forallb silent evs = true -> calls evs = [].
Proof.
  induction evs as [ | ev evs IH]; simpl; [reflexivity | ].
  unfold silent at 1. intro H. apply andb_true_iff in H. destruct H as [Hev Hevs].
  destruct (is_call ev); [discriminate | auto].
Qed.

Lemma calls_in_silent L {A : Type} (m : M A) :
  emits silent m -> In [] L -> calls_in L m.
Proof.
  intros Hm HL st. destruct (Hm st) as (evs & H & Hs). exists evs.
  split; [exact H | ]. now rewrite (calls_silent evs Hs).
Qed.

Lemma calls_in_weaken L L' {A : Type} (m : M A) :
  incl L L' -> calls_in L m -> calls_in L' m.
Proof.
  intros HL Hm st. destruct (Hm st) as (evs & H & Hin). exists evs. auto.
Qed.

(** Silent steps first, then a program that may call. *)
Lemma calls_in_after_silent L {A B : Type} (m : M A) (k : A -> M B) (Q : A -> Prop) :
  emits silent m -> ensures m Q -> In [] L ->
  (forall a, Q a -> calls_in L (k a)) -> calls_in L (bind m k).
Proof.
  intros Hm HQ HL Hk st. destruct (Hm st) as (evs1 & H1 & Hs1). rewrite bind_run.
  destruct (m st) as [[a | e | | ] st1] eqn:Hrun; simpl in *;
    try (exists evs1; split; [assumption | now rewrite (calls_silent evs1 Hs1)]).
  destruct (Hk a (HQ st a st1 Hrun) st1) as (evs2 & H2 & Hin).
  exists (evs1 ++ evs2). split; [eapply extends_trans; eassumption | ].
  now rewrite calls_app, (calls_silent evs1 Hs1).
Qed.

(** Steps that return first, then a program that may call. *)
Lemma calls_in_after_returns L {A B : Type} (m : M A) (k : A -> M B) (Q : A -> Prop) :
  emits silent m -> returns m Q -> (forall a, Q a -> calls_in L (k a)) ->
  calls_in L (bind m k).
Proof.
  intros Hm HQ Hk st. destruct (Hm st) as (evs1 & H1 & Hs1).
  destruct (HQ st) as (a & st1 & Hrun & Ha).
  rewrite (bind_of_Returns m k st a st1 Hrun). rewrite Hrun in H1. simpl in H1.
  destruct (Hk a Ha st1) as (evs2 & H2 & Hin).
  exists (evs1 ++ evs2). split; [eapply extends_trans; eassumption | ].
  now rewrite calls_app, (calls_silent evs1 Hs1).
Qed.

(** A program that may call first, then silent steps. *)
Lemma calls_in_then_silent L {A B : Type} (m : M A) (k : A -> M B) (Q : A -> Prop) :
  calls_in L m -> ensures m Q -> (forall a, Q a -> emits silent (k a)) ->
  calls_in L (bind m k).
Proof.
  intros Hm HQ Hk st. destruct (Hm st) as (evs1 & H1 & Hin). rewrite bind_run.
  destruct (m st) as [[a | e | | ] st1] eqn:Hrun; simpl in *;
    try (exists evs1; split; assumption).
  destruct (Hk a (HQ st a st1 Hrun) st1) as (evs2 & H2 & Hs2).
  exists (evs1 ++ evs2). split; [eapply extends_trans; eassumption | ].
  now rewrite calls_app, (calls_silent evs2 Hs2), app_nil_r.
Qed.

Lemma calls_in_try_catch L {A : Type} (m : M A) (h : JS.Error -> M A) :
  calls_in L m -> (forall e, emits silent (h e)) -> calls_in L (try_catch m h).
Proof.
  intros Hm Hh st. destruct (Hm st) as (evs1 & H1 & Hin). unfold try_catch.
  destruct (m st) as [[a | e | | ] st1] eqn:Hrun; simpl in *;
    try (exists evs1; split; assumption).
  destruct (Hh e st1) as (evs2 & H2 & Hs2).
  exists (evs1 ++ evs2). split; [eapply extends_trans; eassumption | ].
  now rewrite calls_app, (calls_silent evs2 Hs2), app_nil_r.
Qed.

(** The entry of [performSearch], then the rest of its body. *)
Lemma calls_in_entry L {A : Type} headless force (m : M A) :
  calls_in L m ->
  calls_in (map (cons (CallPerformSearch headless force)) L)
    (bind (emit (CallPerformSearch headless force)) (fun _ => m)).
Proof.
  intros Hm st. rewrite bind_run. cbn [emit].
  destruct (Hm (mkState (fs st) (savedState st)
                  (trace st ++ [CallPerformSearch headless force]) (next st)))
    as (evs & H & Hin).
  exists (CallPerformSearch headless force :: evs). split.
  - unfold extends in *. rewrite H. cbn [trace]. now rewrite <- app_assoc.
  - cbn [calls filter is_call]. fold (calls evs). now apply in_map.
Qed.

(** One step of a proof that a program settles, or that it emits only
    events of some kind: the rule of the construct at the head. *)
Ltac ends_step :=
  match goal with
  | |- ends _ (bind _ _) => apply ends_bind; [ | intro ]
  | |- ends _ (ret _) => apply ends_ret
  | |- ends _ (throw _) => apply ends_throw
  | |- ends _ (emit _) => apply ends_emit
  | |- ends _ (logger _ _) => apply ends_emit
  | |- ends _ fresh => apply ends_fresh
  | |- ends _ get_savedState => apply ends_get_savedState
  | |- ends _ (set_savedState _) => apply ends_set_savedState
  | |- ends _ get_fs => apply ends_get_fs
  | |- ends _ (set_fs _) => apply ends_set_fs
  | |- ends _ (settle _) => apply ends_settle
  | |- ends _ (when _ _) => apply ends_when
  | |- ends _ (try_catch _ _) => apply ends_try_catch; [ | intro ]
  | |- ends _ (if ?b then _ else _) => destruct b
  | |- ends _ (match ?x with _ => _ end) => destruct x
  end.

Ltac emits_step :=
  match goal with
  | |- emits _ (bind _ _) => apply emits_bind; [ | intro ]
  | |- emits _ (ret _) => apply emits_ret
  | |- emits _ (throw _) => apply emits_throw
  | |- emits _ out_of_fuel => apply emits_out_of_fuel
  | |- emits _ (emit _) => apply emits_emit; try reflexivity
  | |- emits _ (logger _ _) => apply emits_emit; try reflexivity
  | |- emits _ fresh => apply emits_fresh
  | |- emits _ get_savedState => apply emits_get_savedState
  | |- emits _ (set_savedState _) => apply emits_set_savedState
  | |- emits _ get_fs => apply emits_get_fs
  | |- emits _ (set_fs _) => apply emits_set_fs
  | |- emits _ (settle _) => apply emits_settle
  | |- emits _ (timed _ _) => apply emits_timed
  | |- emits _ (when _ _) => apply emits_when; intro
  | |- emits _ (try_catch _ _) => apply emits_try_catch; [ | intro ]
  | |- emits _ (if ?b then _ else _) => destruct b
  | |- emits _ (match ?x with _ => _ end) => destruct x
  end.

(** ** Loading the saved state *)

Lemma existsSync_run path st :
  existsSync path st =
  (Returns (present (fs st) path),
   mkState (fs st) (savedState st) (trace st ++ [ExistsSync path]) (next st)).
Proof. reflexivity. Qed.

(** [loadSavedState], case by case. *)
Lemma loadSavedState_cases host stateFile st :
  exists saved evs st',
    loadSavedState host stateFile st =
      (Returns (if present (fs st) stateFile then Some stateFile else None, saved), st') /\
    fs st' = fs st /\
    extends st st' evs /\
    if loads_sidecar (fs st) stateFile then
      match sidecar host (fs st) stateFile with
      | Some parsed => saved = parsed /\ filter is_warning evs = []
      | None => saved = emptySavedState /\ filter is_warning evs = [warned]
      end
    else saved = emptySavedState /\ filter is_warning evs = [].
Proof.
  unfold loads_sidecar, sidecar.
  destruct (present (fs st) stateFile) eqn:Hsnap;
    destruct (JS.truthy stateFile) eqn:Htruthy;
    destruct (present (fs st) (fingerprintFileOf stateFile)) eqn:Hside;
    destruct (file (fs st) (fingerprintFileOf stateFile)) as [text | ] eqn:Hfile;
    cbn [andb bind_opt];
    try destruct (JSON_parse host text) as [parsed | ] eqn:Hparse;
    unfold loadSavedState;
    rewrite bind_run, existsSync_run, Hsnap, ?Htruthy;
    rewrite ?bind_run, ?existsSync_run; cbn [fs]; rewrite ?Hside;
    unfold try_catch, readFileSync, logger, emit, get_fs, bind, ret, throw;
    cbn [fs savedState trace next]; rewrite ?Hfile, ?Hparse;
    eexists _, _, _;
    (split; [reflexivity | ]); cbn [fs trace];
    (split; [reflexivity | ]);
    (split; [unfold extends; rewrite <- ?app_assoc; reflexivity | ]);
    split; reflexivity.
Qed.

(** C8, as amended: [loadSavedState] returns for every state file and
    every file system, and leaves the file system as it is.  The snapshot
    reference it returns is the state file itself whenever that file
    exists, whatever the sidecar is like, and nothing otherwise.  The
    saved state it returns is the parsed sidecar when the snapshot exists
    and the sidecar exists, can be read and parses; it is the empty state
    in every other case, and a sidecar that exists but cannot be read or
    parsed logs one warning. *)
Theorem loadSavedState_never_fails host stateFile st :
  exists saved evs st',
    loadSavedState host stateFile st =
      (Returns (if present (fs st) stateFile then Some stateFile else None, saved), st') /\
    fs st' = fs st /\
    extends st st' evs /\
    if loads_sidecar (fs st) stateFile then
      match sidecar host (fs st) stateFile with
      | Some parsed => saved = parsed /\ filter is_warning evs = []
      | None => saved = emptySavedState /\ filter is_warning evs = [warned]
      end
    else saved = emptySavedState /\ filter is_warning evs = [].
Proof. apply loadSavedState_cases. Qed.

(** C8, the claim as stated fails: with a snapshot on disk and no
    sidecar, [loadSavedState] returns the empty saved state together with
    the snapshot reference. *)
Lemma loadSavedState_keeps_snapshot_reference :
  file Sample.snapshotOnlyFS (fingerprintFileOf "./browser-state.json") = None /\
  fst (loadSavedState Sample.host "./browser-state.json"
         (Sample.start Sample.snapshotOnlyFS))
  = Returns (Some "./browser-state.json", emptySavedState).
Proof. split; reflexivity. Qed.

(** ** The empty batch *)

(** C10: on a missing or empty list of queries both [multiGoogleSearch]
    functions throw the error "At least one search query is required" and
    leave the state as it was: nothing is logged and no browser is
    launched. *)
Theorem multiGoogleSearch_requires_a_query host BW fuel options st :
  (GoogleSearch.multiGoogleSearch host BW fuel None options st = (Throws noQueryError, st) /\
   GoogleSearch.multiGoogleSearch host BW fuel (Some []) options st
     = (Throws noQueryError, st)) /\
  (Part002.multiGoogleSearch host BW fuel None options st = (Throws noQueryError, st) /\
   Part002.multiGoogleSearch host BW fuel (Some []) options st
     = (Throws noQueryError, st)) /\
  JS.String_of_Error noQueryError = "Error: At least one search query is required".
Proof. repeat split. Qed.

(** ** The extraction of results *)

Lemma truthy_nonempty s : JS.truthy s = true <-> s <> "".
Proof. destruct s; simpl; split; intro H; congruence. Qed.

Lemma valid_well_formed r : valid r = true <-> well_formed r.
Proof.
  unfold valid, well_formed. rewrite andb_true_iff, !truthy_nonempty. tauto.
Qed.

Lemma slice0_length {A : Type} (e : Z) (arr : list A) :
  (0 <= e)%Z -> (Z.of_nat (List.length (JS.slice0 e arr)) <= e)%Z.
Proof.
  intro He. unfold JS.slice0.
  destruct (e <? 0)%Z eqn:Hneg; [apply Z.ltb_lt in Hneg; lia | ].
  rewrite length_firstn. lia.
Qed.

Lemma filter_length_le {A : Type} (f : A -> bool) (l : list A) :
  (List.length (filter f l) <= List.length l)%nat.
Proof.
  induction l as [ | x l IH]; simpl; [lia | ]. destruct (f x); simpl; lia.
Qed.

Lemma filter_valid_well_formed (l : list SearchResult) :
  Forall well_formed (filter valid l).
Proof.
  apply Forall_forall. intros r Hr. apply filter_In in Hr.
  apply valid_well_formed. tauto.
Qed.

Lemma extractStructural_extracted maxResults titleSelector snippetSelector elements :
  extracted maxResults (extractStructural maxResults titleSelector snippetSelector elements).
Proof.
  unfold extracted, extractStructural, bounded. split.
  - apply filter_valid_well_formed.
  - intro Hle.
    pose proof (filter_length_le valid
      (map (structuralItem titleSelector snippetSelector) (JS.slice0 maxResults elements))) as H.
    rewrite length_map in H.
    pose proof (slice0_length maxResults elements Hle). lia.
Qed.

Lemma extractFallback_extracted maxResults elements :
  extracted maxResults (extractFallback maxResults elements).
Proof.
  unfold extracted, extractFallback, bounded. split.
  - apply filter_valid_well_formed.
  - intro Hle.
    pose proof (filter_length_le valid
      (map fallbackItem (JS.slice0 maxResults (filter outbound elements)))) as H.
    rewrite length_map in H.
    pose proof (slice0_length maxResults (filter outbound elements) Hle). lia.
Qed.

Lemma extracted_nil maxResults : extracted maxResults [].
Proof. split; [constructor | intro; unfold bounded; simpl; assumption]. Qed.

Lemma structuralStrategies_extracted E maxResults selectors :
  ensures (structuralStrategies E maxResults selectors) (extracted maxResults).
Proof.
  induction selectors as [ | selector rest IH]; simpl.
  - apply ensures_ret, extracted_nil.
  - apply ensures_bind. intro elements.
    destruct (0 <? _)%nat.
    + apply ensures_ret, extractStructural_extracted.
    + exact IH.
Qed.

(** The extraction at the end of the search, as both [try] blocks have
    it: the structural strategies, then the fallback when they found
    nothing. *)
Lemma extraction_extracted {B : Type} E maxResults (inj : list SearchResult -> B)
    (P : B -> Prop) :
  (forall results, extracted maxResults results -> P (inj results)) ->
  ensures
    (results <- structuralStrategies E maxResults resultSelectors ;;
     results <-
       (if (List.length results =? 0)%nat then
          elements <- settle (eval E "a[href^='http']") ;;
          ret (extractFallback maxResults elements)
        else ret results) ;;
     ret (inj results)) P.
Proof.
  intro HP.
  eapply ensures_bind_with; [apply structuralStrategies_extracted | ].
  intros results Hres.
  apply ensures_bind_with with (Q := extracted maxResults).
  - destruct (_ =? 0)%nat.
    + apply ensures_bind. intro elements.
      apply ensures_ret, extractFallback_extracted.
    + apply ensures_ret, Hres.
  - intros results' Hres'. apply ensures_ret, HP, Hres'.
Qed.

(** Skips the steps of a program whose result the property at hand does
    not depend on, up to the next branch or extraction. *)
Ltac ensures_skip :=
  repeat match goal with
         | |- ensures (bind (if _ then _ else _) _) _ => fail 1
         | |- ensures (bind (structuralStrategies _ _ _) _) _ => fail 1
         | |- ensures (bind _ _) _ => apply ensures_bind; intro
         end.

(** ** What [googleSearch] of [src/services/googleSearch.ts] returns *)

Section GoogleSearchResponses.

Variable host : Host.
Variable W : nat -> Engine.
Variable q : string.
Variable options : SearchOptions.
Variable existingBrowser : option Handle.

Let maxResults : Z := GoogleSearch.limit' options.

Lemma GoogleSearch_tryBlock_search_ensures E headless provided browser context page :
  ensures (GoogleSearch.tryBlock_search q options E headless provided browser context page)
    (fun r =>
       match r with
       | inl results => extracted maxResults results
       | inr force => headless = true /\ force = provided
       end).
Proof.
  unfold GoogleSearch.tryBlock_search. ensures_skip.
  apply ensures_bind_with with (Q := fun restart => restart = true -> headless = true).
  { destruct (GoogleSearch.isBlocked _ _); [destruct headless | ].
    - ensures_skip. now apply ensures_ret.
    - ensures_skip. apply ensures_ret. discriminate.
    - apply ensures_ret. discriminate. }
  intros [ | ] Hrestart; [apply ensures_ret; auto | ].
  ensures_skip. destruct (negb _); [apply ensures_throw | ].
  ensures_skip.
  apply ensures_bind_with with (Q := fun restart => restart = true -> headless = true).
  { destruct (GoogleSearch.isBlocked _ _); [destruct headless | ].
    - ensures_skip. now apply ensures_ret.
    - ensures_skip. apply ensures_ret. discriminate.
    - apply ensures_ret. discriminate. }
  intros [ | ] Hrestart2; [apply ensures_ret; auto | ].
  apply ensures_bind. intros _.
  apply extraction_extracted. auto.
Qed.

Lemma GoogleSearch_tryBlock_ensures E headless provided browser context page :
  ensures (GoogleSearch.tryBlock host q options E headless provided browser context page)
    (fun r =>
       match r with
       | inl response => query response = q /\ extracted maxResults (results response)
       | inr force => headless = true /\ force = provided
       end).
Proof.
  unfold GoogleSearch.tryBlock.
  eapply ensures_bind_with; [apply GoogleSearch_tryBlock_search_ensures | ].
  intros [results | force] Hr.
  - unfold GoogleSearch.tryBlock_finish. ensures_skip. apply ensures_ret. auto.
  - apply ensures_ret. exact Hr.
Qed.

Lemma GoogleSearch_tryStatement_ensures E headless provided browser context page :
  ensures
    (GoogleSearch.tryStatement host q options E headless provided browser context page)
    (fun r =>
       match r with
       | inl response => response_of q maxResults response
       | inr force => headless = true /\ force = provided
       end).
Proof.
  unfold GoogleSearch.tryStatement. apply ensures_try_catch.
  - eapply ensures_weaken; [apply GoogleSearch_tryBlock_ensures | ].
    intros [response | force]; [ | auto]. intros [Hq Hres]. split; auto.
  - intro e. unfold GoogleSearch.catchBlock. ensures_skip. apply ensures_ret.
    split; [reflexivity | left; eauto].
Qed.

Lemma GoogleSearch_performSearch_ensures storageState fuel :
  forall attempt headless forceNewBrowser,
    ensures
      (GoogleSearch.performSearch host W q options existingBrowser storageState fuel
         attempt headless forceNewBrowser)
      (response_of q maxResults).
Proof.
  induction fuel as [ | fuel IH]; intros attempt headless force; simpl.
  - intros st a st' H. discriminate.
  - do 5 (apply ensures_bind; intro).
    eapply ensures_bind_with; [apply GoogleSearch_tryStatement_ensures | ].
    intros [response | f] Hr.
    + apply ensures_ret. exact Hr.
    + apply IH.
Qed.

Lemma GoogleSearch_googleSearch_ensures fuel :
  ensures (GoogleSearch.googleSearch host W q options existingBrowser fuel)
          (response_of q maxResults).
Proof.
  unfold GoogleSearch.googleSearch. do 2 (apply ensures_bind; intro).
  apply GoogleSearch_performSearch_ensures.
Qed.

End GoogleSearchResponses.

(** C3, the claim as stated fails: when no search box is found,
    [googleSearch] returns a response whose only result has an empty
    link. *)
Lemma googleSearch_failure_has_empty_link :
  fst (GoogleSearch.googleSearch Sample.host (fun _ => Sample.noSearchBox) "rocq"
         noOptions None 2 (Sample.start Sample.emptyFS))
  = Returns (mkResponse "rocq"
               [mkResult "Search failed" "" "Error: Could not find search box"]) /\
  ~ Forall well_formed [mkResult "Search failed" "" "Error: Could not find search box"].
Proof.
  split; [reflexivity | ].
  intro H. inversion H as [ | r l [_ Hlink] _]. apply Hlink. reflexivity.
Qed.

(** C3, as amended: a response returned by [googleSearch] is the
    synthetic failure response, whose single result has the title "Search
    failed" and an empty link, or every one of its results has a title
    and a link that are not empty; the structural strategies and the
    fallback each drop the candidates with an empty title or an empty
    link. *)
Theorem googleSearch_results_well_formed host W q options existingBrowser fuel :
  (forall st r,
     fst (GoogleSearch.googleSearch host W q options existingBrowser fuel st) = Returns r ->
     (exists e, r = failure q e) \/ Forall well_formed (results r)) /\
  (forall maxResults titleSelector snippetSelector elements,
     Forall well_formed
       (extractStructural maxResults titleSelector snippetSelector elements)) /\
  (forall maxResults elements,
     Forall well_formed (extractFallback maxResults elements)).
Proof.
  split; [ | split].
  - intros st r Hrun.
    destruct (GoogleSearch.googleSearch host W q options existingBrowser fuel st)
      as [o st'] eqn:Hrun'.
    simpl in Hrun. subst o.
    destruct (GoogleSearch_googleSearch_ensures host W q options existingBrowser fuel
                st r st' Hrun') as [_ [Hfail | [Hwf _]]]; auto.
  - intros. apply extractStructural_extracted.
  - intros. apply extractFallback_extracted.
Qed.

(** The theorem on a smooth search with three results. *)
Lemma googleSearch_results_well_formed_witness :
  fst (GoogleSearch.googleSearch Sample.host (fun _ => Sample.smooth) "rocq"
         noOptions None 2 (Sample.start Sample.emptyFS))
  = Returns (mkResponse "rocq"
               [mkResult "First" "https://a.example/" "one";
                mkResult "Second" "https://b.example/" "two";
                mkResult "Third" "https://c.example/" "three"]) /\
  ((exists e,
      mkResponse "rocq"
        [mkResult "First" "https://a.example/" "one";
         mkResult "Second" "https://b.example/" "two";
         mkResult "Third" "https://c.example/" "three"] = failure "rocq" e) \/
   Forall well_formed
     [mkResult "First" "https://a.example/" "one";
      mkResult "Second" "https://b.example/" "two";
      mkResult "Third" "https://c.example/" "three"]).
Proof.
  split; [reflexivity | ].
  exact (proj1 (googleSearch_results_well_formed Sample.host (fun _ => Sample.smooth)
                  "rocq" noOptions None 2)
           (Sample.start Sample.emptyFS) _ eq_refl).
Defined.

(** C2, the claim as stated fails: with the result limit -1 the callback
    slices off the last of three containers only, and a search that did
    not fail returns two results. *)
Lemma googleSearch_negative_limit :
  fst (GoogleSearch.googleSearch Sample.host (fun _ => Sample.smooth) "rocq"
         (Sample.limitOf (-1)) None 2 (Sample.start Sample.emptyFS))
  = Returns (mkResponse "rocq"
               [mkResult "First" "https://a.example/" "one";
                mkResult "Second" "https://b.example/" "two"]) /\
  ~ bounded (-1) [mkResult "First" "https://a.example/" "one";
                  mkResult "Second" "https://b.example/" "two"].
Proof. split; [reflexivity | unfold bounded; simpl; lia]. Qed.

(** C2, as amended: when the result limit ([options.limit], 10 when it
    is absent) is not negative, a response returned by [googleSearch] that
    is not the synthetic failure response has at most that many results,
    whichever strategy produced them, the fallback included. *)
Theorem googleSearch_results_bounded host W q options existingBrowser fuel st r :
  (0 <= GoogleSearch.limit' options)%Z ->
  fst (GoogleSearch.googleSearch host W q options existingBrowser fuel st) = Returns r ->
  (exists e, r = failure q e) \/ bounded (GoogleSearch.limit' options) (results r).
Proof.
  intros Hlimit Hrun.
  destruct (GoogleSearch.googleSearch host W q options existingBrowser fuel st)
    as [o st'] eqn:Hrun'.
  simpl in Hrun. subst o.
  destruct (GoogleSearch_googleSearch_ensures host W q options existingBrowser fuel
              st r st' Hrun') as [_ [Hfail | [_ Hb]]]; auto.
Qed.

(** The theorem on a smooth search with the default limit. *)
Lemma googleSearch_results_bounded_witness :
  (0 <= GoogleSearch.limit' noOptions)%Z /\
  GoogleSearch.limit' noOptions = 10%Z /\
  fst (GoogleSearch.googleSearch Sample.host (fun _ => Sample.smooth) "rocq"
         noOptions None 2 (Sample.start Sample.emptyFS))
  = Returns (mkResponse "rocq"
               [mkResult "First" "https://a.example/" "one";
                mkResult "Second" "https://b.example/" "two";
                mkResult "Third" "https://c.example/" "three"]) /\
  ((exists e,
      mkResponse "rocq"
        [mkResult "First" "https://a.example/" "one";
         mkResult "Second" "https://b.example/" "two";
         mkResult "Third" "https://c.example/" "three"] = failure "rocq" e) \/
   bounded (GoogleSearch.limit' noOptions)
     [mkResult "First" "https://a.example/" "one";
      mkResult "Second" "https://b.example/" "two";
      mkResult "Third" "https://c.example/" "three"]).
Proof.
  split; [unfold GoogleSearch.limit'; simpl; lia | ].
  split; [reflexivity | split; [reflexivity | ]].
  refine (googleSearch_results_bounded Sample.host (fun _ => Sample.smooth) "rocq"
            noOptions None 2 (Sample.start Sample.emptyFS) _ _ eq_refl).
  unfold GoogleSearch.limit'; simpl; lia.
Defined.

(** ** The steps common to both implementations *)

Create HintDb steps.

#[local] Hint Unfold submitQuery saveBrowserState launchBrowser setupPage
  browser_newContext page_close_ context_close_ browser_close_ existsSync
  readFileSync writeFileSync mkdirSync context_storageState awaitNavigation
  Part003.setupContext Part003.resolveContextOptions
  BrowserTs.resolveContextOptions : steps.

Lemma emits_findSearchInput P E selectors : emits P (findSearchInput E selectors).
Proof.
  induction selectors as [ | selector rest IH]; simpl; repeat emits_step; exact IH.
Qed.

Lemma emits_waitForResults P E T selectors : emits P (waitForResults E T selectors).
Proof.
  induction selectors as [ | selector rest IH]; simpl; repeat emits_step; exact IH.
Qed.

Lemma emits_structuralStrategies P E maxResults selectors :
  emits P (structuralStrategies E maxResults selectors).
Proof.
  induction selectors as [ | selector rest IH]; simpl; repeat emits_step; exact IH.
Qed.

Lemma ends_findSearchInput k E selectors : ends k (findSearchInput E selectors).
Proof.
  induction selectors as [ | selector rest IH]; simpl; repeat ends_step; exact IH.
Qed.

Lemma ends_waitForResults k E T selectors :
  bounded_wait k T -> ends k (waitForResults E T selectors).
Proof.
  intro HT. induction selectors as [ | selector rest IH]; simpl; repeat ends_step;
    try exact IH.
  apply ends_timed, HT.
Qed.

Lemma ends_structuralStrategies k E maxResults selectors :
  ends k (structuralStrategies E maxResults selectors).
Proof.
  induction selectors as [ | selector rest IH]; simpl; repeat ends_step; exact IH.
Qed.

(** A proof that a program emits only events of some kind, by the rules
    of its constructs; the definitions of [steps] are unfolded on the
    way. *)
Ltac emits_auto :=
  repeat first
    [ apply emits_findSearchInput
    | apply emits_waitForResults
    | apply emits_structuralStrategies
    | emits_step
    | progress autounfold with steps ].

Ltac ends_auto :=
  repeat first
    [ apply ends_findSearchInput
    | apply ends_structuralStrategies
    | ends_step
    | progress autounfold with steps ].

Lemma emits_loadSavedState P host stateFile :
  P (ExistsSync stateFile) = true ->
  P (ExistsSync (fingerprintFileOf stateFile)) = true ->
  P (ReadFileSync (fingerprintFileOf stateFile)) = true ->
  P warned = true ->
  emits P (loadSavedState host stateFile).
Proof.
  intros H1 H2 H3 H4. unfold loadSavedState. emits_auto; assumption.
Qed.

Lemma ends_loadSavedState k host stateFile : ends k (loadSavedState host stateFile).
Proof. unfold loadSavedState. ends_auto. Qed.


Lemma ends_saveBrowserState k host r context stateFile :
  ends k (saveBrowserState host r context stateFile).
Proof. ends_auto. Qed.

Lemma Qeq_bool_double t : Qeq_bool t 0 = false -> Qeq_bool (t * 2) 0 = false.
Proof.
  intro H. destruct (Qeq_bool (t * 2) 0) eqn:H2; [ | reflexivity].
  apply Qeq_bool_eq in H2. apply Qeq_bool_neq in H. exfalso. apply H.
  apply Qmult_integral in H2. destruct H2 as [H2 | H2]; [exact H2 | discriminate].
Qed.

Lemma Qeq_bool_half t : Qeq_bool t 0 = false -> Qeq_bool (t / 2) 0 = false.
Proof.
  intro H. destruct (Qeq_bool (t / 2) 0) eqn:H2; [ | reflexivity].
  apply Qeq_bool_eq in H2. apply Qeq_bool_neq in H. exfalso. apply H.
  unfold Qdiv in H2. apply Qmult_integral in H2.
  destruct H2 as [H2 | H2]; [exact H2 | discriminate].
Qed.

Lemma bounded_wait_double k t : bounded_wait k t -> bounded_wait k (t * 2).
Proof. destruct k; simpl; [apply Qeq_bool_double | auto]. Qed.

Lemma bounded_wait_half k t : bounded_wait k t -> bounded_wait k (t / 2).
Proof. destruct k; simpl; [apply Qeq_bool_half | auto]. Qed.

Lemma ends_awaitNavigation k pred T navs :
  bounded_wait k T -> ends k (awaitNavigation pred T navs).
Proof.
  intro HT. unfold awaitNavigation.
  destruct (find _ navs) as [[ms url] | ]; apply ends_timed, HT.
Qed.

Lemma ends_launchBrowser k c headless timeout :
  bounded_wait k timeout -> ends k (launchBrowser c headless timeout).
Proof.
  intro HT. unfold launchBrowser. apply ends_bind; [ | intro; ends_auto].
  apply ends_timed, bounded_wait_double, HT.
Qed.

(** ** The escalation in [src/services/googleSearch.ts] *)

Section GoogleSearchEscalation.

Variable host : Host.
Variable W : nat -> Engine.
Variable q : string.
Variable options : SearchOptions.
Variable existingBrowser : option Handle.

Let provided (forceNewBrowser : bool) : bool :=
  match existingBrowser with Some _ => true | None => false end && negb forceNewBrowser.

Lemma GoogleSearch_tryBlock_search_emits P E headless wasProvided browser context page :
  (forall ev, silent ev = true -> file_of ev = None -> P ev = true) ->
  emits P (GoogleSearch.tryBlock_search q options E headless wasProvided browser context page).
Proof.
  intro HP. unfold GoogleSearch.tryBlock_search. emits_auto; apply HP; reflexivity.
Qed.

Lemma GoogleSearch_tryStatement_silent E headless wasProvided browser context page :
  emits silent
    (GoogleSearch.tryStatement host q options E headless wasProvided browser context page).
Proof.
  unfold GoogleSearch.tryStatement, GoogleSearch.tryBlock, GoogleSearch.tryBlock_finish,
    GoogleSearch.catchBlock.
  apply emits_try_catch; [apply emits_bind | intro e].
  - apply GoogleSearch_tryBlock_search_emits. auto.
  - intros [results | force]; emits_auto.
  - emits_auto.
Qed.

Lemma GoogleSearch_tryBlock_search_ends k E headless wasProvided browser context page :
  bounded_wait k (GoogleSearch.timeout' options) ->
  ends k (GoogleSearch.tryBlock_search q options E headless wasProvided browser context page).
Proof.
  intro HT. unfold GoogleSearch.tryBlock_search.
  repeat first
    [ apply ends_timed; [exact HT]
    | apply ends_awaitNavigation, bounded_wait_double, HT
    | apply ends_waitForResults, bounded_wait_half, HT
    | apply ends_findSearchInput
    | apply ends_structuralStrategies
    | ends_step
    | progress autounfold with steps ].
Qed.

Lemma GoogleSearch_tryBlock_ends k E headless wasProvided browser context page :
  bounded_wait k (GoogleSearch.timeout' options) ->
  ends k (GoogleSearch.tryBlock host q options E headless wasProvided browser context page).
Proof.
  intro HT. unfold GoogleSearch.tryBlock, GoogleSearch.tryBlock_finish.
  apply ends_bind; [apply GoogleSearch_tryBlock_search_ends, HT | ].
  intros [results | force]; ends_auto.
Qed.

Lemma GoogleSearch_tryStatement_ends k E headless wasProvided browser context page :
  bounded_wait k (GoogleSearch.timeout' options) ->
  ends k
    (GoogleSearch.tryStatement host q options E headless wasProvided browser context page).
Proof.
  intro HT. unfold GoogleSearch.tryStatement, GoogleSearch.catchBlock.
  apply ends_try_catch; [apply GoogleSearch_tryBlock_ends, HT | intro e]. ends_auto.
Qed.

(** A call of [performSearch] in visible mode records its own entry and
    no other. *)
Lemma GoogleSearch_performSearch_visible_calls storageState fuel attempt force :
  calls_in [[CallPerformSearch false force]]
    (GoogleSearch.performSearch host W q options existingBrowser storageState (S fuel)
       attempt false force).
Proof.
  cbn [GoogleSearch.performSearch].
  apply (calls_in_entry [[]]). apply calls_in_silent; [ | left; reflexivity].
  do 4 (apply emits_bind; [emits_auto | intro]).
  eapply emits_bind_with;
    [apply GoogleSearch_tryStatement_silent | apply GoogleSearch_tryStatement_ensures | ].
  intros [response | f] Hr; [emits_auto | ]. destruct Hr as [Hr _]. discriminate.
Qed.

(** A call of [performSearch] records its own entry and at most the
    entry of one restart, in visible mode. *)
Lemma GoogleSearch_performSearch_calls storageState fuel attempt headless force :
  calls_in
    [[CallPerformSearch headless force];
     [CallPerformSearch headless force; CallPerformSearch false (provided force)]]
    (GoogleSearch.performSearch host W q options existingBrowser storageState (S (S fuel))
       attempt headless force).
Proof.
  cbn [GoogleSearch.performSearch].
  apply (calls_in_entry [[]; [CallPerformSearch false (provided force)]]).
  do 4 (apply calls_in_after_silent with (Q := fun _ => True);
        [emits_auto | intros ? ? ? ?; exact I | left; reflexivity | intros ? _]).
  eapply calls_in_after_silent;
    [apply GoogleSearch_tryStatement_silent | apply GoogleSearch_tryStatement_ensures
    | left; reflexivity | ].
  intros [response | f] Hr.
  - apply calls_in_silent; [emits_auto | left; reflexivity].
  - destruct Hr as [_ Hr]. subst f.
    eapply calls_in_weaken; [ | apply GoogleSearch_performSearch_visible_calls].
    intros l [Hl | []]. subst l. right. left. reflexivity.
Qed.

Lemma GoogleSearch_performSearch_visible_ends k storageState fuel attempt force :
  bounded_wait k (GoogleSearch.timeout' options) ->
  ends k
    (GoogleSearch.performSearch host W q options existingBrowser storageState (S fuel)
       attempt false force).
Proof.
  intro HT. cbn [GoogleSearch.performSearch].
  apply ends_bind; [ends_auto | intro].
  apply ends_bind; [ | intro].
  { ends_step; [ends_auto | ].
    apply ends_bind; [ends_auto | intro; apply ends_launchBrowser, HT]. }
  do 3 (apply ends_bind; [ends_auto | intro]).
  eapply ends_bind_with;
    [apply GoogleSearch_tryStatement_ends, HT | apply GoogleSearch_tryStatement_ensures | ].
  intros [response | f] Hr; [ends_auto | ]. destruct Hr as [Hr _]. discriminate.
Qed.

Lemma GoogleSearch_performSearch_ends k storageState fuel attempt headless force :
  bounded_wait k (GoogleSearch.timeout' options) ->
  ends k
    (GoogleSearch.performSearch host W q options existingBrowser storageState (S (S fuel))
       attempt headless force).
Proof.
  intro HT. cbn [GoogleSearch.performSearch].
  apply ends_bind; [ends_auto | intro].
  apply ends_bind; [ | intro].
  { ends_step; [ends_auto | ].
    apply ends_bind; [ends_auto | intro; apply ends_launchBrowser, HT]. }
  do 3 (apply ends_bind; [ends_auto | intro]).
  apply ends_bind; [apply GoogleSearch_tryStatement_ends, HT | ].
  intros [response | f]; [ends_auto | ].
  apply GoogleSearch_performSearch_visible_ends, HT.
Qed.

End GoogleSearchEscalation.

(** ** The escalation in [unnamed/part_002] *)

Section Part002Escalation.

Variable host : Host.
Variable W : nat -> Engine.
Variable q : string.
Variable options : SearchOptions.
Variable existingBrowser : option Handle.

Let provided (forceNewBrowser : bool) : bool :=
  match existingBrowser with Some _ => true | None => false end && negb forceNewBrowser.

(** In visible mode [handleBlocked] waits, and never calls [self]. *)
Lemma Part002_handleBlocked_visible self E wasProvided browser context page url navs :
  Part002.handleBlocked self E false wasProvided browser context page url navs =
  if Part002.isBlocked url then
    (logger warn "[GoogleSearch] CAPTCHA detected, please solve it in the browser..." ;;
     emit (WaitForURL page 0) ;;
     awaitNavigation Part002.challengeFree 0 navs ;;
     ret Part002.Continue)%js
  else ret Part002.Continue.
Proof. reflexivity. Qed.

(** In headless mode [handleBlocked] releases the session and calls
    [self], and never waits. *)
Lemma Part002_handleBlocked_headless self E wasProvided browser context page url navs :
  Part002.handleBlocked self E true wasProvided browser context page url navs =
  if Part002.isBlocked url then
    (logger warn "[GoogleSearch] CAPTCHA detected, restarting in non-headless mode..." ;;
     page_close_ E page ;;
     context_close_ E context ;;
     when (negb wasProvided) (browser_close_ (browser_close_escalate E) browser) ;;
     response <- self wasProvided ;;
     ret (Part002.Restarted response))%js
  else ret Part002.Continue.
Proof. reflexivity. Qed.

Lemma Part002_tryBlock_search_visible_emits P self E wasProvided browser context page domain :
  (forall ev, silent ev = true -> file_of ev = None -> P ev = true) ->
  emits P
    (Part002.tryBlock_search q options self E false wasProvided browser context page domain).
Proof.
  intro HP. unfold Part002.tryBlock_search.
  repeat first [rewrite Part002_handleBlocked_visible | progress emits_auto];
    apply HP; reflexivity.
Qed.

Lemma Part002_finish_silent E wasProvided browser context results :
  emits silent
    (Part002.tryBlock_finish host q options E wasProvided browser context results).
Proof. unfold Part002.tryBlock_finish. emits_auto. Qed.

Lemma Part002_catchBlock_silent E wasProvided browser e :
  emits silent (Part002.catchBlock q options E wasProvided browser e).
Proof. unfold Part002.catchBlock. emits_auto. Qed.

Lemma Part002_tryStatement_visible_silent self E wasProvided browser context page domain :
  emits silent
    (Part002.tryStatement host q options self E false wasProvided browser context page
       domain).
Proof.
  unfold Part002.tryStatement, Part002.tryBlock.
  apply emits_try_catch; [apply emits_bind | intro e].
  - apply Part002_tryBlock_search_visible_emits. auto.
  - intros [results | response]; [apply Part002_finish_silent | emits_auto].
  - apply Part002_catchBlock_silent.
Qed.

Lemma Part002_setup_silent E headless force (k : Handle -> M SearchResponse) :
  (forall browser, emits silent (k browser)) ->
  emits silent
    (browser <-
       match (if provided force then existingBrowser else None) with
       | Some b =>
           logger info "[GoogleSearch] Using existing browser instance" ;;
           ret b
       | None =>
           logger info ("[GoogleSearch] Launching browser (headless="
                          ++ JS.String_of_bool headless ++ ")") ;;
           launchBrowser (launch E) headless (Part002.timeout' options)
       end ;;
     k browser).
Proof.
  intro Hk. apply emits_bind; [emits_auto | exact Hk].
Qed.

(** A call of [performSearch] in visible mode records its own entry and
    no other. *)
Lemma Part002_performSearch_visible_calls fuel attempt force :
  calls_in [[CallPerformSearch false force]]
    (Part002.performSearch host W q options existingBrowser (S fuel) attempt false force).
Proof.
  cbn [Part002.performSearch].
  apply (calls_in_entry [[]]). apply calls_in_silent; [ | left; reflexivity].
  apply emits_bind; [emits_auto | intro browser].
  apply emits_bind; [ | intro context].
  { unfold BrowserTs.setupContext.
    apply emits_bind; [apply emits_loadSavedState; reflexivity | intro]. emits_auto. }
  do 4 (apply emits_bind; [emits_auto | intro]).
  apply Part002_tryStatement_visible_silent.
Qed.

(** [handleBlocked] in headless mode, followed by the rest of the [try]
    block: the calls recorded are those of [self], or those of the rest
    when there is no challenge. *)
Lemma Part002_handleBlocked_calls {A : Type} L self E wasProvided browser context page
    url navs (k : Part002.Blocked -> M A) :
  In [] L ->
  calls_in L (self wasProvided) ->
  (forall response, emits silent (k (Part002.Restarted response))) ->
  calls_in L (k Part002.Continue) ->
  calls_in L
    (bind (Part002.handleBlocked self E true wasProvided browser context page url navs) k).
Proof.
  intros HL Hself Hrestarted Hcontinue.
  rewrite Part002_handleBlocked_headless.
  destruct (Part002.isBlocked url).
  - apply calls_in_then_silent with (Q := fun b => exists r, b = Part002.Restarted r).
    + do 4 (apply calls_in_after_silent with (Q := fun _ => True);
            [emits_auto | intros ? ? ? ?; exact I | exact HL | intros ? _]).
      apply calls_in_then_silent with (Q := fun _ => True);
        [exact Hself | intros ? ? ? ?; exact I | intros; emits_auto].
    + ensures_skip. apply ensures_ret. eauto.
    + intros b [r Hb]. subst b. apply Hrestarted.
  - apply calls_in_after_silent with (Q := fun b => b = Part002.Continue);
      [emits_auto | apply ensures_ret; reflexivity | exact HL | ].
    intros b Hb. subst b. exact Hcontinue.
Qed.

(** Silent steps in front of a program that may call. *)
Ltac skip_silent HL :=
  repeat (apply calls_in_after_silent with (Q := fun _ => True);
          [solve [emits_auto] | intros ? ? ? ?; exact I | exact HL | intros ? _]).

Lemma Part002_tryBlock_search_calls L self E wasProvided browser context page domain :
  In [] L ->
  calls_in L (self wasProvided) ->
  calls_in L
    (Part002.tryBlock_search q options self E true wasProvided browser context page domain).
Proof.
  intros HL Hself. unfold Part002.tryBlock_search.
  skip_silent HL.
  apply Part002_handleBlocked_calls; try assumption; [intro; emits_auto | ].
  skip_silent HL.
  destruct (negb _); [apply calls_in_silent; [emits_auto | exact HL] | ].
  skip_silent HL.
  apply Part002_handleBlocked_calls; try assumption; [intro; emits_auto | ].
  apply calls_in_silent; [emits_auto | exact HL].
Qed.

Lemma Part002_tryStatement_calls L self E wasProvided browser context page domain :
  In [] L ->
  calls_in L (self wasProvided) ->
  calls_in L
    (Part002.tryStatement host q options self E true wasProvided browser context page
       domain).
Proof.
  intros HL Hself. unfold Part002.tryStatement, Part002.tryBlock.
  apply calls_in_try_catch; [ | apply Part002_catchBlock_silent].
  apply calls_in_then_silent with (Q := fun _ => True);
    [apply Part002_tryBlock_search_calls; assumption | intros ? ? ? ?; exact I | ].
  intros [results | response] _; [apply Part002_finish_silent | emits_auto].
Qed.

(** A call of [performSearch] records its own entry and at most the
    entry of one restart, in visible mode. *)
Lemma Part002_performSearch_calls fuel attempt headless force :
  calls_in
    [[CallPerformSearch headless force];
     [CallPerformSearch headless force; CallPerformSearch false (provided force)]]
    (Part002.performSearch host W q options existingBrowser (S (S fuel)) attempt headless
       force).
Proof.
  destruct headless.
  - cbn [Part002.performSearch].
    apply (calls_in_entry [[]; [CallPerformSearch false (provided force)]]).
    assert (HL : In [] [[]; [CallPerformSearch false (provided force)]])
      by (left; reflexivity).
    skip_silent HL.
    apply calls_in_after_silent with (Q := fun _ => True);
      [ | intros ? ? ? ?; exact I | exact HL | intros context _].
    { unfold BrowserTs.setupContext.
      apply emits_bind; [apply emits_loadSavedState; reflexivity | intro]. emits_auto. }
    skip_silent HL.
    apply Part002_tryStatement_calls; [exact HL | ].
    eapply calls_in_weaken; [ | apply Part002_performSearch_visible_calls].
    intros l [Hl | []]. subst l. right. left. reflexivity.
  - eapply calls_in_weaken; [ | apply Part002_performSearch_visible_calls].
    intros l [Hl | []]. subst l. left. reflexivity.
Qed.

Lemma Part002_tryBlock_search_ends self E headless wasProvided browser context page domain :
  (headless = true -> ends NotCut (self wasProvided)) ->
  ends NotCut
    (Part002.tryBlock_search q options self E headless wasProvided browser context page
       domain).
Proof.
  intro Hself. unfold Part002.tryBlock_search.
  destruct headless.
  - specialize (Hself eq_refl).
    repeat first
      [ rewrite Part002_handleBlocked_headless
      | exact Hself
      | apply (ends_timed NotCut); exact I
      | apply (ends_waitForResults NotCut); exact I
      | progress ends_auto ].
  - repeat first
      [ rewrite Part002_handleBlocked_visible
      | apply (ends_timed NotCut); exact I
      | apply (ends_waitForResults NotCut); exact I
      | progress ends_auto ].
Qed.

Lemma Part002_tryStatement_ends self E headless wasProvided browser context page domain :
  (headless = true -> ends NotCut (self wasProvided)) ->
  ends NotCut
    (Part002.tryStatement host q options self E headless wasProvided browser context page
       domain).
Proof.
  intro Hself. unfold Part002.tryStatement, Part002.tryBlock.
  apply ends_try_catch; [apply ends_bind | intro e].
  - apply Part002_tryBlock_search_ends, Hself.
  - intros [results | response]; unfold Part002.tryBlock_finish; ends_auto.
  - unfold Part002.catchBlock. ends_auto.
Qed.

Lemma Part002_performSearch_step_ends fuel attempt headless force :
  (headless = true ->
   forall f, ends NotCut
     (Part002.performSearch host W q options existingBrowser fuel (S attempt) false f)) ->
  ends NotCut
    (Part002.performSearch host W q options existingBrowser (S fuel) attempt headless force).
Proof.
  intro Hself. cbn [Part002.performSearch].
  apply ends_bind; [ends_auto | intro].
  apply ends_bind; [ | intro browser].
  { ends_step; [ends_auto | ].
    apply ends_bind; [ends_auto | intro; apply ends_launchBrowser; exact I]. }
  apply ends_bind; [ | intro context].
  { unfold BrowserTs.setupContext.
    apply ends_bind; [apply ends_loadSavedState | intro]. ends_auto. }
  do 4 (apply ends_bind; [ends_auto | intro]).
  apply Part002_tryStatement_ends. intro Hh. apply Hself, Hh.
Qed.

Lemma Part002_performSearch_ends fuel attempt headless force :
  ends NotCut
    (Part002.performSearch host W q options existingBrowser (S (S fuel)) attempt headless
       force).
Proof.
  apply Part002_performSearch_step_ends. intros _ f.
  apply Part002_performSearch_step_ends. discriminate.
Qed.

End Part002Escalation.


(** ** Escalation happens at most once *)

Lemma allowed_not_cut {A : Type} (o : outcome A) : allowed NotCut o -> o <> OutOfFuel.
Proof. destruct o; simpl; intros H; congruence || contradiction. Qed.

Lemma returns_loadSavedState host stateFile :
  returns (loadSavedState host stateFile) (fun _ => True).
Proof.
  apply returns_always. intro st.
  destruct (loadSavedState_cases host stateFile st) as (saved & evs & st' & H & _).
  eauto.
Qed.

Lemma GoogleSearch_googleSearch_calls host W q options existingBrowser fuel :
  calls_in (escalations (negb (debugOf options)) (isSome existingBrowser))
    (GoogleSearch.googleSearch host W q options existingBrowser (S (S fuel))).
Proof.
  unfold GoogleSearch.googleSearch.
  eapply calls_in_after_returns;
    [apply emits_loadSavedState; reflexivity | apply returns_loadSavedState | intros loaded _].
  eapply calls_in_after_returns;
    [emits_auto | apply returns_set_savedState | intros ? _].
  unfold escalations. destruct (negb (debugOf options)).
  - eapply calls_in_weaken; [ | apply GoogleSearch_performSearch_calls].
    intros l [Hl | [Hl | []]]; subst l; unfold isSome; simpl; rewrite ?andb_true_r; auto.
  - eapply calls_in_weaken; [ | apply GoogleSearch_performSearch_visible_calls].
    intros l [Hl | []]; subst l; simpl; auto.
Qed.

Lemma Part002_googleSearch_calls host W q options existingBrowser fuel :
  calls_in (escalations (negb (debugOf options)) (isSome existingBrowser))
    (Part002.googleSearch host W q options existingBrowser (S (S fuel))).
Proof.
  unfold Part002.googleSearch, escalations. destruct (negb (debugOf options)).
  - eapply calls_in_weaken; [ | apply Part002_performSearch_calls].
    intros l [Hl | [Hl | []]]; subst l; unfold isSome; simpl; rewrite ?andb_true_r; auto.
  - eapply calls_in_weaken; [ | apply Part002_performSearch_visible_calls].
    intros l [Hl | []]; subst l; simpl; auto.
Qed.

Lemma GoogleSearch_googleSearch_ends k host W q options existingBrowser fuel :
  bounded_wait k (GoogleSearch.timeout' options) ->
  ends k (GoogleSearch.googleSearch host W q options existingBrowser (S (S fuel))).
Proof.
  intro HT. unfold GoogleSearch.googleSearch.
  apply ends_bind; [apply ends_loadSavedState | intro].
  apply ends_bind; [ends_auto | intro].
  apply GoogleSearch_performSearch_ends, HT.
Qed.

(** Whatever the engine answers, a query given a recursion bound of two
    or more is never cut by it, and it makes one of the sequences of
    calls of [escalations]. *)
Lemma googleSearch_calls_bounded host W q options existingBrowser fuel st :
  (2 <= fuel)%nat ->
  (fst (GoogleSearch.googleSearch host W q options existingBrowser fuel st) <> OutOfFuel /\
   exists evs,
     extends st (snd (GoogleSearch.googleSearch host W q options existingBrowser fuel st))
       evs /\
     In (calls evs) (escalations (negb (debugOf options)) (isSome existingBrowser))) /\
  (fst (Part002.googleSearch host W q options existingBrowser fuel st) <> OutOfFuel /\
   exists evs,
     extends st (snd (Part002.googleSearch host W q options existingBrowser fuel st))
       evs /\
     In (calls evs) (escalations (negb (debugOf options)) (isSome existingBrowser))).
Proof.
  intro Hfuel.
  destruct fuel as [ | [ | fuel]]; [lia | lia | ].
  split; split.
  - apply allowed_not_cut.
    apply (GoogleSearch_googleSearch_ends NotCut host W q options existingBrowser fuel I).
  - apply GoogleSearch_googleSearch_calls.
  - apply allowed_not_cut.
    apply (Part002_performSearch_ends host W q options existingBrowser fuel).
  - apply Part002_googleSearch_calls.
Qed.

(** ** A challenge in headless mode restarts the search *)

Lemma hands_over_refl {A : Type} (m : M A) : hands_over m m.
Proof. intro st. exists st. reflexivity. Qed.

Lemma hands_over_bind {A B : Type} (m : M A) (k : A -> M B) (Q : A -> Prop) target :
  returns m Q -> (forall a, Q a -> hands_over (k a) target) ->
  hands_over (bind m k) target.
Proof.
  intros Hm Hk st. destruct (Hm st) as (a & st1 & Hrun & Ha).
  rewrite (bind_of_Returns m k st a st1 Hrun). apply Hk, Ha.
Qed.

Lemma bind_assoc {A B C : Type} (m : M A) (f : A -> M B) (k : B -> M C) st :
  bind (bind m f) k st = bind m (fun a => bind (f a) k) st.
Proof.
  unfold bind. destruct (m st) as [[a | e | | ] st1]; reflexivity.
Qed.

Lemma hands_over_assoc {A B C : Type} (m : M A) (f : A -> M B) (k : B -> M C) target :
  hands_over (bind m (fun a => bind (f a) k)) target ->
  hands_over (bind (bind m f) k) target.
Proof.
  intros H st. destruct (H st) as (st1 & Hrun). exists st1.
  now rewrite bind_assoc.
Qed.

Lemma is_fulfilled_unit (r : settled unit) : is_fulfilled r = true -> r = Fulfilled tt.
Proof. destruct r as [[] | e]; simpl; [reflexivity | discriminate]. Qed.

Lemma returns_fulfilled (r : settled unit) :
  is_fulfilled r = true -> returns (settle r) (fun _ => True).
Proof.
  intro H. rewrite (is_fulfilled_unit r H).
  eapply returns_weaken; [apply returns_settle | auto].
Qed.

Lemma returns_in_time {A : Type} T (c : completion A) a :
  in_time T c = Some a -> returns (timed T c) (fun x => x = a).
Proof.
  unfold in_time, timed. destruct c as [ms [a' | e] | ]; try discriminate.
  destruct (Qeq_bool T 0 || Qle_bool ms T); [ | discriminate].
  intro H. injection H as <-. intro st. exists a', st. auto.
Qed.

Lemma returns_in_time_some {A : Type} T (c : completion A) :
  isSome (in_time T c) = true -> returns (timed T c) (fun _ => True).
Proof.
  destruct (in_time T c) as [a | ] eqn:H; [intros _ | discriminate].
  eapply returns_weaken; [apply (returns_in_time T c a H) | auto].
Qed.

Lemma returns_when b (m : M unit) :
  (b = true -> returns m (fun _ => True)) -> returns (when b m) (fun _ => True).
Proof. destruct b; simpl; [auto | intros _; now apply returns_ret]. Qed.

Lemma returns_findSearchInput E selectors :
  finds_input E selectors = true ->
  returns (findSearchInput E selectors) (fun found => found = true).
Proof.
  induction selectors as [ | selector rest IH]; simpl; [discriminate | ].
  destruct (dollar E selector) as [[ | ] | e]; try discriminate; intro H.
  - eapply returns_bind; [apply (returns_settle true) | intros found ->].
    now apply returns_ret.
  - eapply returns_bind; [apply (returns_settle false) | intros found ->]. auto.
Qed.

Lemma returns_true {A : Type} (m : M A) (Q : A -> Prop) :
  returns m Q -> returns m (fun _ => True).
Proof. intro H. eapply returns_weaken; [exact H | auto]. Qed.

Lemma returns_submitQuery E page q :
  submits E = true -> returns (submitQuery E page q) (fun _ => True).
Proof.
  unfold submits. rewrite !andb_true_iff. intros [[[H1 H2] H3] H4].
  unfold submitQuery.
  repeat (eapply returns_bind;
          [first [apply returns_emit | apply returns_fulfilled; assumption] | intros _ _]).
  now apply returns_fulfilled.
Qed.

Lemma returns_logger level msg : returns (logger level msg) (fun _ => True).
Proof. apply returns_emit. Qed.

Lemma returns_page_close E page :
  is_fulfilled (page_close E) = true -> returns (page_close_ E page) (fun _ => True).
Proof.
  intro H. unfold page_close_.
  eapply returns_bind; [apply returns_emit | intros _ _]. now apply returns_fulfilled.
Qed.

Lemma returns_context_close E context :
  is_fulfilled (context_close E) = true ->
  returns (context_close_ E context) (fun _ => True).
Proof.
  intro H. unfold context_close_.
  eapply returns_bind; [apply returns_emit | intros _ _]. now apply returns_fulfilled.
Qed.

Lemma returns_browser_close_unless wasProvided r browser :
  wasProvided || is_fulfilled r = true ->
  returns (when (negb wasProvided) (browser_close_ r browser)) (fun _ => True).
Proof.
  intro H. apply returns_when. intro Hp. destruct wasProvided; [discriminate | ].
  unfold browser_close_.
  eapply returns_bind; [apply returns_emit | intros _ _]. now apply returns_fulfilled.
Qed.

(** One step of a run whose steps all return: the step at the head is
    discharged by one of the facts at hand. *)
Ltac returns_head :=
  first
    [ apply returns_emit
    | apply returns_logger
    | apply returns_get_savedState
    | apply returns_set_savedState
    | apply returns_fresh
    | apply returns_page_close; assumption
    | apply returns_context_close; assumption
    | apply returns_browser_close_unless; assumption
    | apply returns_submitQuery; assumption
    | apply returns_fulfilled; assumption
    | apply returns_in_time_some; assumption ].

Ltac returns_steps :=
  repeat (eapply returns_bind; [solve [returns_head] | intros ? _]).

Ltac hands_over_steps :=
  repeat (eapply hands_over_bind; [solve [returns_head] | intros ? _]).

Section GoogleSearchRestart.

Variable host : Host.
Variable W : nat -> Engine.
Variable q : string.
Variable options : SearchOptions.
Variable existingBrowser : option Handle.

Let T : Q := GoogleSearch.timeout' options.

(** When the headless attempt detects a challenge and releases its
    session, the [try] block ends on
    [return performSearch(false, browserWasProvided)]. *)
Lemma GoogleSearch_tryBlock_search_restarts E wasProvided browser context page :
  GoogleSearch_detects T E = true ->
  releases wasProvided E = true ->
  returns (GoogleSearch.tryBlock_search q options E true wasProvided browser context page)
          (fun r => r = inr wasProvided).
Proof.
  unfold GoogleSearch_detects, releases. intros Hdetects Hreleases.
  destruct (in_time T (goto E)) as [response | ] eqn:Hgoto; [ | discriminate].
  apply andb_true_iff in Hreleases. destruct Hreleases as [Hreleases Hbrowser].
  apply andb_true_iff in Hreleases. destruct Hreleases as [Hpage Hcontext].
  unfold GoogleSearch.tryBlock_search. fold T.
  returns_steps.
  eapply returns_bind; [apply (returns_in_time T (goto E) response Hgoto) | ].
  intros r ->.
  destruct (GoogleSearch.isBlocked (url_home E) response) eqn:Hhome.
  - eapply returns_bind with (Q := fun restart => restart = true).
    + returns_steps. now apply returns_ret.
    + intros restart ->. now apply returns_ret.
  - cbn [orb] in Hdetects. rewrite !andb_true_iff in Hdetects.
    destruct Hdetects as [[[Hinput Hsubmits] Hload] Hresults].
    eapply returns_bind with (Q := fun restart => restart = false);
      [now apply returns_ret | intros restart ->].
    cbv beta iota. returns_steps.
    eapply returns_bind; [apply returns_findSearchInput, Hinput | intros found ->].
    cbn [negb]. cbv beta iota. returns_steps.
    rewrite Hresults.
    eapply returns_bind with (Q := fun restart => restart = true).
    + returns_steps. now apply returns_ret.
    + intros restart ->. now apply returns_ret.
Qed.

(** When the headless attempt opens its session, detects a challenge and
    releases the session, the call goes on as the call
    [performSearch(false, browserWasProvided)]. *)
Lemma GoogleSearch_performSearch_restarts storageState fuel attempt force :
  let wasProvided := isSome existingBrowser && negb force in
  session_opens T wasProvided (W attempt) = true ->
  GoogleSearch_detects T (W attempt) = true ->
  releases wasProvided (W attempt) = true ->
  hands_over
    (GoogleSearch.performSearch host W q options existingBrowser storageState (S fuel)
       attempt true force)
    (GoogleSearch.performSearch host W q options existingBrowser storageState fuel
       (S attempt) false wasProvided).
Proof.
  intros wasProvided Hopens Hdetects Hreleases.
  unfold session_opens in Hopens. rewrite !andb_true_iff in Hopens.
  destruct Hopens as [[[[Hlaunch Hctx] Hctx'] Hpage] Hpage'].
  cbn [GoogleSearch.performSearch]. fold T.
  change (match existingBrowser with Some _ => true | None => false end)
    with (isSome existingBrowser).
  fold wasProvided.
  hands_over_steps.
  eapply hands_over_bind with (Q := fun _ => True); [ | intros browser _].
  { destruct wasProvided eqn:Hp.
    - destruct existingBrowser as [b | ]; [ | discriminate].
      returns_steps. now apply returns_ret.
    - cbn [orb] in Hlaunch. unfold launchBrowser. returns_steps. now apply returns_ret. }
  eapply hands_over_bind with (Q := fun _ => True); [ | intros ? _].
  { unfold Part003.resolveContextOptions.
    eapply returns_bind; [apply returns_get_savedState | intros s _].
    destruct (fingerprint s); [now apply returns_ret | apply returns_set_savedState]. }
  eapply hands_over_bind with (Q := fun _ => True); [ | intros context _].
  { unfold Part003.setupContext, browser_newContext. returns_steps. now apply returns_ret. }
  eapply hands_over_bind with (Q := fun _ => True); [ | intros page _].
  { unfold setupPage. returns_steps. now apply returns_ret. }
  eapply hands_over_bind with (Q := fun r => r = inr wasProvided); [ | intros r ->].
  { unfold GoogleSearch.tryStatement, GoogleSearch.tryBlock.
    intro st.
    destruct (GoogleSearch_tryBlock_search_restarts (W attempt) wasProvided browser context
                page Hdetects Hreleases st) as (r & st1 & Hrun & ->).
    exists (inr wasProvided), st1. split; [ | reflexivity].
    unfold try_catch. rewrite (bind_of_Returns _ _ _ _ _ Hrun). reflexivity. }
  apply hands_over_refl.
Qed.

End GoogleSearchRestart.

Section Part002Restart.

Variable q : string.
Variable options : SearchOptions.

Let T : Q := Part002.timeout' options.

(** The escalation block of [handleBlocked], followed by the rest of
    the [try] block. *)
Lemma Part002_escalation_hands_over self E wasProvided browser context page url navs
    (k : Part002.Blocked -> M (list SearchResult + SearchResponse)) :
  Part002.isBlocked url = true ->
  releases wasProvided E = true ->
  (forall response, k (Part002.Restarted response) = ret (inr response)) ->
  hands_over
    (bind (Part002.handleBlocked self E true wasProvided browser context page url navs) k)
    (response <- self wasProvided ;; ret (inr response)).
Proof.
  unfold releases. intros Hblocked Hreleases Hk.
  apply andb_true_iff in Hreleases. destruct Hreleases as [Hreleases Hbrowser].
  apply andb_true_iff in Hreleases. destruct Hreleases as [Hpage Hcontext].
  rewrite Part002_handleBlocked_headless, Hblocked.
  do 4 (apply hands_over_assoc;
        eapply hands_over_bind; [solve [returns_head] | intros ? _]).
  apply hands_over_assoc.
  intro st. exists st. unfold bind. destruct (self wasProvided st) as [[r | e | | ] st1];
    try reflexivity.
  cbn [ret]. rewrite Hk. reflexivity.
Qed.

(** When the headless attempt detects a challenge and releases its
    session, the [try] block goes on as the call
    [performSearch(false, browserWasProvided)], whose response it
    returns. *)
Lemma Part002_tryBlock_search_restarts self E wasProvided browser context page domain :
  Part002_detects T E = true ->
  releases wasProvided E = true ->
  hands_over
    (Part002.tryBlock_search q options self E true wasProvided browser context page domain)
    (response <- self wasProvided ;; ret (inr response)).
Proof.
  unfold Part002_detects. intros Hdetects Hreleases.
  apply andb_true_iff in Hdetects. destruct Hdetects as [Hgoto Hdetects].
  unfold Part002.tryBlock_search. fold T.
  hands_over_steps.
  destruct (Part002.isBlocked (url_home E)) eqn:Hhome.
  - apply Part002_escalation_hands_over; auto.
  - cbn [orb] in Hdetects. rewrite !andb_true_iff in Hdetects.
    destruct Hdetects as [[Hinput Hsubmits] Hnext].
    rewrite Part002_handleBlocked_headless, Hhome.
    eapply hands_over_bind with (Q := fun b => b = Part002.Continue);
      [now apply returns_ret | intros b ->].
    cbv beta iota. hands_over_steps.
    eapply hands_over_bind; [apply returns_findSearchInput, Hinput | intros found ->].
    cbn [negb]. cbv beta iota. hands_over_steps.
    unfold awaitNavigation at 1.
    destruct (find (fun n => Part002.reachedNext (snd n)) (results_navs E))
      as [[ms url] | ]; [ | discriminate].
    apply andb_true_iff in Hnext. destruct Hnext as [Htime Hblocked].
    eapply hands_over_bind with (Q := fun u => u = url); [ | intros u ->].
    { apply returns_in_time. unfold in_time. now rewrite Htime. }
    hands_over_steps.
    apply Part002_escalation_hands_over; auto.
Qed.

End Part002Restart.


(** C4: the escalation from headless to visible mode happens at most
    once per query, in [src/services/googleSearch.ts] and in
    [unnamed/part_002] alike.  Whatever the engine answers, a query given
    a recursion bound of two or more is never cut by it, and the calls of
    [performSearch] it makes are the first call alone or, when the first
    call is headless, the first call followed by one call in visible
    mode: a call in visible mode is never followed by another.  And the
    restart does happen: when a headless attempt detects a challenge, at
    the home page or after the query is submitted, and releases its
    session, the call goes on as the call
    [performSearch(false, browserWasProvided)]. *)
Theorem escalation_at_most_once host W q options existingBrowser fuel st :
  (2 <= fuel)%nat ->
  (fst (GoogleSearch.googleSearch host W q options existingBrowser fuel st) <> OutOfFuel /\
   exists evs,
     extends st (snd (GoogleSearch.googleSearch host W q options existingBrowser fuel st))
       evs /\
     In (calls evs) (escalations (negb (debugOf options)) (isSome existingBrowser))) /\
  (fst (Part002.googleSearch host W q options existingBrowser fuel st) <> OutOfFuel /\
   exists evs,
     extends st (snd (Part002.googleSearch host W q options existingBrowser fuel st))
       evs /\
     In (calls evs) (escalations (negb (debugOf options)) (isSome existingBrowser))) /\
  (forall storageState attempt force,
     let wasProvided := isSome existingBrowser && negb force in
     session_opens (GoogleSearch.timeout' options) wasProvided (W attempt) = true ->
     GoogleSearch_detects (GoogleSearch.timeout' options) (W attempt) = true ->
     releases wasProvided (W attempt) = true ->
     hands_over
       (GoogleSearch.performSearch host W q options existingBrowser storageState fuel
          attempt true force)
       (GoogleSearch.performSearch host W q options existingBrowser storageState
          (pred fuel) (S attempt) false wasProvided)) /\
  (forall self E wasProvided browser context page domain,
     Part002_detects (Part002.timeout' options) E = true ->
     releases wasProvided E = true ->
     hands_over
       (Part002.tryBlock_search q options self E true wasProvided browser context page
          domain)
       (response <- self wasProvided ;; ret (inr response))).
Proof.
  intro Hfuel.
  destruct (googleSearch_calls_bounded host W q options existingBrowser fuel st Hfuel)
    as [HA HB].
  split; [exact HA | split; [exact HB | split]].
  - intros storageState attempt force wasProvided Hopens Hdetects Hreleases.
    destruct fuel as [ | fuel]; [lia | ]. cbn [pred].
    now apply GoogleSearch_performSearch_restarts.
  - intros. now apply Part002_tryBlock_search_restarts.
Qed.

(** The theorem on a world in which the first attempt meets a challenge
    at the home page. *)
Lemma escalation_at_most_once_witness :
  (2 <= 2)%nat /\
  (fst (GoogleSearch.googleSearch Sample.host Sample.challengedOnce "rocq" noOptions None 2
          (Sample.start Sample.emptyFS)) <> OutOfFuel /\
   exists evs,
     extends (Sample.start Sample.emptyFS)
       (snd (GoogleSearch.googleSearch Sample.host Sample.challengedOnce "rocq" noOptions
               None 2 (Sample.start Sample.emptyFS)))
       evs /\
     In (calls evs) (escalations true false)) /\
  hands_over
    (GoogleSearch.performSearch Sample.host Sample.challengedOnce "rocq" noOptions None None
       2 0 true false)
    (GoogleSearch.performSearch Sample.host Sample.challengedOnce "rocq" noOptions None None
       1 1 false false) /\
  hands_over
    (Part002.tryBlock_search "rocq" noOptions (fun _ => ret (mkResponse "rocq" []))
       Sample.challengedAtHome true false 0%nat 1%nat 2%nat Sample.home)
    (response <- ret (mkResponse "rocq" []) ;; ret (inr response)).
Proof.
  split; [lia | split; [ | split]].
  - exact (proj1 (escalation_at_most_once Sample.host Sample.challengedOnce "rocq"
                    noOptions None 2 (Sample.start Sample.emptyFS) (le_n 2))).
  - apply (proj1 (proj2 (proj2
             (escalation_at_most_once Sample.host Sample.challengedOnce "rocq" noOptions
                None 2 (Sample.start Sample.emptyFS) (le_n 2)))) None 0%nat false);
      reflexivity.
  - apply (proj2 (proj2 (proj2
             (escalation_at_most_once Sample.host Sample.challengedOnce "rocq" noOptions
                None 2 (Sample.start Sample.emptyFS) (le_n 2))))
             (fun _ => ret (mkResponse "rocq" [])) Sample.challengedAtHome false);
      reflexivity.
Defined.

(** On that world both implementations make exactly two calls, the
    second in visible mode on a browser of its own. *)
Example escalation_twice :
  calls (trace (snd (GoogleSearch.googleSearch Sample.host Sample.challengedOnce "rocq"
                       noOptions None 2 (Sample.start Sample.emptyFS))))
  = [CallPerformSearch true false; CallPerformSearch false false] /\
  calls (trace (snd (Part002.googleSearch Sample.host Sample.challengedOnce "rocq"
                       noOptions (Some 7%nat) 2 (Sample.start Sample.emptyFS))))
  = [CallPerformSearch true false; CallPerformSearch false true].
Proof. split; reflexivity. Qed.


(** ** The wait for a human to solve the challenge *)

Lemma throws_bind {A B : Type} (m : M A) (k : A -> M B) e :
  throws m e -> throws (bind m k) e.
Proof.
  intros Hm st. destruct (Hm st) as (st' & Hrun). exists st'.
  now apply bind_of_Throws.
Qed.

Lemma throws_after {A B : Type} (m : M A) (k : A -> M B) (Q : A -> Prop) e :
  returns m Q -> (forall a, Q a -> throws (k a) e) -> throws (bind m k) e.
Proof.
  intros Hm Hk st. destruct (Hm st) as (a & st1 & Hrun & Ha).
  rewrite (bind_of_Returns m k st a st1 Hrun). apply Hk, Ha.
Qed.

Lemma hangs_bind {A B : Type} (m : M A) (k : A -> M B) : hangs m -> hangs (bind m k).
Proof.
  intros Hm st. destruct (Hm st) as (st' & Hrun). exists st'.
  unfold bind. now rewrite Hrun.
Qed.

Lemma hangs_after {A B : Type} (m : M A) (k : A -> M B) (Q : A -> Prop) :
  returns m Q -> (forall a, Q a -> hangs (k a)) -> hangs (bind m k).
Proof.
  intros Hm Hk st. destruct (Hm st) as (a & st1 & Hrun & Ha).
  rewrite (bind_of_Returns m k st a st1 Hrun). apply Hk, Ha.
Qed.

Lemma returns_caught {A : Type} (m : M A) (h : JS.Error -> M A) e (P : A -> Prop) :
  throws m e -> returns (h e) P -> returns (try_catch m h) P.
Proof.
  intros Hm Hh st. destruct (Hm st) as (st1 & Hrun).
  unfold try_catch. rewrite Hrun. apply Hh.
Qed.

(** A bounded wait that is not satisfied in time throws. *)
Lemma awaitNavigation_times_out pred T navs :
  Qeq_bool T 0 = false -> unsolved_within pred T navs = true ->
  throws (awaitNavigation pred T navs) TimeoutError.
Proof.
  unfold unsolved_within, awaitNavigation, timed. intros HT Hnavs.
  destruct (find _ navs) as [[ms url] | ]; rewrite HT.
  - apply negb_true_iff in Hnavs. rewrite Hnavs. intro st. exists st. reflexivity.
  - intro st. exists st. reflexivity.
Qed.


Section Waits.

Variable host : Host.
Variable q : string.
Variable options : SearchOptions.



End Waits.





(** ** Persistence and release at the end of a search *)

Lemma emits_extends {A : Type} P (m : M A) st :
  emits P m -> exists evs, extends st (snd (m st)) evs /\ forallb P evs = true.
Proof. intro H. apply H. Qed.



Lemma when_true (m : M unit) : when true m = m.
Proof. reflexivity. Qed.

(** When the snapshot cannot be written, [saveBrowserState] does not
    return and does not write the sidecar. *)
Lemma context_storageState_rejected e context path :
  ensures (context_storageState (Rejected e) context path) (fun _ => False).
Proof.
  unfold context_storageState. cbn [settle].
  apply ensures_bind. intro.
  apply ensures_bind_with with (Q := fun _ => False); [apply ensures_throw | intros ? []].
Qed.

Lemma saveBrowserState_snapshot_first host e context stateFile :
  emits not_writeFile (saveBrowserState host (Rejected e) context stateFile) /\
  ensures (saveBrowserState host (Rejected e) context stateFile) (fun _ => False).
Proof.
  split.
  - unfold saveBrowserState.
    apply emits_bind; [emits_auto | intro].
    apply emits_bind; [emits_auto | intro].
    apply emits_bind_with with (Q := fun _ => False);
      [emits_auto | apply context_storageState_rejected | intros ? []].
  - unfold saveBrowserState.
    do 2 (apply ensures_bind; intro).
    apply ensures_bind_with with (Q := fun _ => False);
      [apply context_storageState_rejected | intros ? []].
Qed.

(** The sidecar is written only after the snapshot was. *)
Lemma saveBrowserState_sidecar_second host r context stateFile st :
  exists evs,
    extends st (snd (saveBrowserState host r context stateFile st)) evs /\
    (In (WriteFileSync (fingerprintFileOf stateFile)) evs ->
     is_fulfilled r = true /\ In (StorageState context stateFile) evs).
Proof.
  destruct r as [blob | e].
  - unfold saveBrowserState, context_storageState, existsSync, mkdirSync, writeFileSync,
      when, emit, get_fs, set_fs, get_savedState, settle, bind, ret, throw.
    cbn [fs trace savedState next].
    repeat match goal with
           | |- context [if ?b then _ else _] => destruct b
           | |- context [match ?x with Some _ => _ | None => _ end] => destruct x
           end;
      cbn [fs trace savedState next snd]; unfold extends; cbn [trace];
      eexists; (split; [rewrite <- ?app_assoc; reflexivity | ]).
    all: cbn [app In]; intro H; split; [reflexivity | ];
      intuition (discriminate || auto).
  - destruct (saveBrowserState_snapshot_first host e context stateFile) as [Hemits _].
    destruct (Hemits st) as (evs & Hext & Hno). exists evs. split; [exact Hext | ].
    intro Hin. rewrite forallb_forall in Hno. specialize (Hno _ Hin). discriminate.
Qed.

Section GoogleSearchExit.

Variable host : Host.
Variable q : string.
Variable options : SearchOptions.

Lemma GoogleSearch_catchBlock_returns E wasProvided browser e :
  wasProvided || debugOf options || is_fulfilled (browser_close_catch E) = true ->
  returns (GoogleSearch.catchBlock q options E wasProvided browser e)
          (fun r => r = inl (failure q e)).
Proof.
  intro Hcatch. unfold GoogleSearch.catchBlock.
  eapply returns_bind; [apply returns_logger | intros _ _].
  eapply returns_bind; [ | intros _ _; now apply returns_ret].
  apply returns_when. intro Hclose. unfold browser_close_.
  eapply returns_bind; [apply returns_emit | intros _ _].
  apply returns_fulfilled.
  destruct wasProvided; [discriminate | ].
  destruct (debugOf options); [discriminate | ]. exact Hcatch.
Qed.

(** An exception of the [try] block is answered by the failure response
    of the [catch] block. *)
Lemma GoogleSearch_exception_is_caught E headless wasProvided browser context page st e st1 :
  GoogleSearch.tryBlock host q options E headless wasProvided browser context page st
    = (Throws e, st1) ->
  wasProvided || debugOf options || is_fulfilled (browser_close_catch E) = true ->
  fst (GoogleSearch.tryStatement host q options E headless wasProvided browser context page
         st)
  = Returns (inl (failure q e)).
Proof.
  intros Hthrows Hcatch. unfold GoogleSearch.tryStatement, try_catch. rewrite Hthrows.
  destruct (GoogleSearch_catchBlock_returns E wasProvided browser e Hcatch st1)
    as (r & st' & Hrun & ->).
  now rewrite Hrun.
Qed.

(** A failure to save the state, after the results were extracted,
    replaces the results by the failure response. *)
Lemma GoogleSearch_persistence_failure_is_caught E headless wasProvided browser context page
    st results st1 e st2 :
  GoogleSearch.tryBlock_search q options E headless wasProvided browser context page st
    = (Returns (inl results), st1) ->
  GoogleSearch.noSaveState' options = false ->
  saveBrowserState host (storageState E) context (GoogleSearch.stateFile' options) st1
    = (Throws e, st2) ->
  wasProvided || debugOf options || is_fulfilled (browser_close_catch E) = true ->
  fst (GoogleSearch.tryStatement host q options E headless wasProvided browser context page
         st)
  = Returns (inl (failure q e)).
Proof.
  intros Hsearch Hsave Hthrows Hcatch.
  apply GoogleSearch_exception_is_caught with (st1 := st2); [ | exact Hcatch].
  unfold GoogleSearch.tryBlock. rewrite (bind_of_Returns _ _ _ _ _ Hsearch).
  unfold GoogleSearch.tryBlock_finish. rewrite Hsave. cbn [negb]. rewrite when_true.
  now apply bind_of_Throws.
Qed.





End GoogleSearchExit.




(** C7, the claim as stated fails: when the snapshot cannot be written,
    the sidecar is not written either, and the query returns the failure
    response in place of the three results it had extracted; when the
    sidecar cannot be written, the snapshot is on disk and the query
    returns the failure response all the same. *)
Lemma googleSearch_persistence_failure_drops_results :
  (fst (GoogleSearch.googleSearch Sample.host (fun _ => Sample.snapshotFails) "rocq"
          noOptions None 2 (Sample.start Sample.emptyFS))
   = Returns (mkResponse "rocq"
                [mkResult "Search failed" "" "Error: ENOSPC: no space left on device"]) /\
   forallb not_writeFile
     (trace (snd (GoogleSearch.googleSearch Sample.host (fun _ => Sample.snapshotFails)
                    "rocq" noOptions None 2 (Sample.start Sample.emptyFS)))) = true) /\
  (fst (GoogleSearch.googleSearch Sample.host (fun _ => Sample.smooth) "rocq"
          noOptions None 2 (Sample.start Sample.sidecarReadOnlyFS))
   = Returns (mkResponse "rocq"
                [mkResult "Search failed" "" "Error: EACCES: permission denied"]) /\
   file (fs (snd (GoogleSearch.googleSearch Sample.host (fun _ => Sample.smooth) "rocq"
                    noOptions None 2 (Sample.start Sample.sidecarReadOnlyFS))))
        "./browser-state.json" = Some "{}").
Proof. repeat split. Qed.

(** C7, as amended: [saveBrowserState] writes the snapshot first and the
    sidecar second and handles no error.  When the snapshot cannot be
    written it throws and the sidecar is not written; the sidecar is
    written only after the snapshot was.  In [performSearch] of
    [src/services/googleSearch.ts] the call is inside the [try] block:
    when it throws after the results were extracted, the [catch] block
    returns the failure response in place of the results, and the error
    goes no further. *)
Theorem persistence_failure_is_caught host q options E :
  (forall e context stateFile,
     emits not_writeFile (saveBrowserState host (Rejected e) context stateFile) /\
     ensures (saveBrowserState host (Rejected e) context stateFile) (fun _ => False)) /\
  (forall r context stateFile st,
     exists evs,
       extends st (snd (saveBrowserState host r context stateFile st)) evs /\
       (In (WriteFileSync (fingerprintFileOf stateFile)) evs ->
        is_fulfilled r = true /\ In (StorageState context stateFile) evs)) /\
  (forall headless wasProvided browser context page st results st1 e st2,
     GoogleSearch.tryBlock_search q options E headless wasProvided browser context page st
       = (Returns (inl results), st1) ->
     GoogleSearch.noSaveState' options = false ->
     saveBrowserState host (storageState E) context (GoogleSearch.stateFile' options) st1
       = (Throws e, st2) ->
     wasProvided || debugOf options || is_fulfilled (browser_close_catch E) = true ->
     fst (GoogleSearch.tryStatement host q options E headless wasProvided browser context
            page st)
     = Returns (inl (failure q e))).
Proof.
  split; [ | split].
  - intros. apply saveBrowserState_snapshot_first.
  - intros. apply saveBrowserState_sidecar_second.
  - intros. eapply GoogleSearch_persistence_failure_is_caught; eassumption.
Qed.

(** The theorem on a search whose snapshot cannot be written. *)
Lemma persistence_failure_is_caught_witness :
  fst (GoogleSearch.tryStatement Sample.host "rocq" noOptions Sample.snapshotFails true
         false 0%nat 1%nat 2%nat (Sample.start Sample.emptyFS))
  = Returns (inl (failure "rocq" Sample.diskFull)).
Proof.
  apply (proj2 (proj2 (persistence_failure_is_caught Sample.host "rocq" noOptions
                         Sample.snapshotFails)))
    with (results := [mkResult "First" "https://a.example/" "one";
                      mkResult "Second" "https://b.example/" "two";
                      mkResult "Third" "https://c.example/" "three"])
         (st1 := snd (GoogleSearch.tryBlock_search "rocq" noOptions Sample.snapshotFails
                        true false 0%nat 1%nat 2%nat (Sample.start Sample.emptyFS)))
         (st2 := snd (saveBrowserState Sample.host (storageState Sample.snapshotFails)
                        1%nat (GoogleSearch.stateFile' noOptions)
                        (snd (GoogleSearch.tryBlock_search "rocq" noOptions
                                Sample.snapshotFails true false 0%nat 1%nat 2%nat
                                (Sample.start Sample.emptyFS)))));
    reflexivity.
Defined.


(** ** Failures inside a batch *)

Lemma returns_try_finally {A : Type} (m : M A) (f : M unit) (P : A -> Prop) :
  returns m P -> returns f (fun _ => True) -> returns (try_finally m f) P.
Proof.
  intros Hm Hf st. destruct (Hm st) as (a & st1 & Hrun & Ha).
  unfold try_finally. rewrite Hrun.
  destruct (Hf st1) as ([] & st2 & Hrun2 & _).
  exists a, st2. split; [ | exact Ha].
  now rewrite (bind_of_Returns f (fun _ => ret a) st1 tt st2 Hrun2).
Qed.

Lemma returns_Promise_all {A B : Type} (R : A -> B -> Prop) (f : A -> nat -> M B)
    (arr : list A) :
  (forall x index, returns (f x index) (R x)) ->
  forall index, returns (Promise_all (mapi_from index f arr)) (Forall2 R arr).
Proof.
  intros Hf. induction arr as [ | x rest IH]; intros index st; cbn [mapi_from Promise_all].
  - exists [], st. split; [reflexivity | constructor].
  - destruct (Hf x index st) as (b & st1 & Hrun & Hb). rewrite Hrun.
    destruct (IH (S index) st1) as (bs & st2 & Hrun2 & Hbs). rewrite Hrun2.
    exists (b :: bs), st2. split; [reflexivity | now constructor].
Qed.

Section GoogleSearchContained.

Variable host : Host.
Variable W : nat -> Engine.
Variable q : string.
Variable options : SearchOptions.
Variable existingBrowser : option Handle.

Let T : Q := GoogleSearch.timeout' options.

Hypothesis timeout_set : Qeq_bool T 0 = false.

Lemma GoogleSearch_tryStatement_returns E headless wasProvided browser context page :
  is_fulfilled (browser_close_catch E) = true ->
  returns
    (GoogleSearch.tryStatement host q options E headless wasProvided browser context page)
    (fun r =>
       match r with
       | inl response => response_of q (GoogleSearch.limit' options) response
       | inr force => headless = true /\ force = wasProvided
       end).
Proof.
  intro Hcatch. unfold GoogleSearch.tryStatement.
  apply returns_try_catch.
  - apply (GoogleSearch_tryBlock_ends host q options Settled). exact timeout_set.
  - eapply ensures_weaken; [apply GoogleSearch_tryBlock_ensures | ].
    intros [response | force]; [ | auto]. intros [Hq Hres]. split; auto.
  - intro e. eapply returns_weaken; [apply GoogleSearch_catchBlock_returns | ].
    + rewrite Hcatch. apply orb_true_r.
    + intros r ->. split; [reflexivity | left; eauto].
Qed.

Lemma GoogleSearch_performSearch_step_returns storageState fuel attempt headless force :
  attempt_contained T (W attempt) = true ->
  (headless = true ->
   forall f, returns
     (GoogleSearch.performSearch host W q options existingBrowser storageState fuel
        (S attempt) false f)
     (response_of q (GoogleSearch.limit' options))) ->
  returns
    (GoogleSearch.performSearch host W q options existingBrowser storageState (S fuel)
       attempt headless force)
    (response_of q (GoogleSearch.limit' options)).
Proof.
  unfold attempt_contained, session_opens. rewrite !andb_true_iff.
  intros [[[[[Hlaunch Hctx] Hctx'] Hpage] Hpage'] Hcatch] Hself.
  cbn [orb] in Hlaunch.
  cbn [GoogleSearch.performSearch]. fold T.
  returns_steps.
  eapply returns_bind with (Q := fun _ => True); [ | intros browser _].
  { destruct (if _ : bool then existingBrowser else None).
    - returns_steps. now apply returns_ret.
    - unfold launchBrowser. returns_steps. now apply returns_ret. }
  eapply returns_bind with (Q := fun _ => True); [ | intros ? _].
  { unfold Part003.resolveContextOptions.
    eapply returns_bind; [apply returns_get_savedState | intros s _].
    destruct (fingerprint s); [now apply returns_ret | apply returns_set_savedState]. }
  eapply returns_bind with (Q := fun _ => True); [ | intros context _].
  { unfold Part003.setupContext, browser_newContext. returns_steps. now apply returns_ret. }
  eapply returns_bind with (Q := fun _ => True); [ | intros page _].
  { unfold setupPage. returns_steps. now apply returns_ret. }
  eapply returns_bind; [apply GoogleSearch_tryStatement_returns, Hcatch | ].
  intros [response | f] Hr.
  - now apply returns_ret.
  - destruct Hr as [Hheadless _]. now apply Hself.
Qed.

Hypothesis contained : forall attempt, attempt_contained T (W attempt) = true.

Lemma GoogleSearch_performSearch_returns storageState fuel attempt headless force :
  returns
    (GoogleSearch.performSearch host W q options existingBrowser storageState (S (S fuel))
       attempt headless force)
    (response_of q (GoogleSearch.limit' options)).
Proof.
  apply GoogleSearch_performSearch_step_returns; [apply contained | intros _ f].
  apply GoogleSearch_performSearch_step_returns; [apply contained | discriminate].
Qed.

Lemma GoogleSearch_googleSearch_returns fuel :
  returns (GoogleSearch.googleSearch host W q options existingBrowser (S (S fuel)))
          (response_of q (GoogleSearch.limit' options)).
Proof.
  unfold GoogleSearch.googleSearch.
  eapply returns_bind; [apply returns_loadSavedState | intros loaded _].
  eapply returns_bind; [apply returns_set_savedState | intros _ _].
  apply GoogleSearch_performSearch_returns.
Qed.

End GoogleSearchContained.

Lemma multiGoogleSearch_returns host BW fuel queries options :
  queries <> [] ->
  Qeq_bool (GoogleSearch.timeout' options) 0 = false ->
  isSome (in_time (timeoutOr options * 2) (batch_launch BW)) = true ->
  debugOf options || is_fulfilled (batch_close BW) = true ->
  (forall index attempt,
     attempt_contained (GoogleSearch.timeout' options) (query_world BW index attempt)
     = true) ->
  returns (GoogleSearch.multiGoogleSearch host BW (S (S fuel)) (Some queries) options)
          (Forall2 (fun q r => response_of q (GoogleSearch.limit' options) r) queries).
Proof.
  intros Hqueries HT Hlaunch Hclose Hcontained.
  unfold GoogleSearch.multiGoogleSearch.
  destruct queries as [ | q0 rest]; [congruence | ].
  cbn [noQueries List.length Nat.eqb queriesOf].
  eapply returns_bind; [apply returns_logger | intros _ _].
  eapply returns_bind with (Q := fun _ => True); [ | intros browser _].
  { unfold launchBrowser. returns_steps. now apply returns_ret. }
  apply returns_try_finally.
  - unfold mapi. apply returns_Promise_all. intros q index.
    apply (GoogleSearch_googleSearch_returns host (query_world BW index) q
             (GoogleSearch.searchOptionsAt options index) (Some browser) HT
             (Hcontained index) fuel).
  - apply returns_when. intro Hdebug. unfold browser_close_.
    eapply returns_bind; [apply returns_emit | intros _ _].
    apply returns_fulfilled.
    destruct (debugOf options); [discriminate | exact Hclose].
Qed.




(** On that batch the first response is the failure response and the
    second holds the results of its page. *)
Example batch_with_one_failure :
  fst (GoogleSearch.multiGoogleSearch Sample.host Sample.firstFails 2
         (Some ["rocq"; "coq"]) noOptions (Sample.start Sample.emptyFS))
  = Returns
      [mkResponse "rocq" [mkResult "Search failed" "" "Error: Could not find search box"];
       mkResponse "coq"
         [mkResult "First" "https://a.example/" "one";
          mkResult "Second" "https://b.example/" "two";
          mkResult "Third" "https://c.example/" "three"]].
Proof. reflexivity. Qed.

(** ** The state files of a batch *)

Section StateFiles.

Local Open Scope string_scope.

Lemma append_nil_r s : s ++ "" = s.
Proof. induction s as [ | c s IH]; simpl; [reflexivity | now rewrite IH]. Qed.


Lemma append_inj_l s t u : s ++ t = s ++ u -> t = u.
Proof. induction s as [ | c s IH]; simpl; intro H; [exact H | injection H; auto]. Qed.


Lemma string_of_uint_digits d : all_digits (NilEmpty.string_of_uint d) = true.
Proof. induction d; simpl; auto. Qed.



Lemma prefix_head a p b s : String.prefix (String a p) (String b s) = true -> a = b.
Proof. simpl. destruct (ascii_dec a b); [auto | discriminate]. Qed.

Lemma prefix_other a p b s : a <> b -> String.prefix (String a p) (String b s) = false.
Proof. intro H. simpl. destruct (ascii_dec a b); [contradiction | reflexivity]. Qed.




Lemma includes_cons c s p :
  JS.includes (String c s) p = String.prefix p (String c s) || JS.includes s p.
Proof. reflexivity. Qed.

Lemma replace_cons c s p r :
  JS.replace (String c s) p r =
  if String.prefix p (String c s) then r ++ JS.drop (String.length p) (String c s)
  else String c (JS.replace s p r).
Proof. reflexivity. Qed.

(** Without occurrence of the pattern, [replace] changes nothing. *)
Lemma replace_absent p r : forall s, JS.includes s p = false -> JS.replace s p r = s.
Proof.
  induction s as [ | c s IH]; intro H.
  - simpl in *. rewrite orb_false_r in H. now rewrite H.
  - rewrite includes_cons in H. apply orb_false_iff in H. destruct H as [Hp Hs].
    rewrite replace_cons, Hp, (IH Hs). reflexivity.
Qed.



(** A path with an occurrence of [.json] differs from every sidecar path
    derived from it. *)
Lemma sidecar_differs x y : forall s,
  JS.includes s ".json" = true -> s ++ x <> fingerprintFileOf s ++ y.
Proof.
  unfold fingerprintFileOf. induction s as [ | c s IH]; intro H; [discriminate | ].
  rewrite includes_cons in H. rewrite replace_cons.
  destruct (String.prefix ".json" (String c s)) eqn:Hp.
  - apply prefix_head in Hp. subst c. simpl. discriminate.
  - simpl in H. simpl. intro Heq. injection Heq as Heq. exact (IH H Heq).
Qed.



Lemma is_digit_dot : is_digit "." = false.
Proof. reflexivity. Qed.

Lemma is_digit_dash : is_digit "-" = false.
Proof. reflexivity. Qed.



End StateFiles.




Section GoogleSearchFiles.

Variable host : Host.
Variable W : nat -> Engine.
Variable q : string.
Variable options : SearchOptions.
Variable existingBrowser : option Handle.





End GoogleSearchFiles.




(** * Further properties of the code *)

(** ** The host configuration *)

(** X1: [getHostMachineConfig] of [unnamed/part_003] maps the time zone
    offset of the host to one of six zones.  The first range that holds
    wins: the range of Asia/Shanghai runs from -599 to -480 and comes
    first, so Asia/Tokyo is chosen from -600 down only, and the offset of
    Japan, -540, gives Asia/Shanghai.  Every offset outside the five
    ranges gives America/New_York. *)
Theorem getHostMachineConfig_timezone host userLocale :
  let offset := getTimezoneOffset host in
  let zone := timezoneId (Part003.getHostMachineConfig host userLocale) in
  (zone = "Asia/Shanghai" <-> (-600 < offset <= -480)%Z) /\
  (zone = "Asia/Tokyo" <-> (offset <= -600)%Z) /\
  (zone = "Asia/Bangkok" <-> (-480 < offset <= -420)%Z) /\
  (zone = "Europe/London" <-> (-60 < offset <= 0)%Z) /\
  (zone = "Europe/Berlin" <-> (0 < offset <= 60)%Z) /\
  (zone = "America/New_York" <-> (-420 < offset <= -60)%Z \/ (60 < offset)%Z).
Proof.
  cbv zeta. unfold Part003.getHostMachineConfig. cbn [timezoneId].
  generalize (getTimezoneOffset host). intro offset.
  rewrite !Z.gtb_ltb.
  assert (Hcases : (offset <= -600 \/ -600 < offset <= -480 \/ -480 < offset <= -420 \/
                    -420 < offset <= -60 \/ -60 < offset <= 0 \/ 0 < offset <= 60 \/
                    60 < offset)%Z) by lia.
  destruct Hcases as [H | [H | [H | [H | [H | [H | H]]]]]];
    repeat match goal with
           | |- context [(?a <=? ?b)%Z] =>
               first [ rewrite (proj2 (Z.leb_le a b)) by lia
                     | rewrite (proj2 (Z.leb_gt a b)) by lia ]
           | |- context [(?a <? ?b)%Z] =>
               first [ rewrite (proj2 (Z.ltb_lt a b)) by lia
                     | rewrite (proj2 (Z.ltb_ge a b)) by lia ]
           end;
    cbn [andb];
    repeat match goal with
           | |- context [if ?b then _ else _] => destruct b
           end;
    repeat split; intros; try discriminate; try reflexivity; lia.
Qed.

Lemma or_else_truthy x d : JS.truthy d = true -> JS.truthy (JS.or_else x d) = true.
Proof.
  intro Hd. unfold JS.or_else. destruct x as [s | ]; [ | exact Hd].
  destruct (JS.truthy s) eqn:Hs; [exact Hs | exact Hd].
Qed.

(** X2: the locale of the host configuration is never the empty string,
    in [unnamed/part_003] and in [src/utils/browser.ts] alike, and both
    compute the same: the locale passed by the caller when it is not
    empty, else the environment variable [LANG] when it is set and not
    empty, else en-US.  An empty locale or an empty [LANG] counts as
    missing. *)
Theorem getHostMachineConfig_locale host userLocale :
  fp_locale (BrowserTs.getHostMachineConfig host userLocale)
    = fp_locale (Part003.getHostMachineConfig host userLocale) /\
  fp_locale (Part003.getHostMachineConfig host userLocale) <> "" /\
  fp_locale (Part003.getHostMachineConfig host userLocale)
    = match userLocale, env_LANG host with
      | Some (String c l), _ => String c l
      | _, Some (String c l) => String c l
      | _, _ => "en-US"
      end.
Proof.
  split; [reflexivity | split].
  - apply truthy_nonempty. cbn [Part003.getHostMachineConfig fp_locale].
    apply or_else_truthy, or_else_truthy. reflexivity.
  - cbn [Part003.getHostMachineConfig fp_locale]. unfold JS.or_else.
    destruct userLocale as [[ | c l] | ]; destruct (env_LANG host) as [[ | c' l'] | ];
      reflexivity.
Qed.

(** ** The extraction callbacks *)

Lemma substring_length_le s : forall start len,
  String.length (String.substring start len s) <= len.
Proof.
  induction s as [ | c s IH]; intros [ | start] [ | len]; simpl; try lia;
    try apply IH.
  specialize (IH 0 len). lia.
Qed.

Lemma In_firstn {A : Type} (x : A) n : forall l, In x (firstn n l) -> In x l.
Proof.
  induction n as [ | n IH]; intros [ | a l] H; simpl in *; try contradiction.
  destruct H as [H | H]; [now left | right; now apply IH].
Qed.

Lemma In_slice0 {A : Type} (x : A) e l : In x (JS.slice0 e l) -> In x l.
Proof. apply In_firstn. Qed.

Lemma or_else_empty_cases x :
  (exists s, x = Some s /\ s <> "" /\ JS.or_else x "" = s) \/ JS.or_else x "" = "".
Proof.
  destruct x as [[ | c s] | ]; [now right | | now right].
  left. exists (String c s). repeat split. discriminate.
Qed.

(** X3: every result of the generic fallback comes from an anchor of the
    page whose [href] attribute starts with http and does not contain
    google.com/: its title is the text of that anchor, its link is the
    [href] property of that anchor (the filter reads the attribute, the
    result carries the property), and its snippet has at most 200
    characters. *)
Theorem extractFallback_from_outbound_anchors maxResults elements :
  Forall
    (fun r =>
       exists el,
         In el elements /\
         JS.startsWith (JS.or_else (getAttribute el "href") "") "http" = true /\
         JS.includes (JS.or_else (getAttribute el "href") "") "google.com/" = false /\
         textContent el = Some (title r) /\
         href el = Some (link r) /\
         String.length (snippet r) <= 200)
    (extractFallback maxResults elements).
Proof.
  apply Forall_forall. intros r Hr. unfold extractFallback in Hr.
  apply filter_In in Hr. destruct Hr as [Hr Hvalid].
  apply in_map_iff in Hr. destruct Hr as (el & <- & Hel).
  apply In_slice0, filter_In in Hel. destruct Hel as [Hel Hout].
  unfold outbound in Hout. apply andb_true_iff in Hout. destruct Hout as [Hhttp Hgoogle].
  apply negb_true_iff in Hgoogle.
  unfold valid in Hvalid. apply andb_true_iff in Hvalid. destruct Hvalid as [Ht Hl].
  exists el. repeat split; try assumption.
  - cbn [fallbackItem title] in *.
    destruct (or_else_empty_cases (textContent el)) as [(s & -> & _ & ->) | Hempty];
      [reflexivity | ].
    rewrite Hempty in Ht. discriminate.
  - cbn [fallbackItem link] in *. destruct (href el); [reflexivity | discriminate].
  - cbn [fallbackItem snippet].
    destruct (or_else_empty_cases
                (option_map (JS.str_slice0 200) (bind_opt (parentElement el) textContent)))
      as [(s & Hs & _ & ->) | ->]; [ | simpl; lia].
    destruct (bind_opt (parentElement el) textContent) as [text | ]; [ | discriminate].
    injection Hs as <-. apply substring_length_le.
Qed.

(** X4: a structural strategy reads the first [maxResults] containers
    and no other: containers beyond them never contribute a result, also
    when some of the first are dropped for want of a title or a link. *)
Theorem extractStructural_reads_first maxResults titleSelector snippetSelector elements :
  (0 <= maxResults)%Z ->
  extractStructural maxResults titleSelector snippetSelector elements
  = extractStructural maxResults titleSelector snippetSelector
      (firstn (Z.to_nat maxResults) elements).
Proof.
  intro Hmax. unfold extractStructural. do 2 f_equal.
  unfold JS.slice0.
  destruct (Z.ltb_spec maxResults 0) as [Hneg | _]; [lia | ].
  rewrite length_firstn.
  rewrite firstn_firstn. f_equal. lia.
Qed.

(** The theorem on a page whose first container has neither title nor
    link: with a limit of 1 the strategy yields nothing, although three
    containers with title and link follow. *)
Lemma extractStructural_reads_first_witness :
  extractStructural 1 "h3" ".VwiC3b" (Sample.leaf None None :: Sample.threeHits) = [].
Proof.
  rewrite (extractStructural_reads_first 1 "h3" ".VwiC3b"
             (Sample.leaf None None :: Sample.threeHits));
    [reflexivity | lia].
Defined.

(** ** The waits for the results *)

(** X5: the loop that waits for a result selector never throws, whatever
    the engine answers: a wait that fails or times out is swallowed and
    the next selector is tried.  It adds nothing to the trace and leaves
    the state as it was, so a page on which no result selector ever
    shows does not fail the search: the extraction runs after it. *)
Theorem waitForResults_never_throws E T selectors st :
  (forall e, fst (waitForResults E T selectors st) <> Throws e) /\
  fst (waitForResults E T selectors st) <> OutOfFuel /\
  snd (waitForResults E T selectors st) = st.
Proof.
  induction selectors as [ | selector rest IH]; cbn [waitForResults].
  - repeat split; discriminate.
  - unfold try_catch, bind, timed, settle, throw, ret.
    destruct (waitForSelector E selector) as [ms [[] | e] | ];
      repeat match goal with
             | |- context [if ?b then _ else _] => destruct b
             end;
      cbn [fst snd]; try exact IH; repeat split; discriminate.
Qed.

(** ** Saving and loading the state *)

Lemma includes_nonempty s p : JS.includes s (String "." p) = true -> JS.truthy s = true.
Proof. destruct s; [discriminate | reflexivity]. Qed.

Lemma fingerprintFileOf_differs s :
  JS.includes s ".json" = true -> fingerprintFileOf s <> s.
Proof.
  intros H Heq. apply (sidecar_differs "" "" s H).
  now rewrite !append_nil_r.
Qed.

(** X6: what [saveBrowserState] saves, [loadSavedState] loads.  On a
    state file whose path contains .json, when the directory of the state
    file exists or can be made, the state file and its sidecar can be
    written and the JSON text of the saved state parses back to it,
    [saveBrowserState] returns, and [loadSavedState] then returns the
    path of the state file and the saved state that was held, and the
    state file holds the snapshot of the engine. *)
Theorem saveBrowserState_then_loadSavedState host blob context stateFile st :
  JS.includes stateFile ".json" = true ->
  JSON_parse host (JSON_stringify host (savedState st)) = Some (savedState st) ->
  present (fs st) (path_dirname host stateFile)
    || writable (fs st) (path_dirname host stateFile) = true ->
  writable (fs st) stateFile = true ->
  writable (fs st) (fingerprintFileOf stateFile) = true ->
  exists st1 st2,
    saveBrowserState host (Fulfilled blob) context stateFile st = (Returns tt, st1) /\
    loadSavedState host stateFile st1 = (Returns (Some stateFile, savedState st), st2) /\
    file (fs st2) stateFile = Some blob /\
    file (fs st2) (fingerprintFileOf stateFile)
      = Some (JSON_stringify host (savedState st)).
Proof.
  intros Hjson Hcodec Hdir Hstate Hside.
  pose proof (fingerprintFileOf_differs stateFile Hjson) as Hne.
  pose proof (includes_nonempty _ _ Hjson) as Htruthy.
  assert (Heqb : String.eqb stateFile (fingerprintFileOf stateFile) = false)
    by (apply String.eqb_neq; congruence).
  unfold saveBrowserState, loadSavedState, context_storageState, existsSync, mkdirSync,
    writeFileSync, readFileSync, when, logger, emit, get_fs, set_fs, get_savedState,
    settle, try_catch, bind, ret, throw, present in *.
  cbn [fs trace savedState next].
  destruct (file (fs st) (path_dirname host stateFile)) eqn:Hd1;
    [ | destruct (dir (fs st) (path_dirname host stateFile)) eqn:Hd2];
    cbn [negb]; cbn [fs trace savedState next];
    rewrite ?Hd1, ?Hd2 in Hdir; cbn [orb] in Hdir; rewrite ?Hdir;
    cbn [fs trace savedState next mkdir write writable file dir];
    rewrite Hstate; cbn [fs trace savedState next mkdir write writable file dir];
    rewrite Hside; cbn [fs trace savedState next mkdir write writable file dir];
    eexists _, _; (split; [reflexivity | ]);
    repeat (progress (rewrite ?Heqb, ?String.eqb_refl, ?Htruthy, ?Hcodec;
                      cbn [fs trace savedState next mkdir write writable file dir]));
    repeat split;
    cbn [fs trace savedState next mkdir write writable file dir];
    rewrite ?Heqb, ?String.eqb_refl; reflexivity.
Qed.

(** The theorem on the default state file, in an empty directory. *)
Lemma saveBrowserState_then_loadSavedState_witness :
  exists st1 st2,
    saveBrowserState Sample.host (Fulfilled "snapshot") 1%nat "./browser-state.json"
      (Sample.start Sample.emptyFS) = (Returns tt, st1) /\
    loadSavedState Sample.host "./browser-state.json" st1
      = (Returns (Some "./browser-state.json", emptySavedState), st2) /\
    file (fs st2) "./browser-state.json" = Some "snapshot" /\
    file (fs st2) (fingerprintFileOf "./browser-state.json") = Some "{}".
Proof.
  apply (saveBrowserState_then_loadSavedState Sample.host "snapshot" 1%nat
           "./browser-state.json" (Sample.start Sample.emptyFS));
    reflexivity.
Defined.

(** X7: the sidecar path is the state file path with its first .json
    replaced, so a state file whose path does not contain .json is its
    own sidecar.  When [saveBrowserState] returns on such a path, the
    state file holds the JSON text of the saved state: the snapshot the
    engine wrote to it has been overwritten. *)
Theorem saveBrowserState_without_json host blob context stateFile st st1 :
  JS.includes stateFile ".json" = false ->
  saveBrowserState host (Fulfilled blob) context stateFile st = (Returns tt, st1) ->
  fingerprintFileOf stateFile = stateFile /\
  file (fs st1) stateFile = Some (JSON_stringify host (savedState st)).
Proof.
  intros Hjson Hrun.
  assert (Hsame : fingerprintFileOf stateFile = stateFile)
    by (apply replace_absent, Hjson).
  split; [exact Hsame | ].
  unfold saveBrowserState in Hrun. rewrite Hsame in Hrun.
  unfold context_storageState, existsSync, mkdirSync, writeFileSync, when, emit,
    get_fs, set_fs, get_savedState, settle, bind, ret, throw in Hrun.
  cbn [fs trace savedState next] in Hrun.
  repeat match type of Hrun with
         | context [if ?b then _ else _] => destruct b
         | context [match ?x with Some _ => _ | None => _ end] => destruct x
         end;
    cbn [fs trace savedState next mkdir write writable file dir negb] in Hrun;
    try discriminate Hrun;
    injection Hrun as <-; cbn [fs write file]; now rewrite String.eqb_refl.
Qed.

(** The theorem on the state file [state], in an empty directory: after
    the save the file holds the JSON text of the saved state, and not the
    snapshot. *)
Lemma saveBrowserState_without_json_witness :
  fingerprintFileOf "state" = "state" /\
  file (fs (snd (saveBrowserState Sample.host (Fulfilled "snapshot") 1%nat "state"
                   (Sample.start Sample.emptyFS))))
       "state" = Some "{}".
Proof.
  apply (saveBrowserState_without_json Sample.host "snapshot" 1%nat "state"
           (Sample.start Sample.emptyFS));
    reflexivity.
Defined.

(** ** Searches that do not persist *)

Section NoSaveState.

Variable host : Host.
Variable W : nat -> Engine.
Variable q : string.
Variable options : SearchOptions.
Variable existingBrowser : option Handle.

Hypothesis no_save : noSaveState options = Some true.

Lemma GoogleSearch_performSearch_writes_nothing storageState fuel :
  forall attempt headless force,
    emits writes_nothing
      (GoogleSearch.performSearch host W q options existingBrowser storageState fuel attempt
         headless force).
Proof.
  induction fuel as [ | fuel IH]; intros attempt headless force;
    cbn [GoogleSearch.performSearch]; [emits_auto | ].
  unfold GoogleSearch.tryStatement, GoogleSearch.tryBlock, GoogleSearch.tryBlock_finish,
    GoogleSearch.tryBlock_search, GoogleSearch.catchBlock, GoogleSearch.noSaveState'.
  rewrite no_save. cbn [negb when].
  repeat first [apply IH | progress emits_auto].
Qed.

Lemma Part002_performSearch_writes_nothing fuel :
  forall attempt headless force,
    emits writes_nothing
      (Part002.performSearch host W q options existingBrowser fuel attempt headless force).
Proof.
  induction fuel as [ | fuel IH]; intros attempt headless force;
    cbn [Part002.performSearch]; [emits_auto | ].
  unfold Part002.tryStatement, Part002.tryBlock, Part002.tryBlock_finish,
    Part002.tryBlock_search, Part002.handleBlocked, Part002.catchBlock,
    Part002.noSaveState', BrowserTs.setupContext, loadSavedState.
  rewrite no_save. cbn [negb when].
  repeat first [apply IH | progress emits_auto].
Qed.

End NoSaveState.

(** X8: with [noSaveState] set, a search writes nothing: in either
    implementation [googleSearch] makes no call of
    [context.storageState], of [fs.mkdirSync] or of [fs.writeFileSync],
    however the search goes and however it ends. *)
Theorem noSaveState_writes_nothing host W q options existingBrowser fuel :
  noSaveState options = Some true ->
  emits writes_nothing (GoogleSearch.googleSearch host W q options existingBrowser fuel) /\
  emits writes_nothing (Part002.googleSearch host W q options existingBrowser fuel).
Proof.
  intro Hno. split.
  - unfold GoogleSearch.googleSearch.
    apply emits_bind; [apply emits_loadSavedState; reflexivity | intro loaded].
    apply emits_bind; [emits_auto | intro].
    now apply GoogleSearch_performSearch_writes_nothing.
  - unfold Part002.googleSearch. now apply Part002_performSearch_writes_nothing.
Qed.

(** The theorem on a search that does not persist. *)
Lemma noSaveState_writes_nothing_witness :
  emits writes_nothing
    (GoogleSearch.googleSearch Sample.host (fun _ => Sample.smooth) "rocq"
       (mkOptions None None None (Some true) None None) None 2) /\
  emits writes_nothing
    (Part002.googleSearch Sample.host (fun _ => Sample.smooth) "rocq"
       (mkOptions None None None (Some true) None None) None 2).
Proof.
  apply (noSaveState_writes_nothing Sample.host (fun _ => Sample.smooth) "rocq"
           (mkOptions None None None (Some true) None None) None 2).
  reflexivity.
Defined.

(** ** The session of a visible attempt *)

(** X9: a visible attempt never closes its page or its context.  In
    both implementations a call of [performSearch] with [headless] false
    makes no call of [page.close()] and none of [context.close()],
    however it ends: the two are called by a headless attempt before its
    restart and nowhere else, and the restart is visible. *)
Theorem visible_attempt_keeps_session host W q options existingBrowser storageState fuel :
  forall attempt force,
    emits keeps_session
      (GoogleSearch.performSearch host W q options existingBrowser storageState fuel attempt
         false force) /\
    emits keeps_session
      (Part002.performSearch host W q options existingBrowser fuel attempt false force).
Proof.
  induction fuel as [ | fuel IH]; intros attempt force; split;
    cbn [GoogleSearch.performSearch Part002.performSearch]; try solve [emits_auto].
  - unfold GoogleSearch.tryStatement, GoogleSearch.tryBlock, GoogleSearch.tryBlock_finish,
      GoogleSearch.tryBlock_search, GoogleSearch.catchBlock.
    repeat first [apply IH | progress emits_auto].
  - unfold Part002.tryStatement, Part002.tryBlock, Part002.tryBlock_finish,
      Part002.tryBlock_search, Part002.handleBlocked, Part002.catchBlock,
      BrowserTs.setupContext, loadSavedState.
    repeat first [apply IH | progress emits_auto].
Qed.

(** ** The first save of [unnamed/part_002] *)

Lemma fails_with_bind {A B : Type} (m : M A) (k : A -> M B) P :
  fails_with m P -> fails_with (bind m k) P.
Proof.
  intros Hm st. destruct (Hm st) as (e & st' & Hrun & He). exists e, st'.
  split; [now apply bind_of_Throws | exact He].
Qed.

Lemma fails_with_after {A B : Type} (m : M A) (k : A -> M B) (Q : A -> Prop) P :
  returns m Q -> (forall a, Q a -> fails_with (k a) P) -> fails_with (bind m k) P.
Proof.
  intros Hm Hk st. destruct (Hm st) as (a & st1 & Hrun & Ha).
  rewrite (bind_of_Returns m k st a st1 Hrun). apply Hk, Ha.
Qed.

Lemma saveBrowserState_rejected host e context stateFile :
  fails_with (saveBrowserState host (Rejected e) context stateFile)
             (fun e' => e' = e \/ e' = EACCES).
Proof.
  intro st.
  unfold saveBrowserState, context_storageState, existsSync, mkdirSync, when, emit,
    get_fs, set_fs, settle, bind, ret, throw.
  cbn [fs trace savedState next].
  repeat match goal with
         | |- context [if ?b then _ else _] => destruct b
         | |- context [match ?x with Some _ => _ | None => _ end] => destruct x
         end;
    cbn [negb fs trace savedState next]; eexists _, _; split; try reflexivity; auto.
Qed.

(** X10: in [unnamed/part_002] the state is saved a first time before
    the [try] block of [performSearch], and a failure of that save is
    not caught.  When the session of the first attempt opens, the state
    is to be saved and the engine cannot write the snapshot,
    [googleSearch] throws: the error of the engine, or the error of
    [fs.mkdirSync] when the directory of the state file was missing and
    could not be made.  No response is returned. *)
Theorem Part002_first_save_failure_escapes host W q options existingBrowser fuel e :
  Part002.noSaveState' options = false ->
  session_opens (Part002.timeout' options) (isSome existingBrowser) (W 0%nat) = true ->
  storageState_early (W 0%nat) = Rejected e ->
  fails_with (Part002.googleSearch host W q options existingBrowser (S fuel))
             (fun e' => e' = e \/ e' = EACCES).
Proof.
  intros Hsave Hopens Hearly.
  unfold session_opens in Hopens. rewrite !andb_true_iff in Hopens.
  destruct Hopens as [[[[Hlaunch Hctx] Hctx'] Hpage] Hpage'].
  unfold Part002.googleSearch. cbn [Part002.performSearch].
  rewrite Hsave, Hearly. cbn [negb when].
  eapply fails_with_after; [apply returns_emit | intros _ _].
  eapply fails_with_after with (Q := fun _ => True); [ | intros browser _].
  { destruct existingBrowser as [b | ]; cbn [andb negb isSome orb] in *.
    - returns_steps. now apply returns_ret.
    - unfold launchBrowser. returns_steps. now apply returns_ret. }
  eapply fails_with_after with (Q := fun _ => True); [ | intros context _].
  { unfold BrowserTs.setupContext.
    eapply returns_bind; [apply returns_loadSavedState | intros loaded _].
    eapply returns_bind; [apply returns_set_savedState | intros _ _].
    eapply returns_bind with (Q := fun _ => True); [ | intros _ _].
    { unfold BrowserTs.resolveContextOptions.
      eapply returns_bind; [apply returns_get_savedState | intros s _].
      destruct (fingerprint s); [now apply returns_ret | apply returns_set_savedState]. }
    unfold browser_newContext. returns_steps. now apply returns_ret. }
  eapply fails_with_after with (Q := fun _ => True); [ | intros page _].
  { unfold setupPage. returns_steps. now apply returns_ret. }
  eapply fails_with_after; [apply returns_get_savedState | intros s _].
  eapply fails_with_after; [apply returns_set_savedState | intros _ _].
  apply fails_with_bind, saveBrowserState_rejected.
Qed.

(** The theorem on a search whose first save fails for want of space. *)
Lemma Part002_first_save_failure_escapes_witness :
  fails_with
    (Part002.googleSearch Sample.host (fun _ => MoreSamples.earlySnapshotFails) "rocq"
       noOptions None 2)
    (fun e' => e' = Sample.diskFull \/ e' = EACCES).
Proof.
  apply (Part002_first_save_failure_escapes Sample.host
           (fun _ => MoreSamples.earlySnapshotFails) "rocq" noOptions None 1
           Sample.diskFull);
    reflexivity.
Defined.

(** ** The context options *)

Lemma Part003Options_effect devices host locale deviceName' st :
  snd (Part003Options.resolveContextOptions devices host locale deviceName' st)
  = snd (Part003.resolveContextOptions host locale st).
Proof.
  unfold Part003Options.resolveContextOptions, Part003.resolveContextOptions,
    get_savedState, set_savedState, bind, ret.
  destruct (fingerprint (savedState st)); reflexivity.
Qed.

Lemma BrowserTsOptions_effect devices host st :
  snd (BrowserTsOptions.resolveContextOptions devices host st)
  = snd (BrowserTs.resolveContextOptions host st).
Proof.
  unfold BrowserTsOptions.resolveContextOptions, BrowserTs.resolveContextOptions,
    get_savedState, set_savedState, bind, ret.
  destruct (fingerprint (savedState st)); [reflexivity | ].
  unfold BrowserTs.getHostMachineConfig.
  cbn [snd option_map spread spread_opt fixedOptions fingerprintObject String.eqb
       Ascii.eqb Bool.eqb deviceName fp_locale timezoneId colorScheme reducedMotion
       forcedColors stringOf].
  destruct ((getHours host >=? 19)%Z || (getHours host <? 7)%Z); reflexivity.
Qed.

Ltac by_key key :=
  unfold layered, spread, spread_opt, fixedOptions, fingerprintObject, emptyObject;
  repeat match goal with
         | |- context [String.eqb key ?k] => destruct (String.eqb key k)
         end;
  try reflexivity.

(** X11: the options [resolveContextOptions] returns carry the
    fingerprint that the saved state holds once it has returned.  In
    [unnamed/part_003] and in [src/utils/browser.ts] alike the call
    returns, leaves the saved domain as it was, leaves a fingerprint in
    the saved state (the one that was there, or else one made from the
    host configuration), and the options are the descriptor of a device,
    overlaid with that fingerprint, overlaid with the fixed literal: so
    [isMobile] and [hasTouch] are false whatever the device, and the
    locale, the time zone and the colour scheme are those of the
    fingerprint.  The two differ in the device: with a saved fingerprint
    [unnamed/part_003] takes the descriptor of the device it is passed
    and [src/utils/browser.ts] that of the device the fingerprint names;
    without one both take Desktop Chrome. *)
Theorem context_options_carry_fingerprint devices host locale deviceName' st :
  (exists options fp st1,
     Part003Options.resolveContextOptions devices host locale deviceName' st
       = (Returns options, st1) /\
     fingerprint (savedState st1) = Some fp /\
     googleDomain (savedState st1) = googleDomain (savedState st) /\
     match fingerprint (savedState st) with
     | Some saved =>
         fp = saved /\ forall key, options key = layered devices deviceName' fp key
     | None =>
         fp = Part003.getHostMachineConfig host (Some locale) /\
         forall key, options key = layered devices "Desktop Chrome" fp key
     end) /\
  (exists options fp st1,
     BrowserTsOptions.resolveContextOptions devices host st = (Returns options, st1) /\
     fingerprint (savedState st1) = Some fp /\
     googleDomain (savedState st1) = googleDomain (savedState st) /\
     match fingerprint (savedState st) with
     | Some saved =>
         fp = saved /\
         forall key,
           options key
           = layered devices (JS.or_else (Some (deviceName saved)) "Desktop Chrome") fp key
     | None =>
         fp = BrowserTs.getHostMachineConfig host None /\
         forall key, options key = layered devices "Desktop Chrome" fp key
     end).
Proof.
  split.
  - unfold Part003Options.resolveContextOptions, get_savedState, set_savedState, bind, ret.
    destruct (fingerprint (savedState st)) as [saved | ] eqn:Hfp.
    + eexists _, saved, st.
      split; [reflexivity | split; [exact Hfp | split; [reflexivity | split]]];
        reflexivity.
    + eexists _, _, _.
      split; [reflexivity | split; [reflexivity | split; [reflexivity | split]]];
        [reflexivity | ].
      intro key. cbn [Part003.getHostMachineConfig deviceName].
      destruct (String.eqb "Desktop Chrome" deviceName') eqn:Heq.
      * apply String.eqb_eq in Heq. subst deviceName'. reflexivity.
      * reflexivity.
  - unfold BrowserTsOptions.resolveContextOptions, get_savedState, set_savedState, bind, ret.
    destruct (fingerprint (savedState st)) as [saved | ] eqn:Hfp.
    + eexists _, saved, st.
      split; [reflexivity | split; [exact Hfp | split; [reflexivity | split]]];
        [reflexivity | ].
      intro key. cbn [option_map BrowserTs.getHostMachineConfig deviceName].
      by_key key.
    + eexists _, (BrowserTs.getHostMachineConfig host None), _.
      split; [reflexivity | split; [ | split; [reflexivity | split; [reflexivity | ]]]].
      * unfold BrowserTs.getHostMachineConfig.
        cbn [snd option_map spread spread_opt fixedOptions fingerprintObject String.eqb
             Ascii.eqb Bool.eqb deviceName fp_locale timezoneId colorScheme reducedMotion
             forcedColors stringOf JS.or_else JS.truthy savedState fingerprint].
        destruct ((getHours host >=? 19)%Z || (getHours host <? 7)%Z); reflexivity.
      * intro key. cbn [option_map BrowserTs.getHostMachineConfig deviceName JS.or_else
                        JS.truthy].
        by_key key.
Qed.

(** X12: the device [getDeviceName] draws at random is used only when
    the saved fingerprint names a device the engine does not know.  With
    a saved fingerprint of a known device the context options of an
    attempt are built on that device.  Without a saved fingerprint they
    are built on Desktop Chrome whatever is drawn:
    [resolveContextOptions] then replaces the descriptor of any other
    device by that of the device of the host configuration. *)
Theorem random_device_is_not_used devices host locale draw st :
  match fingerprint (savedState st) with
  | Some fp => JS.truthy (deviceName fp) && isSome (devices (deviceName fp))
  | None => true
  end = true ->
  contextOptionsOf devices host locale draw st
  = Part003Options.resolveContextOptions devices host locale
      match fingerprint (savedState st) with
      | Some fp => deviceName fp
      | None => "Desktop Chrome"
      end
      st.
Proof.
  intro Hknown.
  unfold contextOptionsOf, getDeviceName, get_savedState, bind.
  destruct (fingerprint (savedState st)) as [fp | ] eqn:Hfp.
  - rewrite Hknown. reflexivity.
  - unfold Part003Options.resolveContextOptions, get_savedState, set_savedState, bind, ret.
    rewrite Hfp. cbn [Part003.getHostMachineConfig deviceName].
    destruct (String.eqb "Desktop Chrome" _) eqn:Heq; [ | reflexivity].
    apply String.eqb_eq in Heq. rewrite <- Heq. reflexivity.
Qed.

(** The theorem on a first search, with no saved fingerprint, that draws
    Desktop Safari. *)
Lemma random_device_is_not_used_witness :
  nth (3 mod List.length deviceList) deviceList "" = "Desktop Safari" /\
  contextOptionsOf MoreSamples.devices Sample.host "en-US" 3 (Sample.start Sample.emptyFS)
  = Part003Options.resolveContextOptions MoreSamples.devices Sample.host "en-US"
      "Desktop Chrome" (Sample.start Sample.emptyFS).
Proof.
  split; [reflexivity | ].
  apply (random_device_is_not_used MoreSamples.devices Sample.host "en-US" 3
           (Sample.start Sample.emptyFS)).
  reflexivity.
Defined.

(** On that search the context gets the user agent of Desktop Chrome. *)
Example random_device_user_agent :
  match
    fst (contextOptionsOf MoreSamples.devices Sample.host "en-US" 3
           (Sample.start Sample.emptyFS))
  with
  | Returns options => options "userAgent" = Some (VEngine 1)
  | _ => False
  end.
Proof. reflexivity. Qed.

(** ** The command line *)

Lemma filter_none {A : Type} (f : A -> bool) (l : list A) :
  (forall x, In x l -> f x = false) -> filter f l = [].
Proof.
  induction l as [ | a l IH]; intro H; simpl; [reflexivity | ].
  rewrite (H a) by now left. apply IH. intros x Hx. apply H. now right.
Qed.

(** X13: without a query the command does not search.  When every
    argument after the script path starts with two dashes (or there is
    none), [main] writes the usage line, hands 1 to [process.exit] and
    leaves the state as it was: the batch is not called, nothing is
    logged, no browser is launched. *)
Theorem main_without_query search argv st :
  (forall arg, In arg (skipn 2 argv) -> JS.startsWith arg "--" = true) ->
  Cli.main search argv st
  = (Returns (Cli.mkRun [Cli.ConsoleLog Cli.usage] (Some 1%nat)), st).
Proof.
  intro Hflags. unfold Cli.main, Cli.args.
  rewrite filter_none; [reflexivity | ].
  intros arg Harg. now rewrite (Hflags arg Harg).
Qed.

(** The theorem on a command line of flags. *)
Lemma main_without_query_witness :
  Cli.main (GoogleSearch.multiGoogleSearch Sample.host Sample.smoothBatch 2)
    ["node"; "cli.js"; "--debug"; "--log"] (Sample.start Sample.emptyFS)
  = (Returns (Cli.mkRun [Cli.ConsoleLog Cli.usage] (Some 1%nat)),
     Sample.start Sample.emptyFS).
Proof.
  apply (main_without_query
           (GoogleSearch.multiGoogleSearch Sample.host Sample.smoothBatch 2)
           ["node"; "cli.js"; "--debug"; "--log"] (Sample.start Sample.emptyFS)).
  intros arg [<- | [<- | []]]; reflexivity.
Defined.

(** X14: [main] never throws, whatever the batch does and whatever the
    command line: when it ends it returns, and [process.exit] was then
    called with 1 or not at all. *)
Theorem main_never_throws search argv st :
  match fst (Cli.main search argv st) with
  | Returns run => Cli.exitCode run = None \/ Cli.exitCode run = Some 1%nat
  | Throws _ => False
  | Pending | OutOfFuel => True
  end.
Proof.
  unfold Cli.main.
  destruct (List.length (Cli.args argv) =? 0)%nat; [now right | ].
  unfold when, logger, emit, try_catch, bind, ret.
  destruct (Cli.isLogMode argv);
    match goal with
    | |- context [search ?a ?o ?s] => destruct (search a o s) as [[results | e' | | ] st1]
    end; cbn [fst Cli.exitCode]; auto.
Qed.

(** X15: an error of the batch ends the command with code 1.  When
    there is a query and the batch throws, [main] returns: it has
    written the error with [console.error] under the text "Error during
    search:", and no result, and it has called [process.exit] with 1. *)
Theorem main_reports_batch_error search argv st e st1 :
  Cli.args argv <> [] ->
  search (Some (Cli.args argv))
    (mkOptions None None None None None (Some (Cli.isDebugMode argv)))
    (snd (when (Cli.isLogMode argv)
            (logger info ("[CLI] Starting search for: " ++ Cli.join ", " (Cli.args argv)))
            st))
  = (Throws e, st1) ->
  Cli.main search argv st
  = (Returns (Cli.mkRun [Cli.ConsoleError "Error during search:" e] (Some 1%nat)), st1).
Proof.
  intros Hargs Hrun. unfold Cli.main.
  destruct (Cli.args argv) as [ | a rest] eqn:Ha; [congruence | ].
  cbn [List.length Nat.eqb].
  unfold try_catch, bind.
  destruct (Cli.isLogMode argv); cbn [when] in *.
  - unfold logger, emit in *. cbn [snd] in Hrun. now rewrite Hrun.
  - unfold ret in *. cbn [snd] in Hrun. now rewrite Hrun.
Qed.

(** The theorem on a batch whose browser cannot be launched. *)
Lemma main_reports_batch_error_witness :
  fst (Cli.main (GoogleSearch.multiGoogleSearch Sample.host MoreSamples.noBrowser 2)
         ["node"; "cli.js"; "rocq"] (Sample.start Sample.emptyFS))
  = Returns (Cli.mkRun [Cli.ConsoleError "Error during search:" MoreSamples.noChromium]
               (Some 1%nat)).
Proof.
  rewrite (main_reports_batch_error
             (GoogleSearch.multiGoogleSearch Sample.host MoreSamples.noBrowser 2)
             ["node"; "cli.js"; "rocq"] (Sample.start Sample.emptyFS)
             MoreSamples.noChromium
             (snd (GoogleSearch.multiGoogleSearch Sample.host MoreSamples.noBrowser 2
                     (Some ["rocq"]) (mkOptions None None None None None (Some false))
                     (Sample.start Sample.emptyFS))));
    [reflexivity | discriminate | reflexivity].
Defined.

Lemma returns_try {A : Type} (m : M A) (h : JS.Error -> M A) (P : A -> Prop) :
  returns m P -> returns (try_catch m h) P.
Proof.
  intros Hm st. destruct (Hm st) as (a & st1 & Hrun & Ha).
  exists a, st1. unfold try_catch. rewrite Hrun. auto.
Qed.

(** X16: a query that fails does not make the command fail.  The
    command passes no timeout, so every wait of the batch of
    [src/services/googleSearch.ts] is bounded by the default of 60000.
    When there is a query, the browser of the batch is launched within
    twice that time, every session opens and the closing calls succeed,
    [main] returns without calling [process.exit]: it has printed one
    response for each query, in the order of the command line, each the
    response of its query, be it results of the page (ten at most) or
    the response of a failed search. *)
Theorem main_prints_every_response host BW fuel argv :
  Cli.args argv <> [] ->
  isSome (in_time (60000 * 2) (batch_launch BW)) = true ->
  Cli.isDebugMode argv || is_fulfilled (batch_close BW) = true ->
  (forall index attempt, attempt_contained 60000 (query_world BW index attempt) = true) ->
  returns (Cli.main (GoogleSearch.multiGoogleSearch host BW (S (S fuel))) argv)
    (fun run =>
       Cli.exitCode run = None /\
       exists responses,
         Forall2 (fun q r => response_of q 10 r) (Cli.args argv) responses /\
         Cli.console run = List.concat (map (Cli.print_response argv) responses)).
Proof.
  intros Hargs Hlaunch Hclose Hcontained. unfold Cli.main.
  destruct (Cli.args argv) as [ | a rest] eqn:Ha; [congruence | ].
  cbn [List.length Nat.eqb].
  eapply returns_bind with (Q := fun _ => True); [ | intros _ _].
  { apply returns_when. intros _. apply returns_logger. }
  apply returns_try.
  eapply returns_bind.
  - apply (multiGoogleSearch_returns host BW fuel (a :: rest)
             (mkOptions None None None None None (Some (Cli.isDebugMode argv))));
      [discriminate | reflexivity | exact Hlaunch | exact Hclose | exact Hcontained].
  - intros responses Hresponses. apply returns_ret.
    split; [reflexivity | ]. exists responses. split; [exact Hresponses | ].
    cbn [Cli.console]. reflexivity.
Qed.

(** The theorem on a command line of two queries of which the first
    finds no search box. *)
Lemma main_prints_every_response_witness :
  returns
    (Cli.main (GoogleSearch.multiGoogleSearch Sample.host Sample.firstFails 2)
       ["node"; "cli.js"; "rocq"; "coq"; "--log"])
    (fun run =>
       Cli.exitCode run = None /\
       exists responses,
         Forall2 (fun q r => response_of q 10 r) ["rocq"; "coq"] responses /\
         Cli.console run
         = List.concat
             (map (Cli.print_response ["node"; "cli.js"; "rocq"; "coq"; "--log"])
                  responses)).
Proof.
  apply (main_prints_every_response Sample.host Sample.firstFails 0
           ["node"; "cli.js"; "rocq"; "coq"; "--log"]).
  - discriminate.
  - reflexivity.
  - reflexivity.
  - intros [ | index] attempt; reflexivity.
Defined.

(** What the command prints on that command line. *)
Example main_prints_failure :
  fst (Cli.main (GoogleSearch.multiGoogleSearch Sample.host Sample.firstFails 2)
         ["node"; "cli.js"; "rocq"; "coq"; "--log"] (Sample.start Sample.emptyFS))
  = Returns
      (Cli.mkRun
         [Cli.ConsoleLog (Cli.newline ++ "=== Results for: rocq ===");
          Cli.ConsoleLog "1. Search failed";
          Cli.ConsoleLog "   ";
          Cli.ConsoleLog ("   Error: Could not find search box" ++ Cli.newline);
          Cli.ConsoleLog (Cli.newline ++ "=== Results for: coq ===");
          Cli.ConsoleLog "1. First";
          Cli.ConsoleLog "   https://a.example/";
          Cli.ConsoleLog ("   one" ++ Cli.newline);
          Cli.ConsoleLog "2. Second";
          Cli.ConsoleLog "   https://b.example/";
          Cli.ConsoleLog ("   two" ++ Cli.newline);
          Cli.ConsoleLog "3. Third";
          Cli.ConsoleLog "   https://c.example/";
          Cli.ConsoleLog ("   three" ++ Cli.newline)]
         None).
Proof. reflexivity. Qed.

(** ** The response of the first navigation *)

Lemma isBlocked_split pageUrl response :
  GoogleSearch.isBlocked pageUrl response
  = negb (GoogleSearch.challengeFree pageUrl)
    || match response with
       | Some r => negb (GoogleSearch.challengeFree r)
       | None => false
       end.
Proof.
  unfold GoogleSearch.isBlocked, GoogleSearch.challengeFree.
  induction GoogleSearch.captchaPatterns as [ | p rest IH]; simpl.
  - destruct response; reflexivity.
  - rewrite IH. destruct response as [r | ];
      destruct (JS.includes pageUrl p); try destruct (JS.includes r p); simpl;
      rewrite ?orb_false_r, ?orb_true_r, ?negb_andb; try reflexivity;
      destruct (forallb _ rest), (forallb _ rest); reflexivity.
Qed.

Lemma awaitNavigation_in_time pred T navs :
  unsolved_within pred T navs = false ->
  returns (awaitNavigation pred T navs) (fun _ => True).
Proof.
  unfold unsolved_within, awaitNavigation, timed.
  destruct (find _ navs) as [[ms url] | ]; [ | discriminate].
  intro H. apply negb_false_iff in H. rewrite H, orb_true_r.
  eapply returns_weaken; [apply returns_settle | auto].
Qed.

(** X17: in [src/services/googleSearch.ts] the check for a challenge
    reads the page URL and the URL of the response of the first
    navigation, and that response is never renewed.  So when the first
    response was a challenge, the check made after the query was
    submitted finds a challenge again, whatever the page shows by then.
    In visible mode: the challenge at the home page is solved in time,
    the search box is found, the query is typed and the results load,
    and still the attempt waits for one more navigation; when none
    comes within twice the timeout, the search ends with the failure
    response of a timeout. *)
Theorem stale_response_blocks_again host q options E wasProvided browser context page r :
  Qeq_bool (GoogleSearch.timeout' options) 0 = false ->
  in_time (GoogleSearch.timeout' options) (goto E) = Some (Some r) ->
  GoogleSearch.challengeFree r = false ->
  unsolved_within GoogleSearch.challengeFree (GoogleSearch.timeout' options * 2)
    (home_navs E) = false ->
  finds_input E searchInputSelectors = true ->
  submits E = true ->
  isSome (in_time (GoogleSearch.timeout' options) (loadState_results E)) = true ->
  unsolved_within GoogleSearch.challengeFree (GoogleSearch.timeout' options * 2)
    (solve_navs E) = true ->
  wasProvided || debugOf options || is_fulfilled (browser_close_catch E) = true ->
  returns (GoogleSearch.tryStatement host q options E false wasProvided browser context page)
          (fun response => response = inl (failure q TimeoutError)).
Proof.
  intros HT Hgoto Hstale Hhome Hinput Hsubmits Hload Hnavs Hcatch.
  assert (Hblocked : forall url, GoogleSearch.isBlocked url (Some r) = true)
    by (intro url; rewrite isBlocked_split, Hstale; apply orb_true_r).
  unfold GoogleSearch.tryStatement.
  apply returns_caught with (e := TimeoutError).
  - unfold GoogleSearch.tryBlock. apply throws_bind.
    unfold GoogleSearch.tryBlock_search.
    repeat (eapply throws_after; [solve [returns_head] | intros ? _]).
    eapply throws_after; [apply (returns_in_time _ (goto E) (Some r) Hgoto) | ].
    intros response ->. rewrite !Hblocked.
    eapply throws_after with (Q := fun restart => restart = false).
    { repeat (eapply returns_bind; [solve [returns_head] | intros ? _]).
      eapply returns_bind; [apply awaitNavigation_in_time, Hhome | intros ? _].
      now apply returns_ret. }
    intros restart ->.
    eapply throws_after; [solve [returns_head] | intros ? _].
    eapply throws_after; [apply returns_findSearchInput, Hinput | intros found ->].
    cbn [negb].
    repeat (eapply throws_after; [solve [returns_head] | intros ? _]).
    apply throws_bind.
    repeat (eapply throws_after; [solve [returns_head] | intros ? _]).
    apply throws_bind, awaitNavigation_times_out; [ | exact Hnavs].
    now apply Qeq_bool_double.
  - unfold GoogleSearch.catchBlock.
    eapply returns_bind; [apply returns_logger | intros _ _].
    eapply returns_bind; [ | intros _ _; now apply returns_ret].
    apply returns_when. intro Hclose. unfold browser_close_.
    eapply returns_bind; [apply returns_emit | intros _ _].
    apply returns_fulfilled.
    destruct wasProvided; [discriminate | ].
    destruct (debugOf options); [discriminate | ]. exact Hcatch.
Qed.

(** The theorem on a challenge at the home page that is solved after
    five seconds: the results page is a page of results, and the search
    fails. *)
Lemma stale_response_blocks_again_witness :
  GoogleSearch.challengeFree (url_results MoreSamples.solvedAtHome) = true /\
  returns
    (GoogleSearch.tryStatement Sample.host "rocq" Sample.visible MoreSamples.solvedAtHome
       false false 0%nat 1%nat 2%nat)
    (fun response => response = inl (failure "rocq" TimeoutError)).
Proof.
  split; [reflexivity | ].
  apply (stale_response_blocks_again Sample.host "rocq" Sample.visible
           MoreSamples.solvedAtHome false 0%nat 1%nat 2%nat Sample.sorryPage);
    reflexivity.
Defined.

(** ** Launches and pace *)

Lemma emits_Promise_all {A : Type} P (promises : list (M A)) :
  (forall p, In p promises -> emits P p) -> emits P (Promise_all promises).
Proof.
  induction promises as [ | p rest IH]; intros Hall st; cbn [Promise_all].
  - exists []. split; [unfold extends; now rewrite app_nil_r | reflexivity].
  - destruct (Hall p (or_introl eq_refl) st) as (evs1 & Hext1 & HP1).
    destruct (p st) as [r st1]. cbn [snd] in Hext1.
    destruct (IH (fun p' Hp' => Hall p' (or_intror Hp')) st1) as (evs2 & Hext2 & HP2).
    destruct (Promise_all rest st1) as [rs st2]. cbn [snd] in *.
    exists (evs1 ++ evs2). split.
    + eapply extends_trans; eassumption.
    + rewrite forallb_app, HP1, HP2. reflexivity.
Qed.

Lemma In_mapi_from {A B : Type} (f : A -> nat -> B) (arr : list A) :
  forall i y, In y (mapi_from i f arr) -> exists x index, y = f x index.
Proof.
  induction arr as [ | x rest IH]; intros i y H; simpl in H; [contradiction | ].
  destruct H as [<- | H]; [eauto | exact (IH _ _ H)].
Qed.

Section Visible.

Variable host : Host.
Variable W : nat -> Engine.
Variable q : string.
Variable options : SearchOptions.
Variable existingBrowser : option Handle.

Lemma GoogleSearch_visible_launches storageState fuel :
  forall attempt force,
    emits launches_visible
      (GoogleSearch.performSearch host W q options existingBrowser storageState fuel attempt
         false force).
Proof.
  induction fuel as [ | fuel IH]; intros attempt force;
    cbn [GoogleSearch.performSearch]; [emits_auto | ].
  unfold GoogleSearch.tryStatement, GoogleSearch.tryBlock, GoogleSearch.tryBlock_finish,
    GoogleSearch.tryBlock_search, GoogleSearch.catchBlock.
  repeat first [apply IH | progress emits_auto].
Qed.

Lemma Part002_visible_launches fuel :
  forall attempt force,
    emits launches_visible
      (Part002.performSearch host W q options existingBrowser fuel attempt false force).
Proof.
  induction fuel as [ | fuel IH]; intros attempt force;
    cbn [Part002.performSearch]; [emits_auto | ].
  unfold Part002.tryStatement, Part002.tryBlock, Part002.tryBlock_finish,
    Part002.tryBlock_search, Part002.handleBlocked, Part002.catchBlock,
    BrowserTs.setupContext, loadSavedState.
  repeat first [apply IH | progress emits_auto].
Qed.

End Visible.

(** X18: with [options.debug] set no browser is ever launched headless.
    In both implementations every [chromium.launch] of a batch, for the
    browser the queries share and for the browser a restarted attempt
    launches for itself, has [headless] false. *)
Theorem debug_launches_visible host BW fuel queries options :
  debugOf options = true ->
  emits launches_visible (GoogleSearch.multiGoogleSearch host BW fuel queries options) /\
  emits launches_visible (Part002.multiGoogleSearch host BW fuel queries options).
Proof.
  intro Hdebug. split.
  - unfold GoogleSearch.multiGoogleSearch. rewrite Hdebug. cbn [negb when].
    destruct (noQueries queries); [emits_auto | ].
    apply emits_bind; [emits_auto | intro].
    apply emits_bind; [emits_auto | intro browser].
    apply emits_try_finally; [ | emits_auto].
    apply emits_Promise_all. intros p Hp.
    apply In_mapi_from in Hp. destruct Hp as (query & index & ->).
    unfold GoogleSearch.googleSearch.
    replace (debugOf (GoogleSearch.searchOptionsAt options index)) with true
      by (symmetry; exact Hdebug).
    apply emits_bind; [apply emits_loadSavedState; reflexivity | intro loaded].
    apply emits_bind; [emits_auto | intro]. apply GoogleSearch_visible_launches.
  - unfold Part002.multiGoogleSearch. rewrite Hdebug. cbn [negb when].
    destruct (noQueries queries); [emits_auto | ].
    apply emits_bind; [emits_auto | intro].
    apply emits_bind; [emits_auto | intro browser].
    apply emits_try_finally; [ | emits_auto].
    apply emits_Promise_all. intros p Hp.
    apply In_mapi_from in Hp. destruct Hp as (query & index & ->).
    unfold Part002.googleSearch.
    replace (debugOf (Part002.searchOptionsAt options index)) with true
      by (symmetry; exact Hdebug).
    apply Part002_visible_launches.
Qed.

(** The theorem on a batch of two queries in debug mode. *)
Lemma debug_launches_visible_witness :
  emits launches_visible
    (GoogleSearch.multiGoogleSearch Sample.host Sample.smoothBatch 2
       (Some ["rocq"; "coq"]) Sample.visible) /\
  emits launches_visible
    (Part002.multiGoogleSearch Sample.host Sample.smoothBatch 2
       (Some ["rocq"; "coq"]) Sample.visible).
Proof.
  apply (debug_launches_visible Sample.host Sample.smoothBatch 2 (Some ["rocq"; "coq"])
           Sample.visible).
  reflexivity.
Defined.

Lemma getRandomDelay_range draw min max :
  min <= max -> min <= getRandomDelay draw min max <= max.
Proof.
  intro H. unfold getRandomDelay.
  pose proof (Nat.mod_upper_bound draw (max - min + 1)). lia.
Qed.

Lemma paced_type page text draw : paced (TypeText page text (getRandomDelay draw 10 30)) = true.
Proof.
  cbn [paced]. pose proof (getRandomDelay_range draw 10 30).
  apply andb_true_iff. split; apply Nat.leb_le; lia.
Qed.

Lemma paced_pause page draw : paced (WaitForTimeout page (getRandomDelay draw 100 300)) = true.
Proof.
  cbn [paced]. pose proof (getRandomDelay_range draw 100 300).
  apply andb_true_iff. split; apply Nat.leb_le; lia.
Qed.

Section Pace.

Variable host : Host.
Variable W : nat -> Engine.
Variable q : string.
Variable options : SearchOptions.
Variable existingBrowser : option Handle.

Lemma GoogleSearch_performSearch_paced storageState fuel :
  forall attempt headless force,
    emits paced
      (GoogleSearch.performSearch host W q options existingBrowser storageState fuel attempt
         headless force).
Proof.
  induction fuel as [ | fuel IH]; intros attempt headless force;
    cbn [GoogleSearch.performSearch]; [emits_auto | ].
  unfold GoogleSearch.tryStatement, GoogleSearch.tryBlock, GoogleSearch.tryBlock_finish,
    GoogleSearch.tryBlock_search, GoogleSearch.catchBlock.
  repeat first [apply IH | apply paced_type | apply paced_pause | progress emits_auto].
Qed.

Lemma Part002_performSearch_paced fuel :
  forall attempt headless force,
    emits paced
      (Part002.performSearch host W q options existingBrowser fuel attempt headless force).
Proof.
  induction fuel as [ | fuel IH]; intros attempt headless force;
    cbn [Part002.performSearch]; [emits_auto | ].
  unfold Part002.tryStatement, Part002.tryBlock, Part002.tryBlock_finish,
    Part002.tryBlock_search, Part002.handleBlocked, Part002.catchBlock,
    BrowserTs.setupContext, loadSavedState.
  repeat first [apply IH | apply paced_type | apply paced_pause | progress emits_auto].
Qed.

End Pace.

(** X19: the query is typed at a human pace.  In both implementations
    every call of [page.keyboard.type] of a search has a delay between
    keys of 10 to 30 milliseconds, and every [page.waitForTimeout] pauses
    for 100 to 300 milliseconds, both ends included, whatever the random
    generator draws. *)
Theorem typing_is_paced host W q options existingBrowser fuel :
  emits paced (GoogleSearch.googleSearch host W q options existingBrowser fuel) /\
  emits paced (Part002.googleSearch host W q options existingBrowser fuel).
Proof.
  split.
  - unfold GoogleSearch.googleSearch.
    apply emits_bind; [apply emits_loadSavedState; reflexivity | intro loaded].
    apply emits_bind; [emits_auto | intro]. apply GoogleSearch_performSearch_paced.
  - apply Part002_performSearch_paced.
Qed.

(** ** The path of the sidecar *)

Lemma prefix_decompose p : forall s,
  String.prefix p s = true -> s = (p ++ JS.drop (String.length p) s)%string.
Proof.
  induction p as [ | a p IH]; intros s H; [reflexivity | ].
  destruct s as [ | b s]; [discriminate | ].
  pose proof (prefix_head _ _ _ _ H) as ->.
  simpl in H. destruct (ascii_dec b b) as [_ | Hne]; [ | contradiction].
  simpl. f_equal. now apply IH.
Qed.

(** No sidecar path starts with [fingerprint.json]: the first [.json]
    of a sidecar path follows [-fingerprint]. *)
Lemma fingerprintFileOf_not_bare t rest :
  fingerprintFileOf t <> ("fingerprint.json" ++ rest)%string.
Proof.
  unfold fingerprintFileOf. intro H.
  do 16 (destruct t as [ | ? t];
         [discriminate H | ];
         rewrite replace_cons in H;
         match type of H with
         | context [String.prefix ".json" ?s] =>
             destruct (String.prefix ".json" s) eqn:?
         end;
         [cbn [append] in H; discriminate H | ];
         cbn [append] in H; injection H as -> H).
  match goal with
  | Hp : String.prefix _ _ = false |- _ =>
      destruct t; vm_compute in Hp; discriminate Hp
  end.
Qed.

Lemma fingerprintFileOf_inj s : forall t,
  fingerprintFileOf s = fingerprintFileOf t -> s = t.
Proof.
  unfold fingerprintFileOf.
  induction s as [ | c s IH]; intros [ | d t] H.
  - reflexivity.
  - rewrite replace_cons in H.
    destruct (String.prefix ".json" (String d t)); discriminate H.
  - rewrite replace_cons in H.
    destruct (String.prefix ".json" (String c s)); discriminate H.
  - rewrite !replace_cons in H.
    destruct (String.prefix ".json" (String c s)) eqn:Hs;
      destruct (String.prefix ".json" (String d t)) eqn:Ht.
    + apply append_inj_l in H.
      rewrite (prefix_decompose _ _ Hs), (prefix_decompose _ _ Ht). now rewrite H.
    + cbn [append] in H. injection H as <- H. symmetry in H.
      now apply fingerprintFileOf_not_bare in H.
    + cbn [append] in H. injection H as -> H.
      now apply fingerprintFileOf_not_bare in H.
    + injection H as -> H. f_equal. now apply IH.
Qed.

(** X20: two different state files never share a sidecar: the paths of
    their sidecars differ.  (The sidecar of one state file may still be
    another state file, and a path without [.json] is its own
    sidecar.) *)
Theorem distinct_state_files_distinct_sidecars s t :
  s <> t -> fingerprintFileOf s <> fingerprintFileOf t.
Proof. intros Hne Heq. apply Hne. now apply fingerprintFileOf_inj. Qed.

(** The theorem on two state files of which the one is the sidecar of
    the other. *)
Lemma distinct_state_files_distinct_sidecars_witness :
  fingerprintFileOf "./state.json" = "./state-fingerprint.json" /\
  fingerprintFileOf "./state.json" <> fingerprintFileOf "./state-fingerprint.json".
Proof.
  split; [reflexivity | ].
  apply (distinct_state_files_distinct_sidecars "./state.json" "./state-fingerprint.json").
  discriminate.
Defined.

(** ** The browser that was provided *)

Lemma spares_ret b {A : Type} (a : A) (Q : A -> Prop) : Q a -> spares b (ret a) Q.
Proof.
  intros HQ st Hst. exists []. cbn [ret fst snd].
  repeat split; [unfold extends; now rewrite app_nil_r | exact Hst | ].
  intros a' H. now injection H as <-.
Qed.

Lemma spares_throw b {A : Type} e (Q : A -> Prop) : spares b (@throw A e) Q.
Proof.
  intros st Hst. exists []. cbn [throw fst snd].
  repeat split; [unfold extends; now rewrite app_nil_r | exact Hst | discriminate].
Qed.

Lemma spares_out_of_fuel b {A : Type} (Q : A -> Prop) : spares b (@out_of_fuel A) Q.
Proof.
  intros st Hst. exists []. cbn [out_of_fuel fst snd].
  repeat split; [unfold extends; now rewrite app_nil_r | exact Hst | discriminate].
Qed.

Lemma spares_bind b {A B : Type} (m : M A) (k : A -> M B) (Q : A -> Prop) (R : B -> Prop) :
  spares b m Q -> (forall a, Q a -> spares b (k a) R) -> spares b (bind m k) R.
Proof.
  intros Hm Hk st Hst. destruct (Hm st Hst) as (evs1 & Hext1 & HP1 & Hnext1 & HQ).
  unfold bind. destruct (m st) as [[a | e | | ] st1]; cbn [fst snd] in *;
    try (exists evs1; repeat split; try assumption; discriminate).
  destruct (Hk a (HQ a eq_refl) st1 Hnext1) as (evs2 & Hext2 & HP2 & Hnext2 & HR).
  exists (evs1 ++ evs2). repeat split; try assumption.
  - eapply extends_trans; eassumption.
  - rewrite forallb_app, HP1, HP2. reflexivity.
Qed.

Lemma spares_try_catch b {A : Type} (m : M A) (h : JS.Error -> M A) (Q : A -> Prop) :
  spares b m Q -> (forall e, spares b (h e) Q) -> spares b (try_catch m h) Q.
Proof.
  intros Hm Hh st Hst. destruct (Hm st Hst) as (evs1 & Hext1 & HP1 & Hnext1 & HQ).
  unfold try_catch. destruct (m st) as [[a | e | | ] st1]; cbn [fst snd] in *;
    try (exists evs1; repeat split; assumption).
  destruct (Hh e st1 Hnext1) as (evs2 & Hext2 & HP2 & Hnext2 & HR).
  exists (evs1 ++ evs2). repeat split; try assumption.
  - eapply extends_trans; eassumption.
  - rewrite forallb_app, HP1, HP2. reflexivity.
Qed.

Lemma spares_weaken b {A : Type} (m : M A) (Q R : A -> Prop) :
  spares b m Q -> (forall a, Q a -> R a) -> spares b m R.
Proof.
  intros Hm HQR st Hst. destruct (Hm st Hst) as (evs & Hext & HP & Hnext & HQ).
  exists evs. repeat split; auto.
Qed.

(** A program that allocates no handle and emits only events that leave
    [b] open. *)
Lemma spares_still b {A : Type} (m : M A) :
  emits (leaves_open b) m -> (forall st, next (snd (m st)) = next st) ->
  spares b m (fun _ => True).
Proof.
  intros Hm Hnext st Hst. destruct (Hm st) as (evs & Hext & HP).
  exists evs. rewrite Hnext. repeat split; assumption.
Qed.

Lemma spares_emit b ev : leaves_open b ev = true -> spares b (emit ev) (fun _ => True).
Proof. intro H. apply spares_still; [now apply emits_emit | reflexivity]. Qed.

Lemma spares_settle b {A : Type} (r : settled A) : spares b (settle r) (fun _ => True).
Proof. apply spares_still; [apply emits_settle | destruct r; reflexivity]. Qed.

Lemma spares_timed b {A : Type} T (c : completion A) : spares b (timed T c) (fun _ => True).
Proof.
  apply spares_still; [apply emits_timed | ].
  intro st. unfold timed. destruct c as [ms [a | e] | ];
    repeat match goal with |- context [if ?x then _ else _] => destruct x end; reflexivity.
Qed.

Lemma spares_get_savedState b : spares b get_savedState (fun _ => True).
Proof. apply spares_still; [apply emits_get_savedState | reflexivity]. Qed.

Lemma spares_set_savedState b s : spares b (set_savedState s) (fun _ => True).
Proof. apply spares_still; [apply emits_set_savedState | reflexivity]. Qed.

Lemma spares_get_fs b : spares b get_fs (fun _ => True).
Proof. apply spares_still; [apply emits_get_fs | reflexivity]. Qed.

Lemma spares_set_fs b f : spares b (set_fs f) (fun _ => True).
Proof. apply spares_still; [apply emits_set_fs | reflexivity]. Qed.

Lemma spares_fresh b : spares b fresh (fun h => b < h).
Proof.
  intros st Hst. exists []. cbn [fresh fst snd next].
  repeat split; [unfold extends; now rewrite app_nil_r | lia | ].
  intros a H. injection H as <-. exact Hst.
Qed.

Lemma spares_when b c (m : M unit) :
  (c = true -> spares b m (fun _ => True)) -> spares b (when c m) (fun _ => True).
Proof. destruct c; cbn [when]; [auto | intros _; now apply spares_ret]. Qed.

Lemma leaves_open_above b h : b < h -> leaves_open b (CloseBrowser h) = true.
Proof. intro H. cbn. apply negb_true_iff, Nat.eqb_neq. lia. Qed.

(** One step of a proof that a program spares a browser. *)
Ltac spares_step :=
  match goal with
  | |- spares _ (bind fresh _) _ =>
      eapply spares_bind; [eapply spares_weaken; [apply spares_fresh | ] | intros ? _];
      [intros; exact I | ]
  | |- spares _ (bind _ _) _ => eapply spares_bind with (Q := fun _ => True); [ | intros ? _]
  | |- spares _ (ret _) _ => apply spares_ret; try exact I
  | |- spares _ (throw _) _ => apply spares_throw
  | |- spares _ out_of_fuel _ => apply spares_out_of_fuel
  | |- spares _ (emit _) _ => apply spares_emit; try reflexivity
  | |- spares _ (logger _ _) _ => apply spares_emit; try reflexivity
  | |- spares _ get_savedState _ => apply spares_get_savedState
  | |- spares _ (set_savedState _) _ => apply spares_set_savedState
  | |- spares _ get_fs _ => apply spares_get_fs
  | |- spares _ (set_fs _) _ => apply spares_set_fs
  | |- spares _ (settle _) _ => apply spares_settle
  | |- spares _ (timed _ _) _ => apply spares_timed
  | |- spares _ (when _ _) _ => apply spares_when; intro
  | |- spares _ (try_catch _ _) _ => apply spares_try_catch; [ | intro]
  | |- spares _ (if ?c then _ else _) _ => destruct c eqn:?
  | |- spares _ (match ?x with _ => _ end) _ => destruct x eqn:?
  end.

Lemma spares_findSearchInput b E selectors :
  spares b (findSearchInput E selectors) (fun _ => True).
Proof.
  induction selectors as [ | selector rest IH]; simpl; repeat spares_step; exact IH.
Qed.

Lemma spares_waitForResults b E T selectors :
  spares b (waitForResults E T selectors) (fun _ => True).
Proof.
  induction selectors as [ | selector rest IH]; simpl; repeat spares_step; exact IH.
Qed.

Lemma spares_structuralStrategies b E maxResults selectors :
  spares b (structuralStrategies E maxResults selectors) (fun _ => True).
Proof.
  induction selectors as [ | selector rest IH]; simpl; repeat spares_step; exact IH.
Qed.

Ltac spares_auto :=
  repeat first
    [ apply spares_findSearchInput
    | apply spares_waitForResults
    | apply spares_structuralStrategies
    | spares_step
    | progress autounfold with steps ].

Lemma spares_launchBrowser b c headless timeout :
  spares b (launchBrowser c headless timeout) (fun browser => b < browser).
Proof.
  unfold launchBrowser.
  eapply spares_bind with (Q := fun _ => True); [apply spares_timed | intros _ _].
  eapply spares_bind; [apply spares_fresh | intros browser Hb].
  eapply spares_bind with (Q := fun _ => True); [now apply spares_emit | intros _ _].
  now apply spares_ret.
Qed.

Section Provided.

Variable host : Host.
Variable W : nat -> Engine.
Variable q : string.
Variable options : SearchOptions.
Variable b : Handle.

Ltac close_own :=
  match goal with
  | H : ?b' < ?h |- leaves_open ?b' (CloseBrowser ?h) = true => now apply leaves_open_above
  end.

Lemma GoogleSearch_tryStatement_spares E headless wasProvided browser context page :
  wasProvided = true \/ b < browser ->
  spares b
    (GoogleSearch.tryStatement host q options E headless wasProvided browser context page)
    (fun _ => True).
Proof.
  unfold GoogleSearch.tryStatement, GoogleSearch.tryBlock, GoogleSearch.tryBlock_finish,
    GoogleSearch.tryBlock_search, GoogleSearch.catchBlock.
  intros [-> | Hb]; cbn [negb andb when]; spares_auto; close_own.
Qed.

Lemma GoogleSearch_performSearch_spares storageState fuel :
  forall attempt headless force,
    spares b
      (GoogleSearch.performSearch host W q options (Some b) storageState fuel attempt
         headless force)
      (fun _ => True).
Proof.
  induction fuel as [ | fuel IH]; intros attempt headless force;
    cbn [GoogleSearch.performSearch]; [apply spares_out_of_fuel | ].
  eapply spares_bind with (Q := fun _ => True); [now apply spares_emit | intros _ _].
  eapply spares_bind with (Q := fun browser => negb force = true \/ b < browser).
  { destruct force; cbn [andb negb].
    - eapply spares_bind with (Q := fun _ => True); [now apply spares_emit | intros _ _].
      eapply spares_weaken; [apply spares_launchBrowser | auto].
    - eapply spares_bind with (Q := fun _ => True); [now apply spares_emit | intros _ _].
      apply spares_ret. now left. }
  intros browser Hbrowser.
  eapply spares_bind with (Q := fun _ => True); [spares_auto | intros _ _].
  eapply spares_bind with (Q := fun _ => True); [spares_auto | intros context _].
  eapply spares_bind with (Q := fun _ => True); [spares_auto | intros page _].
  eapply spares_bind with (Q := fun _ => True).
  - apply GoogleSearch_tryStatement_spares. exact Hbrowser.
  - intros [response | f] _; [now apply spares_ret | apply IH].
Qed.

Lemma Part002_tryStatement_spares self E headless wasProvided browser context page domain :
  (forall f, spares b (self f) (fun _ => True)) ->
  wasProvided = true \/ b < browser ->
  spares b
    (Part002.tryStatement host q options self E headless wasProvided browser context page
       domain)
    (fun _ => True).
Proof.
  intro Hself.
  unfold Part002.tryStatement, Part002.tryBlock, Part002.tryBlock_finish,
    Part002.tryBlock_search, Part002.handleBlocked, Part002.catchBlock.
  intros [-> | Hb]; cbn [negb andb when];
    repeat first [apply Hself | progress spares_auto]; close_own.
Qed.

Lemma Part002_performSearch_spares fuel :
  forall attempt headless force,
    spares b
      (Part002.performSearch host W q options (Some b) fuel attempt headless force)
      (fun _ => True).
Proof.
  induction fuel as [ | fuel IH]; intros attempt headless force;
    cbn [Part002.performSearch]; [apply spares_out_of_fuel | ].
  eapply spares_bind with (Q := fun _ => True); [now apply spares_emit | intros _ _].
  eapply spares_bind with (Q := fun browser => negb force = true \/ b < browser).
  { destruct force; cbn [andb negb].
    - eapply spares_bind with (Q := fun _ => True); [now apply spares_emit | intros _ _].
      eapply spares_weaken; [apply spares_launchBrowser | auto].
    - eapply spares_bind with (Q := fun _ => True); [now apply spares_emit | intros _ _].
      apply spares_ret. now left. }
  intros browser Hbrowser.
  eapply spares_bind with (Q := fun _ => True);
    [unfold BrowserTs.setupContext, loadSavedState; spares_auto | intros context _].
  eapply spares_bind with (Q := fun _ => True); [spares_auto | intros page _].
  eapply spares_bind with (Q := fun _ => True); [spares_auto | intros s _].
  eapply spares_bind with (Q := fun _ => True); [spares_auto | intros _ _].
  eapply spares_bind with (Q := fun _ => True); [spares_auto | intros _ _].
  apply Part002_tryStatement_spares; [intro f; apply IH | exact Hbrowser].
Qed.

End Provided.

Lemma GoogleSearch_googleSearch_spares host W q options b fuel :
  spares b (GoogleSearch.googleSearch host W q options (Some b) fuel) (fun _ => True).
Proof.
  unfold GoogleSearch.googleSearch, loadSavedState.
  eapply spares_bind with (Q := fun _ => True); [spares_auto | intros loaded _].
  eapply spares_bind with (Q := fun _ => True); [spares_auto | intros _ _].
  apply GoogleSearch_performSearch_spares.
Qed.

Lemma Part002_googleSearch_spares host W q options b fuel :
  spares b (Part002.googleSearch host W q options (Some b) fuel) (fun _ => True).
Proof. apply Part002_performSearch_spares. Qed.

(** X21: a search never closes the browser it was given.  In both
    implementations, when [googleSearch] is called with an existing
    browser, no [browser.close()] is called on that browser, however the
    search goes: not at its end, not when it fails, and not by an
    attempt that was restarted, which launches a browser of its own. *)
Theorem provided_browser_is_left_open host W q options b fuel st :
  b < next st ->
  (exists evs,
     extends st (snd (GoogleSearch.googleSearch host W q options (Some b) fuel st)) evs /\
     forallb (leaves_open b) evs = true) /\
  (exists evs,
     extends st (snd (Part002.googleSearch host W q options (Some b) fuel st)) evs /\
     forallb (leaves_open b) evs = true).
Proof.
  intro Hst. split.
  - destruct (GoogleSearch_googleSearch_spares host W q options b fuel st Hst)
      as (evs & Hext & HP & _).
    eauto.
  - destruct (Part002_googleSearch_spares host W q options b fuel st Hst)
      as (evs & Hext & HP & _).
    eauto.
Qed.

(** The theorem on a search with the browser of handle 0, after that
    browser was launched: a challenge at the home page makes the search
    restart in a browser of its own. *)
Lemma provided_browser_is_left_open_witness :
  (exists evs,
     extends (mkState Sample.emptyFS emptySavedState [] 1)
       (snd (GoogleSearch.googleSearch Sample.host Sample.challengedOnce "rocq" noOptions
               (Some 0%nat) 2 (mkState Sample.emptyFS emptySavedState [] 1)))
       evs /\
     forallb (leaves_open 0%nat) evs = true) /\
  (exists evs,
     extends (mkState Sample.emptyFS emptySavedState [] 1)
       (snd (Part002.googleSearch Sample.host Sample.challengedOnce "rocq" noOptions
               (Some 0%nat) 2 (mkState Sample.emptyFS emptySavedState [] 1)))
       evs /\
     forallb (leaves_open 0%nat) evs = true).
Proof.
  apply (provided_browser_is_left_open Sample.host Sample.challengedOnce "rocq" noOptions
           0%nat 2 (mkState Sample.emptyFS emptySavedState [] 1)).
  apply le_n.
Defined.

(** ** The browser of a batch *)






(** ** The domain of a search *)



















Create HintDb quiet_steps.

#[local] Hint Unfold submitQuery saveBrowserState launchBrowser setupPage
  browser_newContext page_close_ context_close_ browser_close_ existsSync
  readFileSync writeFileSync mkdirSync context_storageState awaitNavigation
  Part003.setupContext : quiet_steps.










Section Domain.

Variable host : Host.
Variable W : nat -> Engine.
Variable q : string.
Variable options : SearchOptions.
Variable existingBrowser : option Handle.




End Domain.


(** ** The command line of the server *)

Lemma find_first {A : Type} (f : A -> bool) pre a rest :
  (forall x, In x pre -> f x = false) -> f a = true -> find f (pre ++ a :: rest) = Some a.
Proof.
  intros Hpre Ha. induction pre as [ | x pre IH]; simpl; [now rewrite Ha | ].
  rewrite (Hpre x) by now left. apply IH. intros y Hy. apply Hpre. now right.
Qed.

Lemma find_nothing {A : Type} (f : A -> bool) l :
  (forall x, In x l -> f x = false) -> find f l = None.
Proof.
  intro H. induction l as [ | x l IH]; simpl; [reflexivity | ].
  rewrite (H x) by now left. apply IH. intros y Hy. apply H. now right.
Qed.

Lemma startsWith_app p v : JS.startsWith (p ++ v)%string p = true.
Proof.
  unfold JS.startsWith. induction p as [ | a p IH]; simpl.
  - destruct v; reflexivity.
  - destruct (ascii_dec a a) as [_ | Hne]; [exact IH | contradiction].
Qed.

Lemma split_on_nonempty sep s : split_on sep s <> [].
Proof.
  destruct s as [ | c s]; simpl; [discriminate | ].
  destruct (Ascii.eqb c sep); [discriminate | ].
  destruct (split_on sep s); discriminate.
Qed.

Lemma split_on_without sep s : mem sep s = false -> split_on sep s = [s].
Proof.
  induction s as [ | c s IH]; simpl; [reflexivity | ].
  intro H. apply orb_false_iff in H. destruct H as [Hc Hs].
  rewrite Ascii.eqb_sym, Hc, (IH Hs). reflexivity.
Qed.

(** X24: the host the server listens on is the text between the first
    and the second equals sign of the first argument that starts with
    [--host=]: all of its value when the value has no equals sign, the
    empty text when the value is empty, and never the default then.
    Without such an argument it is localhost. *)
Theorem host_argument pre (v : string) rest :
  (forall arg, In arg pre -> JS.startsWith arg "--host=" = false) ->
  Index.host (pre ++ ("--host=" ++ v)%string :: rest) = Some (hd "" (split_on "=" v)) /\
  (mem "=" v = false -> Index.host (pre ++ ("--host=" ++ v)%string :: rest) = Some v) /\
  Index.host pre = Some "localhost".
Proof.
  intro Hpre.
  assert (Hhost : Index.host (pre ++ ("--host=" ++ v)%string :: rest)
                  = Some (hd "" (split_on "=" v))).
  { unfold Index.host, Index.hostArg.
    rewrite (find_first _ pre ("--host=" ++ v)%string rest Hpre (startsWith_app "--host=" v)).
    cbn [append JS.truthy split_on Ascii.eqb Bool.eqb nth_error].
    destruct (split_on "=" v) as [ | h t] eqn:Hsplit; [ | reflexivity].
    now apply split_on_nonempty in Hsplit. }
  split; [exact Hhost | split].
  - intro Hv. rewrite Hhost, (split_on_without _ _ Hv). reflexivity.
  - unfold Index.host, Index.hostArg. now rewrite (find_nothing _ pre Hpre).
Qed.

(** The theorem on the command line of the container image, and on an
    empty value. *)
Lemma host_argument_witness :
  Index.host ["node"; "index.js"; "--log"; "--http"; "--host=0.0.0.0"] = Some "0.0.0.0" /\
  Index.host ["node"; "index.js"; "--host="] = Some "".
Proof.
  split.
  - apply (host_argument ["node"; "index.js"; "--log"; "--http"] "0.0.0.0" []).
    + intros arg [<- | [<- | [<- | [<- | []]]]]; reflexivity.
    + reflexivity.
  - apply (host_argument ["node"; "index.js"] "" []).
    + intros arg [<- | [<- | []]]; reflexivity.
    + reflexivity.
Defined.

Lemma digit_not_space c : is_digit c = true -> is_space c = false.
Proof. destruct c as [[] [] [] [] [] [] [] []]; try discriminate; reflexivity. Qed.

Lemma take_digits_all d : all_digits d = true -> take_digits d = d.
Proof.
  induction d as [ | c d IH]; simpl; [reflexivity | ].
  intro H. apply andb_true_iff in H. destruct H as [Hc Hd]. now rewrite Hc, IH.
Qed.

Lemma parseInt10_digits (u : Decimal.uint) :
  u <> Decimal.Nil ->
  parseInt10 (NilEmpty.string_of_uint u) = exactly (Z.of_N (N.of_uint u)).
Proof.
  intro Hu. pose proof (string_of_uint_digits u) as Hd.
  unfold parseInt10.
  destruct (NilEmpty.string_of_uint u) as [ | c d] eqn:Hs.
  - destruct u; simpl in Hs; congruence.
  - cbn [all_digits] in Hd. apply andb_true_iff in Hd. destruct Hd as [Hc Hd].
    cbn [trim_start]. rewrite (digit_not_space c Hc).
    rewrite (prefix_other "-" "" c d), (prefix_other "+" "" c d)
      by (intros <-; discriminate).
    cbn [orb]. rewrite take_digits_all by (cbn [all_digits]; now rewrite Hc, Hd).
    rewrite <- Hs, NilEmpty.usu. reflexivity.
Qed.

(** X25: the port of the server.  Without an argument that starts with
    [--port=] the port is 3333.  With one, the first of them decides:
    when its value is a string of digits, the port is the number they
    write, as long as that is at most 2^53; when its value is empty,
    the port is not a number, and not the default. *)
Theorem port_argument pre (u : Decimal.uint) rest :
  (forall arg, In arg pre -> JS.startsWith arg "--port=" = false) ->
  u <> Decimal.Nil ->
  (Z.of_N (N.of_uint u) <= 2 ^ 53)%Z ->
  Index.port (pre ++ ("--port=" ++ NilEmpty.string_of_uint u)%string :: rest)
    = Num (Z.of_N (N.of_uint u)) /\
  Index.port (pre ++ "--port=" :: rest) = NaN /\
  Index.port pre = Num 3333.
Proof.
  intros Hpre Hu Hsmall. split; [ | split].
  - unfold Index.port, Index.portArg.
    rewrite (find_first _ pre _ rest Hpre (startsWith_app "--port=" _)).
    cbn [append JS.truthy split_on Ascii.eqb Bool.eqb].
    rewrite split_on_without.
    + cbn [nth_error]. rewrite (parseInt10_digits u Hu). unfold exactly.
      rewrite Z.abs_eq by apply N2Z.is_nonneg.
      now rewrite (proj2 (Z.leb_le _ _) Hsmall).
    + pose proof (string_of_uint_digits u) as Hd. clear - Hd.
      induction (NilEmpty.string_of_uint u) as [ | c d IH]; [reflexivity | ].
      cbn [all_digits] in Hd. apply andb_true_iff in Hd. destruct Hd as [Hc Hd].
      cbn [mem]. rewrite (IH Hd), orb_false_r.
      destruct c as [[] [] [] [] [] [] [] []]; try discriminate; reflexivity.
  - unfold Index.port, Index.portArg.
    rewrite (find_first _ pre "--port=" rest Hpre eq_refl). reflexivity.
  - unfold Index.port, Index.portArg. now rewrite (find_nothing _ pre Hpre).
Qed.

(** The theorem on the port 8080. *)
Lemma port_argument_witness :
  Index.port ["node"; "index.js"; "--http"; "--port=8080"] = Num 8080 /\
  Index.port ["node"; "index.js"; "--http"; "--port="] = NaN /\
  Index.port ["node"; "index.js"; "--http"] = Num 3333.
Proof.
  apply (port_argument ["node"; "index.js"; "--http"]
           (Decimal.D8 (Decimal.D0 (Decimal.D8 (Decimal.D0 Decimal.Nil)))) []).
  - intros arg [<- | [<- | [<- | []]]]; reflexivity.
  - discriminate.
  - vm_compute. discriminate.
Defined.

(** ** What [googleSearch] of [unnamed/part_002] returns *)

Section Part002Responses.

Variable host : Host.
Variable W : nat -> Engine.
Variable q : string.
Variable options : SearchOptions.
Variable existingBrowser : option Handle.

Let maxResults : Z := Part002.limit' options.

Lemma Part002_handleBlocked_ensures self E headless wasProvided browser context page url navs :
  (forall f, ensures (self f) (response_of q maxResults)) ->
  ensures
    (Part002.handleBlocked self E headless wasProvided browser context page url navs)
    (fun blocked =>
       match blocked with
       | Part002.Restarted response => response_of q maxResults response
       | Part002.Continue => True
       end).
Proof.
  intro Hself. unfold Part002.handleBlocked.
  destruct (Part002.isBlocked url); [destruct headless | ].
  - do 4 (apply ensures_bind; intro).
    eapply ensures_bind_with; [apply Hself | ].
    intros response Hresponse. now apply ensures_ret.
  - ensures_skip. now apply ensures_ret.
  - now apply ensures_ret.
Qed.

Lemma Part002_tryStatement_ensures self E headless wasProvided browser context page domain :
  (forall f, ensures (self f) (response_of q maxResults)) ->
  ensures
    (Part002.tryStatement host q options self E headless wasProvided browser context page
       domain)
    (response_of q maxResults).
Proof.
  intro Hself. unfold Part002.tryStatement. apply ensures_try_catch.
  - unfold Part002.tryBlock.
    apply ensures_bind_with
      with (Q := fun r =>
                   match r with
                   | inl results => extracted maxResults results
                   | inr response => response_of q maxResults response
                   end).
    + unfold Part002.tryBlock_search.
      do 3 (apply ensures_bind; intro).
      eapply ensures_bind_with; [now apply Part002_handleBlocked_ensures | ].
      intros [response1 | ] H1; [now apply ensures_ret | ].
      do 2 (apply ensures_bind; intro).
      destruct (negb _); [apply ensures_throw | ].
      do 5 (apply ensures_bind; intro).
      eapply ensures_bind_with; [now apply Part002_handleBlocked_ensures | ].
      intros [response2 | ] H2; [now apply ensures_ret | ].
      apply ensures_bind. intros _.
      apply extraction_extracted. auto.
    + intros [results | response] Hr.
      * unfold Part002.tryBlock_finish. ensures_skip. apply ensures_ret.
        split; [reflexivity | right; exact Hr].
      * now apply ensures_ret.
  - intro e. unfold Part002.catchBlock. ensures_skip. apply ensures_ret.
    split; [reflexivity | left; eauto].
Qed.

Lemma Part002_performSearch_ensures fuel :
  forall attempt headless force,
    ensures
      (Part002.performSearch host W q options existingBrowser fuel attempt headless force)
      (response_of q maxResults).
Proof.
  induction fuel as [ | fuel IH]; intros attempt headless force; simpl.
  - intros st a st' H. discriminate.
  - do 7 (apply ensures_bind; intro).
    apply Part002_tryStatement_ensures. intro f. apply IH.
Qed.

End Part002Responses.

(** X26: what [googleSearch] of [unnamed/part_002] returns.  Every
    response it returns, from the first attempt or from a restarted
    one, is for the query it was called with, and it is the response of
    a failed search, or every one of its results has a title and a link
    that are not empty and, when the limit is not negative, there are no
    more of them than the limit. *)
Theorem Part002_googleSearch_responses host W q options existingBrowser fuel :
  ensures (Part002.googleSearch host W q options existingBrowser fuel)
          (response_of q (Part002.limit' options)).
Proof. apply Part002_performSearch_ensures. Qed.

(** ** A search that fails writes nothing *)

(** X27: in [src/services/googleSearch.ts] the state is written at the
    end of a search that has its results, and never before.  When the
    search part of the [try] block does not return results, because it
    throws, restarts or stays pending, the whole [try] statement,
    [catch] block included, makes no call of [context.storageState], of
    [fs.mkdirSync] or of [fs.writeFileSync]: the saved state of an
    earlier search is left as it was. *)
Theorem failed_search_writes_nothing host q options E headless wasProvided browser context
    page st :
  (forall results st1,
     GoogleSearch.tryBlock_search q options E headless wasProvided browser context page st
     <> (Returns (inl results), st1)) ->
  exists evs,
    extends st
      (snd (GoogleSearch.tryStatement host q options E headless wasProvided browser context
              page st))
      evs /\
    forallb writes_nothing evs = true.
Proof.
  intro Hfailed.
  assert (Hsearch :
            emits writes_nothing
              (GoogleSearch.tryBlock_search q options E headless wasProvided browser context
                 page))
    by (unfold GoogleSearch.tryBlock_search; emits_auto).
  assert (Hcatch :
            forall e,
              emits writes_nothing
                (GoogleSearch.catchBlock q options E wasProvided browser e))
    by (intro e; unfold GoogleSearch.catchBlock; emits_auto).
  destruct (Hsearch st) as (evs1 & Hext1 & HP1).
  unfold GoogleSearch.tryStatement, GoogleSearch.tryBlock, try_catch. rewrite bind_run.
  destruct (GoogleSearch.tryBlock_search q options E headless wasProvided browser context
              page st) as [[[results | force] | e | | ] st1] eqn:Hrun; cbn [snd] in *.
  - exfalso. exact (Hfailed results st1 eq_refl).
  - exists evs1. cbn [ret snd]. auto.
  - destruct (Hcatch e st1) as (evs2 & Hext2 & HP2).
    exists (evs1 ++ evs2). split; [eapply extends_trans; eassumption | ].
    rewrite forallb_app, HP1, HP2. reflexivity.
  - exists evs1. auto.
  - exists evs1. auto.
Qed.

(** The theorem on a search that finds no search box. *)
Lemma failed_search_writes_nothing_witness :
  exists evs,
    extends (Sample.start Sample.emptyFS)
      (snd (GoogleSearch.tryStatement Sample.host "rocq" noOptions Sample.noSearchBox true
              false 0%nat 1%nat 2%nat (Sample.start Sample.emptyFS)))
      evs /\
    forallb writes_nothing evs = true.
Proof.
  apply (failed_search_writes_nothing Sample.host "rocq" noOptions Sample.noSearchBox true
           false 0%nat 1%nat 2%nat (Sample.start Sample.emptyFS)).
  intros results st1. vm_compute. discriminate.
Defined.

(** ** The timeout 0 *)

Lemma Qeq_bool_zero_double t : Qeq_bool t 0 = true -> Qeq_bool (t * 2) 0 = true.
Proof.
  intro H. apply Qeq_bool_eq in H. apply Qeq_eq_bool. rewrite H. reflexivity.
Qed.

Lemma launchBrowser_hangs headless t :
  Qeq_bool t 0 = true -> hangs (launchBrowser Never headless t).
Proof.
  intro Ht. unfold launchBrowser. apply hangs_bind.
  intro st. exists st. unfold timed. now rewrite (Qeq_bool_zero_double t Ht).
Qed.

Lemma launchBrowser_times_out headless t :
  Qeq_bool t 0 = false -> throws (launchBrowser Never headless t) TimeoutError.
Proof.
  intro Ht. unfold launchBrowser. apply throws_bind.
  intro st. exists st. unfold timed. now rewrite (Qeq_bool_double t Ht).
Qed.

(** X28: the timeout 0 switches the launch timeout off for a search on
    its own, and not for a batch.  [googleSearch] passes the timeout it
    is given on to [launchBrowser], where 0 means no limit: when the
    browser never comes up, the search stays pending.
    [multiGoogleSearch] launches with [options.timeout || 60000], and 0
    is falsy: with the same timeout 0 the launch of the browser of a
    batch is given up after 120000 milliseconds, and the batch throws.
    Both implementations do so. *)
Theorem zero_timeout_bounds_the_batch_launch host BW W q fuel queries options t :
  timeout options = Some t ->
  Qeq_bool t 0 = true ->
  noQueries queries = false ->
  batch_launch BW = Never ->
  launch (W 0%nat) = Never ->
  (throws (GoogleSearch.multiGoogleSearch host BW fuel queries options) TimeoutError /\
   throws (Part002.multiGoogleSearch host BW fuel queries options) TimeoutError) /\
  (hangs (GoogleSearch.googleSearch host W q options None (S fuel)) /\
   hangs (Part002.googleSearch host W q options None (S fuel))).
Proof.
  intros Ht Hzero Hq Hbatch Hlaunch.
  assert (HtimeoutOr : timeoutOr options = 60000%Q)
    by (unfold timeoutOr; now rewrite Ht, Hzero).
  split; split.
  - unfold GoogleSearch.multiGoogleSearch. rewrite Hq, Hbatch, HtimeoutOr.
    eapply throws_after; [apply returns_logger | intros _ _].
    apply throws_bind, launchBrowser_times_out. reflexivity.
  - unfold Part002.multiGoogleSearch. rewrite Hq, Hbatch, HtimeoutOr.
    eapply throws_after; [apply returns_logger | intros _ _].
    apply throws_bind, launchBrowser_times_out. reflexivity.
  - unfold GoogleSearch.googleSearch.
    eapply hangs_after; [apply returns_loadSavedState | intros loaded _].
    eapply hangs_after; [apply returns_set_savedState | intros _ _].
    cbn [GoogleSearch.performSearch andb]. rewrite Hlaunch.
    unfold GoogleSearch.timeout'. rewrite Ht.
    eapply hangs_after; [apply returns_emit | intros _ _].
    apply hangs_bind.
    eapply hangs_after; [apply returns_logger | intros _ _].
    now apply launchBrowser_hangs.
  - unfold Part002.googleSearch.
    cbn [Part002.performSearch andb]. rewrite Hlaunch.
    unfold Part002.timeout'. rewrite Ht.
    eapply hangs_after; [apply returns_emit | intros _ _].
    apply hangs_bind.
    eapply hangs_after; [apply returns_logger | intros _ _].
    now apply launchBrowser_hangs.
Qed.

(** The theorem on a browser that never comes up. *)
Lemma zero_timeout_bounds_the_batch_launch_witness :
  (throws
     (GoogleSearch.multiGoogleSearch Sample.host MoreSamples.neverLaunchesBatch 2
        (Some ["rocq"]) MoreSamples.noTimeout)
     TimeoutError /\
   throws
     (Part002.multiGoogleSearch Sample.host MoreSamples.neverLaunchesBatch 2
        (Some ["rocq"]) MoreSamples.noTimeout)
     TimeoutError) /\
  (hangs
     (GoogleSearch.googleSearch Sample.host (fun _ => MoreSamples.neverLaunches) "rocq"
        MoreSamples.noTimeout None 2) /\
   hangs
     (Part002.googleSearch Sample.host (fun _ => MoreSamples.neverLaunches) "rocq"
        MoreSamples.noTimeout None 2)).
Proof.
  apply (zero_timeout_bounds_the_batch_launch Sample.host MoreSamples.neverLaunchesBatch
           (fun _ => MoreSamples.neverLaunches) "rocq" 1 (Some ["rocq"])
           MoreSamples.noTimeout 0%Q);
    reflexivity.
Defined.
